(** * Renewable Energy Household Dashboard: the data transformations of [app.py]

    A shallow embedding of the table transformations that [main] performs
    between loading [renewable_dataset.csv] and handing tables to the charting
    calls: the sort by [Year], the two group-by means, the cumulative adoption
    count with its expansion into animation frames, and the reduction behind
    the map view.

    A data frame is the list of its rows, in row order.  A missing cell (NaN in
    pandas) is [None] in an integer or text column and a NaN in a float column.
    Float columns are IEEE binary64 numbers ([PrimFloat.float]).  Calls that can
    raise return a [result]. *)

From Stdlib Require Import ZArith List String Ascii Bool Lia.
From Stdlib Require Import Permutation Sorted.
From Stdlib Require Import PrimFloat Uint63.
From Stdlib Require FloatAxioms FloatOps SpecFloat.
Import ListNotations.

Open Scope list_scope.
Open Scope Z_scope.

(* ================================================================= *)
(** ** Exceptions *)

Inductive exn : Type :=
| ValueError (msg : string)
| KeyError (label : Z).

Inductive result (A : Type) : Type :=
| Ok (a : A)
| Raise (e : exn).

Arguments Ok {A} a.
Arguments Raise {A} e.

Definition bind {A B : Type} (m : result A) (k : A -> result B) : result B :=
  match m with
  | Ok a => k a
  | Raise e => Raise e
  end.

Notation "x <- m ;; k" := (bind m (fun x => k))
  (at level 61, m at next level, right associativity).

(** Apply a raising function to every element, left to right; the first
    exception aborts the whole traversal. *)
Fixpoint mapM {A B : Type} (f : A -> result B) (l : list A) : result (list B) :=
  match l with
  | [] => Ok []
  | a :: l' => b <- f a ;; bs <- mapM f l' ;; Ok (b :: bs)
  end.

(* ================================================================= *)
(** ** The data model: one row of [renewable_dataset.csv] *)

Record Row : Type := mkRow {
  Year : option Z;
  Country : option string;
  Energy_Source : option string;
  Monthly_Usage_kWh : float;
  Cost_Savings_USD : float;
  Income_Level : option string;
  Household_Size : option Z;
  Urban_Rural : option string;
  Adoption_Year : option Z
}.

Definition DataFrame : Type := list Row.

(* ================================================================= *)
(** ** Numbers *)

(** [pd.isna] on a float cell. *)
Definition isna (v : float) : bool := is_nan v.
Definition notna (v : float) : bool := negb (isna v).

(** The conversion of an integer to float64 that [mean] performs on an integer
    column (int64 or uint64) and on a row count: the nearest binary64 number,
    ties to the even one. *)
Definition float_of_Z (z : Z) : float :=
  FloatOps.SF2Prim (SpecFloat.binary_normalize FloatOps.prec FloatOps.emax z 0 false).

(** A nullable integer cell read as a float: a missing one is NaN. *)
Definition float_of_cell (c : option Z) : float :=
  match c with
  | Some z => float_of_Z z
  | None => nan
  end.

(* ================================================================= *)
(** ** Group labels

    What [groupby] needs of a label type: equality, to collect the rows of one
    label, and an order, to arrange the labels of the result ([sort=True]). *)

Class Key (K : Type) : Type := {
  key_eqb : K -> K -> bool;
  key_leb : K -> K -> bool;
  key_eqb_eq : forall a b, key_eqb a b = true <-> a = b
}.

#[export] Instance Key_Z : Key Z := {
  key_eqb := Z.eqb;
  key_leb := Z.leb;
  key_eqb_eq := Z.eqb_eq
}.

#[export] Instance Key_string : Key string := {
  key_eqb := String.eqb;
  key_leb := String.leb;
  key_eqb_eq := String.eqb_eq
}.

(** Two label columns: equality on both, order lexicographic. *)
Definition pair_eqb {A B : Type} `{Key A} `{Key B} (p q : A * B) : bool :=
  key_eqb (fst p) (fst q) && key_eqb (snd p) (snd q).

Definition pair_leb {A B : Type} `{Key A} `{Key B} (p q : A * B) : bool :=
  if key_eqb (fst p) (fst q) then key_leb (snd p) (snd q)
  else key_leb (fst p) (fst q).

#[export, refine] Instance Key_pair {A B : Type} `{Key A} `{Key B} : Key (A * B) := {
  key_eqb := pair_eqb;
  key_leb := pair_leb
}.
Proof.
  intros [a b] [a' b']. unfold pair_eqb. simpl.
  rewrite andb_true_iff, !key_eqb_eq.
  split; [intros [-> ->]; reflexivity | intros [= -> ->]; split; reflexivity].
Defined.

(** A label made of nullable cells: [groupby] drops the rows in which any
    label cell is missing ([dropna=True]). *)
Definition both {A B : Type} (a : option A) (b : option B) : option (A * B) :=
  match a, b with
  | Some x, Some y => Some (x, y)
  | _, _ => None
  end.

(* ================================================================= *)
(** ** Library operations on columns and frames *)

(** [Series.dropna]: the non-missing cells, in row order. *)
Fixpoint dropna {A : Type} (col : list (option A)) : list A :=
  match col with
  | [] => []
  | Some a :: col' => a :: dropna col'
  | None :: col' => dropna col'
  end.

(** Sorting of pairwise distinct labels (the labels of a [groupby] result, the
    values of [mode], the argument of Python's [sorted] below): insertion into
    an ordered list. *)
Fixpoint insert {A : Type} (leb : A -> A -> bool) (x : A) (l : list A) : list A :=
  match l with
  | [] => [x]
  | y :: l' => if leb x y then x :: l else y :: insert leb x l'
  end.

Definition isort {A : Type} (leb : A -> A -> bool) (l : list A) : list A :=
  fold_right (insert leb) [] l.

Section Grouping.
Context {K : Type} `{Key K} {V : Type}.

(** Append row [v] to the group labelled [k]; a label not seen before opens a
    new group after the existing ones. *)
Fixpoint group_add (k : K) (v : V) (groups : list (K * list V)) : list (K * list V) :=
  match groups with
  | [] => [(k, [v])]
  | (k', vs) :: rest =>
      if key_eqb k k' then (k', vs ++ [v]) :: rest
      else (k', vs) :: group_add k v rest
  end.

(** One pass over the rows: every row with a label joins the group of that
    label; rows without one are dropped.  Groups come out in order of first
    appearance, rows inside a group in row order. *)
Definition factorize (label : V -> option K) (rows : list V) : list (K * list V) :=
  fold_left
    (fun groups r =>
       match label r with
       | Some k => group_add k r groups
       | None => groups
       end)
    rows [].

(** [DataFrame.groupby(keys)] with its defaults [sort=True, dropna=True]. *)
Definition groupby (label : V -> option K) (rows : list V) : list (K * list V) :=
  isort (fun g g' => key_leb (fst g) (fst g')) (factorize label rows).

End Grouping.

(** [Series.unique]: the distinct values in order of first appearance. *)
Definition unique {K : Type} `{Key K} (col : list K) : list K :=
  map fst (factorize (fun v => Some v) col).

(** The skip-NaN mean of one group, as the loop of the library's [group_mean]
    computes it: one pass over the cells that keeps the running sum [sumx],
    the rounding error [compensation] carried to the next addition (Kahan
    summation) and the number of observations [nobs].  A compensation that
    comes out NaN (after an infinite cell) is reset to zero.  A group without
    observations yields NaN. *)
Definition group_mean (values : list float) : float :=
  let acc :=
    fold_left
      (fun (acc : float * float * Z) val =>
         let '(sumx, compensation, nobs) := acc in
         if notna val
         then
           let y := PrimFloat.sub val compensation in
           let t := PrimFloat.add sumx y in
           let c := PrimFloat.sub (PrimFloat.sub t sumx) y in
           (t, if is_nan c then 0%float else c, nobs + 1)
         else acc)
      values (0%float, 0%float, 0) in
  let '(sumx, _, nobs) := acc in
  if nobs =? 0 then nan else PrimFloat.div sumx (float_of_Z nobs).

(** [df.groupby(keys)[column].mean().reset_index()] *)
Definition groupby_mean {K : Type} `{Key K}
  (label : Row -> option K) (column : Row -> float) (df : DataFrame) : list (K * float) :=
  map (fun g => (fst g, group_mean (map column (snd g)))) (groupby label df).

(** [Series.cumsum] *)
Fixpoint cumsum_from (acc : Z) (col : list Z) : list Z :=
  match col with
  | [] => []
  | x :: col' => (acc + x) :: cumsum_from (acc + x) col'
  end.

Definition cumsum (col : list Z) : list Z := cumsum_from 0 col.

(** [pd.concat]: rows of the frames one after the other; an empty list of
    frames is refused. *)
Definition pd_concat {A : Type} (objs : list (list A)) : result (list A) :=
  match objs with
  | [] => Raise (ValueError "No objects to concatenate")
  | _ => Ok (List.concat objs)
  end.

(** [Series.mode()] on a text column: the most frequent non-missing values,
    sorted. *)
Definition mode (x : list (option string)) : list string :=
  let counts := map (fun g => (fst g, List.length (snd g))) (factorize (fun v => Some v) (dropna x)) in
  let max_count := fold_left Nat.max (map snd counts) 0%nat in
  isort String.leb (map fst (filter (fun c => Nat.eqb (snd c) max_count) counts)).

(** Label lookup [s[0]] on a series indexed 0, 1, ...: element 0, [KeyError]
    on an empty series. *)
Definition at0 {A : Type} (s : list A) : result A :=
  match s with
  | [] => Raise (KeyError 0)
  | a :: _ => Ok a
  end.

(* ----------------------------------------------------------------- *)
(** *** Sorting by a column

    [sort_values] and [value_counts] are called with the default
    [kind='quicksort'].  What that kind promises is an ordered rearrangement of
    the rows with missing keys last; which of two rows with equal keys comes
    first is left to the sorting routine.  The development is therefore stated
    for any routine that keeps this promise. *)

Definition key_le (ascending : bool) (a b : option Z) : Prop :=
  match a, b with
  | _, None => True
  | None, Some _ => False
  | Some x, Some y => if ascending then x <= y else y <= x
  end.

Class SortKind : Type := {
  sort_values : forall {A : Type}, (A -> option Z) -> bool -> list A -> list A;
  sort_values_perm :
    forall (A : Type) (by_ : A -> option Z) (ascending : bool) (l : list A),
      Permutation l (sort_values by_ ascending l);
  sort_values_sorted :
    forall (A : Type) (by_ : A -> option Z) (ascending : bool) (l : list A),
      Sorted (fun x y => key_le ascending (by_ x) (by_ y)) (sort_values by_ ascending l)
}.

(** [Series.value_counts().reset_index()]: value and number of occurrences of
    every distinct non-missing value, most frequent first. *)
Definition value_counts `{SortKind} (col : list (option Z)) : list (Z * Z) :=
  let counts :=
    map (fun g => (fst g, Z.of_nat (List.length (snd g))))
        (factorize (fun v => Some v) (dropna col)) in
  sort_values (fun c => Some (snd c)) false counts.

(* ================================================================= *)
(** ** The derived tables *)

(** The columns of [adoption_years] once [Cumulative_Count] has been added. *)
Module Adoption.
Record row : Type := mk {
  Year : Z;
  Count : Z;
  Cumulative_Count : Z
}.
End Adoption.

(** The columns of the frames of [expanded_data] and of
    [expanded_adoption_data]. *)
Module Frame.
Record row : Type := mk {
  Year : Z;
  Count : Z;
  Cumulative_Count : Z;
  Animation_Year : Z
}.
End Frame.

(** The entries of [variables], the choices of the second select box; the
    first three are the ones [main] treats as numeric. *)
Module Var.
Inductive numeric : Type := Monthly_Usage_kWh | Cost_Savings_USD | Household_Size.
Inductive categorical : Type := Income_Level | Urban_Rural.
End Var.

Definition VariableName : Type := (Var.numeric + Var.categorical)%type.

Definition variables : list VariableName :=
  [inl Var.Monthly_Usage_kWh; inl Var.Cost_Savings_USD; inl Var.Household_Size;
   inr Var.Income_Level; inr Var.Urban_Rural].

Definition column_name (v : VariableName) : string :=
  match v with
  | inl Var.Monthly_Usage_kWh => "Monthly_Usage_kWh"
  | inl Var.Cost_Savings_USD => "Cost_Savings_USD"
  | inl Var.Household_Size => "Household_Size"
  | inr Var.Income_Level => "Income_Level"
  | inr Var.Urban_Rural => "Urban_Rural"
  end.

(** [filtered_data[selected_variable]], by the type of the column. *)
Definition numeric_column (v : Var.numeric) : Row -> float :=
  match v with
  | Var.Monthly_Usage_kWh => Monthly_Usage_kWh
  | Var.Cost_Savings_USD => Cost_Savings_USD
  | Var.Household_Size => fun r => float_of_cell (Household_Size r)
  end.

Definition categorical_column (v : Var.categorical) : Row -> option string :=
  match v with
  | Var.Income_Level => Income_Level
  | Var.Urban_Rural => Urban_Rural
  end.

(** A cell of the colour column of [country_avg]. *)
Inductive Cell : Type :=
| Num (x : float)
| Text (s : string).

(* ================================================================= *)
(** ** The transformations of [main] *)

(** [astype(int)] on a cell that holds an integer. *)
Definition astype_int (z : Z) : Z := z.

(** [data['Year'] == selected_year]: a missing cell equals nothing. *)
Definition year_is (selected_year : option Z) (r : Row) : bool :=
  match Year r, selected_year with
  | Some y, Some s => y =? s
  | _, _ => false
  end.

(** [groupby(keys)[column].agg(f).reset_index()] for a reduction [f] that may
    raise. *)
Definition groupby_agg {K C D : Type} `{Key K}
  (label : Row -> option K) (column : Row -> C) (f : list C -> result D)
  (df : DataFrame) : result (list (K * D)) :=
  mapM (fun g => d <- f (map column (snd g)) ;; Ok (fst g, d)) (groupby label df).

(** Line 38. *)
Definition avg_usage (data : DataFrame) : list (Z * string * float) :=
  groupby_mean (fun r => both (Year r) (Energy_Source r)) Monthly_Usage_kWh data.

(** Line 66. *)
Definition avg_savings (data : DataFrame) : list (Z * string * float) :=
  groupby_mean (fun r => both (Year r) (Income_Level r)) Cost_Savings_USD data.

(** Lines 102 to 112, from the table [adoption_years]. *)
Definition all_years (adoption_years : list Adoption.row) : list Z :=
  isort Z.leb (unique (map Adoption.Year adoption_years)).

Definition temp_data (adoption_years : list Adoption.row) (year : Z) : list Frame.row :=
  map (fun r => Frame.mk (Adoption.Year r) (Adoption.Count r) (Adoption.Cumulative_Count r) year)
      (filter (fun r => Adoption.Year r <=? year) adoption_years).

Definition expanded_data (adoption_years : list Adoption.row) : list (list Frame.row) :=
  fold_left (fun expanded year => expanded ++ [temp_data adoption_years year])
            (all_years adoption_years) [].

Definition expanded_adoption_data (adoption_years : list Adoption.row)
  : result (list Frame.row) :=
  frames <- pd_concat (expanded_data adoption_years) ;;
  Ok (map (fun r => Frame.mk (astype_int (Frame.Year r)) (Frame.Count r)
                             (Frame.Cumulative_Count r)
                             (astype_int (Frame.Animation_Year r)))
          frames).

(** Lines 155 to 163: the title and the table [country_avg] of the map. *)
Definition map_view (data : DataFrame) (selected_year : option Z)
  (selected_variable : VariableName) : result (string * list (string * Cell)) :=
  let filtered_data := filter (year_is selected_year) data in
  match selected_variable with
  | inl v =>
      let title := ("Average " ++ column_name selected_variable ++ " by Country")%string in
      let country_avg := groupby_mean Country (numeric_column v) filtered_data in
      Ok (title, map (fun c => (fst c, Num (snd c))) country_avg)
  | inr v =>
      let title := ("Mode of " ++ column_name selected_variable ++ " by Country")%string in
      country_avg <-
        groupby_agg Country (categorical_column v) (fun x => at0 (mode x)) filtered_data ;;
      Ok (title, map (fun c => (fst c, Text (snd c))) country_avg)
  end.

Section Sorted_steps.
Context `{SortKind}.

(** Line 19. *)
Definition sort_by_year (data : DataFrame) : DataFrame :=
  sort_values Year true data.

(** Lines 94 to 99. *)
Definition adoption_years (data : DataFrame) : list Adoption.row :=
  let counts := value_counts (map Adoption_Year data) in
  let sorted := sort_values (fun c : Z * Z => Some (fst c)) true counts in
  map (fun c => Adoption.mk (fst (fst c)) (snd (fst c)) (snd c))
      (combine sorted (cumsum (map snd sorted))).

(** Lines 94 to 112. *)
Definition adoption_expansion (data : DataFrame) : result (list Frame.row) :=
  expanded_adoption_data (adoption_years data).

End Sorted_steps.

(** The four derived tables of one run of [main] on the (sorted) table. *)
Record Tables : Type := mkTables {
  usage_table : list (Z * string * float);
  savings_table : list (Z * string * float);
  adoption_table : result (list Frame.row);
  map_table : result (string * list (string * Cell))
}.

Definition aggregations `{SortKind} (data : DataFrame) (selected_year : option Z)
  (selected_variable : VariableName) : Tables :=
  mkTables (avg_usage data) (avg_savings data) (adoption_expansion data)
           (map_view data selected_year selected_variable).

(* ================================================================= *)
(** ** Reference definitions used in the statements *)

(** The rows of a frame that carry label [k]. *)
Definition has_label {K V : Type} `{Key K} (label : V -> option K) (k : K) (r : V) : bool :=
  match label r with
  | Some k' => key_eqb k' k
  | None => false
  end.

Definition rows_of {K V : Type} `{Key K} (label : V -> option K) (k : K) (rows : list V) : list V :=
  filter (has_label label k) rows.

(** The sum of a list of floats with the rounding error of every addition
    carried into the next one, and the arithmetic mean taken from it: the
    sum divided by the number of values. *)
Definition compensated_step (acc : float * float) (val : float) : float * float :=
  let y := PrimFloat.sub val (snd acc) in
  let t := PrimFloat.add (fst acc) y in
  let c := PrimFloat.sub (PrimFloat.sub t (fst acc)) y in
  (t, if is_nan c then 0%float else c).

Definition compensated_sum (values : list float) : float :=
  fst (fold_left compensated_step values (0%float, 0%float)).

Definition arithmetic_mean (values : list float) : float :=
  PrimFloat.div (compensated_sum values)
                (float_of_Z (Z.of_nat (List.length values))).

(** The group of label [k] in a list of groups, if there is one. *)
Fixpoint find_group {K V : Type} `{Key K} (k : K) (groups : list (K * list V)) : option (list V) :=
  match groups with
  | [] => None
  | (k', vs) :: rest => if key_eqb k k' then Some vs else find_group k rest
  end.

Definition some_if_rows {V : Type} (l : list V) : option (list V) :=
  match l with
  | [] => None
  | _ => Some l
  end.

(** The cells of [column] in the rows of the selected year and of country
    [c], in row order. *)
Definition country_cells {C : Type} (column : Row -> C) (data : DataFrame)
  (selected_year : option Z) (c : string) : list C :=
  map column (rows_of Country c (filter (year_is selected_year) data)).

(** How often [v] occurs among the non-missing cells of [x]. *)
Definition occurrences (v : string) (x : list (option string)) : nat :=
  count_occ string_dec (dropna x) v.

(** [m] is a non-missing value of [x] that no value occurs more often than. *)
Definition most_frequent (x : list (option string)) (m : string) : Prop :=
  In m (dropna x) /\ forall v, (occurrences v x <= occurrences m x)%nat.

(** [m] is the first most frequent value of [x] in the order of text. *)
Definition smallest_most_frequent (x : list (option string)) (m : string) : Prop :=
  most_frequent x m /\ forall w, most_frequent x w -> String.leb m w = true.

(** The two intermediate values of [mode]. *)
Definition mode_counts (x : list (option string)) : list (string * nat) :=
  map (fun g => (fst g, List.length (snd g)))
      (factorize (fun v => Some v) (dropna x)).

Definition mode_max_count (x : list (option string)) : nat :=
  fold_left Nat.max (map snd (mode_counts x)) 0%nat.

(** The order of [key_le] as a test. *)
Definition key_leb_na_last (ascending : bool) (a b : option Z) : bool :=
  match a, b with
  | _, None => true
  | None, Some _ => false
  | Some x, Some y => if ascending then x <=? y else y <=? x
  end.

(** The table as the specification words it: count the rows of every distinct
    Adoption_Year value, order the (Year, Count) pairs by ascending Year, add
    the running sum of Count. *)
Definition spec_adoption_counts (col : list (option Z)) : list (Z * Z) :=
  map (fun v => (v, Z.of_nat (count_occ Z.eq_dec (dropna col) v)))
      (nodup Z.eq_dec (dropna col)).

Definition with_cumulative_count (pairs : list (Z * Z)) : list Adoption.row :=
  map (fun c => Adoption.mk (fst (fst c)) (snd (fst c)) (snd c))
      (combine pairs (cumsum (map snd pairs))).

Definition spec_cumulative_adoption (col : list (option Z)) : list Adoption.row :=
  with_cumulative_count (isort (fun a b => fst a <=? fst b) (spec_adoption_counts col)).

(** The value counts before any sorting: one pair per distinct value. *)
Definition counted (col : list (option Z)) : list (Z * Z) :=
  map (fun g => (fst g, Z.of_nat (List.length (snd g))))
      (factorize (fun v => Some v) (dropna col)).

(* ================================================================= *)
(** ** Sorting through numpy's [argsort]

    [sort_values] asks numpy for the order of the keys
    ([keys.argsort(kind='quicksort')]) and takes the rows in that order.
    numpy promises positions in which the keys ascend and leaves open in which
    order positions of equal keys come.  Which routine answers is chosen when
    the program runs, from the instructions the CPU has.  A routine is
    therefore a parameter here: a function from the keys to the positions,
    [None] on arrays on which the routine is not followed. *)

Definition Routine : Type := list Z -> option (list nat).

(** [nargsort(items, kind='quicksort', ascending, na_position='last')]: the
    positions of the rows in sorted order.  Only the keys that are not missing
    are handed to numpy; the positions of the missing ones are put last. *)
Definition nargsort (argsort : Routine) (items : list (option Z)) (ascending : bool)
  : option (list nat) :=
  let idx := seq 0 (List.length items) in
  let mask := fun i => match nth i items None with Some _ => false | None => true end in
  let non_nans := dropna items in
  let non_nan_idx := filter (fun i => negb (mask i)) idx in
  let nan_idx := filter mask idx in
  let non_nans := if ascending then non_nans else rev non_nans in
  let non_nan_idx := if ascending then non_nan_idx else rev non_nan_idx in
  match argsort non_nans with
  | Some order =>
      let indexer := map (fun j => nth j non_nan_idx 0%nat) order in
      let indexer := if ascending then indexer else rev indexer in
      Some (indexer ++ nan_idx)
  | None => None
  end.

(** [DataFrame.take(indexer)] *)
Definition take {A : Type} (l : list A) (indexer : list nat) : list A :=
  flat_map (fun i => match nth_error l i with Some x => [x] | None => [] end) indexer.

(** [sort_values(by, ascending)] with a given routine behind [argsort]. *)
Definition sort_values_by {A : Type} (argsort : Routine) (by_ : A -> option Z)
  (ascending : bool) (l : list A) : option (list A) :=
  match nargsort argsort (map by_ l) ascending with
  | Some indexer => Some (take l indexer)
  | None => None
  end.

(** What numpy promises of [argsort], whatever the kind: every position once,
    and the keys at these positions in ascending order. *)
Class ArgSort : Type := {
  argsort : list Z -> list nat;
  argsort_perm : forall keys, Permutation (argsort keys) (seq 0 (List.length keys));
  argsort_sorted : forall keys, Sorted Z.le (map (fun j => nth j keys 0) (argsort keys))
}.

Definition routine_of (numpy : ArgSort) : Routine := fun keys => Some (argsort keys).

(** [sort_values] with a routine that answers every array. *)
Definition sort_values_with (numpy : ArgSort) {A : Type} (by_ : A -> option Z)
  (ascending : bool) (l : list A) : list A :=
  match sort_values_by (routine_of numpy) by_ ascending l with
  | Some sorted => sorted
  | None => l
  end.

(** The routine of [kind='stable']: positions of equal keys stay in their
    order. *)
Definition stable_argsort (keys : list Z) : list nat :=
  isort (fun i j => nth i keys 0 <=? nth j keys 0) (seq 0 (List.length keys)).

(** A routine that returns positions of equal keys in reverse order, which
    the promise of [kind='quicksort'] allows. *)
Definition reversing_argsort (keys : list Z) : list nat :=
  rev (isort (fun i j => nth j keys 0 <=? nth i keys 0) (seq 0 (List.length keys))).

(** The routine numpy selects on x86 CPUs with AVX2 or AVX-512, on an array
    of up to four keys: the sorting network of x86-simd-sort on one vector
    register.  With AVX2 the register has four 64-bit lanes; with AVX-512 it
    has eight, and the steps on the upper four move nothing while four or
    fewer lanes are in use.  A lane holds a key and the position it was read
    from; lanes past the end of the array hold the largest key.  Every step
    compares each lane with a partner lane and keeps the smaller or the larger
    key; the lane keeps its own position when the key it ends up with equals
    its own key, and takes the partner's position otherwise.  Longer arrays
    take wider networks and partitioning, which are not followed here, and on
    CPUs without these instructions numpy runs another routine. *)
Module VectorSort.

Definition numlanes : nat := 4.

Definition type_max : Z := 2 ^ 63 - 1.

Definition lane : Type := (Z * Z)%type.

Definition unused : lane := (type_max, 2 ^ 64 - 1).

(** Gather the keys at the positions [arg] into the register. *)
Definition load (keys : list Z) (arg : list nat) : list lane :=
  map (fun i =>
         match nth_error arg i with
         | Some a => (nth a keys 0, Z.of_nat a)
         | None => unused
         end)
      (seq 0 numlanes).

(** [cmp_merge]: [mask] tells which lanes keep the larger key. *)
Definition cmp_merge (partner : nat -> nat) (mask : nat -> bool) (reg : list lane)
  : list lane :=
  map (fun i =>
         let in1 := nth i reg unused in
         let in2 := nth (partner i) reg unused in
         let key := if mask i then Z.max (fst in1) (fst in2) else Z.min (fst in1) (fst in2) in
         (key, if key =? fst in1 then snd in1 else snd in2))
      (seq 0 numlanes).

(** Lanes exchanged with their neighbour (0 with 1, 2 with 3), and the
    register end for end (0 with 3, 1 with 2). *)
Definition neighbour (i : nat) : nat := if Nat.even i then S i else Nat.pred i.

Definition reverse (i : nat) : nat := (3 - i)%nat.

(** The masks 0xAA (lanes 1 and 3) and 0xCC (lanes 2 and 3). *)
Definition oxAA (i : nat) : bool := Nat.odd i.

Definition oxCC (i : nat) : bool := (2 <=? i)%nat.

Definition sort_reg (reg : list lane) : list lane :=
  let reg := cmp_merge neighbour oxAA reg in
  let reg := cmp_merge reverse oxCC reg in
  cmp_merge neighbour oxAA reg.

Definition argsort (keys : list Z) : option (list nat) :=
  let arrsize := List.length keys in
  if (arrsize <=? numlanes)%nat
  then Some (map (fun l => Z.to_nat (snd l))
                 (firstn arrsize (sort_reg (load keys (seq 0 arrsize)))))
  else None.

End VectorSort.

(* ================================================================= *)
(** ** The rest of [main]: year options and axis range *)

(** A nullable cell as a label: [unique] keeps one entry for the missing
    cell, and sorting puts it last. *)
Definition option_eqb {A : Type} `{Key A} (a b : option A) : bool :=
  match a, b with
  | Some x, Some y => key_eqb x y
  | None, None => true
  | _, _ => false
  end.

Definition option_leb {A : Type} `{Key A} (a b : option A) : bool :=
  match a, b with
  | _, None => true
  | None, Some _ => false
  | Some x, Some y => key_leb x y
  end.

#[export, refine] Instance Key_option {A : Type} `{Key A} : Key (option A) := {
  key_eqb := option_eqb;
  key_leb := option_leb
}.
Proof.
  intros [a|] [b|]; simpl; try (split; [discriminate | intros [=]]).
  - rewrite key_eqb_eq. split; [intros ->; reflexivity | intros [= ->]; reflexivity].
  - split; reflexivity.
Defined.

(** Line 147: the options of the year select box. *)
Definition years (data : DataFrame) : list (option Z) :=
  unique (map Year data).

(** [Series.max()] of an integer column; NaN ([None]) when it has no cell. *)
Definition series_max (col : list Z) : option Z :=
  match col with
  | [] => None
  | x :: col' => Some (fold_left Z.max col' x)
  end.

(** Line 121: [range_y] of the adoption chart; the factor is the binary64
    number that Python reads [1.1] as. *)
Definition adoption_range_y (expanded_adoption_data : list Frame.row) : float * float :=
  (0%float,
   PrimFloat.mul
     (float_of_cell (series_max (map Frame.Cumulative_Count expanded_adoption_data)))
     0x1.199999999999ap+0%float).

(** The laws of a label order. *)
Class KeyOrder (K : Type) `{Key K} : Prop := {
  key_leb_total : forall a b : K, key_leb a b = true \/ key_leb b a = true;
  key_leb_trans : forall a b c : K, key_leb a b = true -> key_leb b c = true -> key_leb a c = true;
  key_leb_antisym : forall a b : K, key_leb a b = true -> key_leb b a = true -> a = b
}.

(** One label strictly before another. *)
Definition key_lt {K : Type} `{Key K} (a b : K) : Prop :=
  key_leb a b = true /\ a <> b.

(** (Year, category) labels in dictionary order. *)
Definition label_lt (a b : Z * string) : Prop :=
  fst a < fst b \/ (fst a = fst b /\ String.ltb (snd a) (snd b) = true).

(** How many rows of the table have adoption year [y], and how many have an
    adoption year up to [y]. *)
Definition adopted_in (data : DataFrame) (y : Z) : Z :=
  Z.of_nat (count_occ Z.eq_dec (dropna (map Adoption_Year data)) y).

Definition adopted_by (data : DataFrame) (y : Z) : Z :=
  Z.of_nat (List.length (filter (fun v => v <=? y) (dropna (map Adoption_Year data)))).

(** A row for the examples of the extras. *)
Definition argentina_2015 : Row :=
  mkRow (Some 2015) (Some "Argentina"%string) (Some "Hydro"%string) 80%float 9%float
        (Some "High"%string) (Some 2) (Some "Rural"%string) (Some 2011).

(** The sum of an integer column. *)
Definition sumZ (l : list Z) : Z := fold_right Z.add 0 l.

(** One year option strictly before another: ascending, the missing year
    last. *)
Definition year_lt (a b : option Z) : Prop := key_le true a b /\ a <> b.

(* ----------------------------------------------------------------- *)
(** *** The label of the colour bar (line 171)

    [str.replace] for a pattern of one character and [str.title], as they act
    on ASCII text: a letter after a letter is lowered, any other letter is
    raised. *)

Definition is_upper (c : ascii) : bool :=
  (65 <=? nat_of_ascii c)%nat && (nat_of_ascii c <=? 90)%nat.

Definition is_lower (c : ascii) : bool :=
  (97 <=? nat_of_ascii c)%nat && (nat_of_ascii c <=? 122)%nat.

Definition is_cased (c : ascii) : bool := is_upper c || is_lower c.

Definition to_lower (c : ascii) : ascii :=
  if is_upper c then ascii_of_nat (nat_of_ascii c + 32) else c.

Definition to_upper (c : ascii) : ascii :=
  if is_lower c then ascii_of_nat (nat_of_ascii c - 32) else c.

Fixpoint replace_char (old new : ascii) (s : string) : string :=
  match s with
  | EmptyString => EmptyString
  | String c s' => String (if Ascii.eqb c old then new else c) (replace_char old new s')
  end.

Fixpoint title_from (previous_is_cased : bool) (s : string) : string :=
  match s with
  | EmptyString => EmptyString
  | String c s' =>
      String (if previous_is_cased then to_lower c else to_upper c)
             (title_from (is_cased c) s')
  end.

Definition title (s : string) : string := title_from false s.

(** [selected_variable.replace('_', ' ').title()] *)
Definition colour_label (selected_variable : VariableName) : string :=
  title (replace_char "_" " " (column_name selected_variable)).

(** Text in which no letter after a letter is a capital and no other letter is
    a small one. *)
Fixpoint titlecased_from (previous_is_cased : bool) (s : string) : Prop :=
  match s with
  | EmptyString => True
  | String c s' =>
      (if previous_is_cased then is_upper c = false else is_lower c = false)
      /\ titlecased_from (is_cased c) s'
  end.

(** [Series.max()] of a float column ([skipna=True]): the largest non-missing
    cell, NaN when there is none.  Of cells that compare equal (0.0 and -0.0)
    the scan keeps the later one. *)
Definition float_series_max (col : list float) : float :=
  match filter notna col with
  | [] => nan
  | x :: rest => fold_left (fun acc v => if PrimFloat.leb acc v then v else acc) rest x
  end.

(** Lines 43 and 71: [range_y] of the usage and the savings chart, from the
    table of means. *)
Definition range_y {K : Type} (table : list (K * float)) : float * float :=
  (0%float, PrimFloat.mul (float_series_max (map snd table)) 0x1.199999999999ap+0%float).

(* ================================================================= *)
(** ** Rows for the examples *)

Definition brazil_2015 (usage : float) : Row :=
  mkRow (Some 2015) (Some "Brazil"%string) (Some "Solar"%string) usage 12%float
        (Some "Low"%string) (Some 4) (Some "Urban"%string) (Some 2010).

Definition india_2015 (urban_rural : option string) : Row :=
  mkRow (Some 2015) (Some "India"%string) (Some "Wind"%string) 350%float 40%float
        (Some "Middle"%string) (Some 5) urban_rural (Some 2012).

Definition adopter (adoption_year : option Z) : Row :=
  mkRow (Some 2015) (Some "Brazil"%string) (Some "Solar"%string) 100%float 12%float
        (Some "Low"%string) (Some 4) (Some "Urban"%string) adoption_year.

(** Eighteen households observed in the same year, told apart by their
    size. *)
Definition household (size : Z) : Row :=
  mkRow (Some 2015) (Some "Brazil"%string) (Some "Solar"%string) 100%float 12%float
        (Some "Low"%string) (Some size) (Some "Urban"%string) (Some 2010).

Definition brazil_2016 (usage : float) : Row :=
  mkRow (Some 2016) (Some "Brazil"%string) (Some "Solar"%string) usage 30%float
        (Some "High"%string) (Some 6) (Some "Rural"%string) (Some 2011).

Definition india_2016 : Row :=
  mkRow (Some 2016) (Some "India"%string) (Some "Wind"%string) 400%float 45%float
        (Some "High"%string) (Some 3) (Some "Rural"%string) (Some 2013).

(** A household of Brazil in 2015 whose size is not recorded. *)
Definition unsized : Row :=
  mkRow (Some 2015) (Some "Brazil"%string) (Some "Solar"%string) 100%float 12%float
        (Some "Low"%string) None (Some "Urban"%string) (Some 2010).

(** A middle income household of 2015 whose saving is not recorded. *)
Definition missing_savings : Row :=
  mkRow (Some 2015) (Some "India"%string) (Some "Wind"%string) 350%float nan
        (Some "Middle"%string) (Some 5) (Some "Urban"%string) (Some 2012).

(** A household observed in a given year (or without one), told apart by its
    size. *)
Definition observed (year : option Z) (size : Z) : Row :=
  mkRow year (Some "Brazil"%string) (Some "Solar"%string) 100%float 12%float
        (Some "Low"%string) (Some size) (Some "Urban"%string) (Some 2010).

Definition four_households : DataFrame :=
  [observed (Some 2016) 1; observed (Some 2016) 2;
   observed (Some 2015) 3; observed (Some 2015) 4].

Definition eighteen_households : DataFrame :=
  map household [1; 2; 3; 4; 5; 6; 7; 8; 9; 10; 11; 12; 13; 14; 15; 16; 17; 18].

(* ================================================================= *)
(** ** Insertion sort *)

Lemma insert_perm {A : Type} (leb : A -> A -> bool) (x : A) (l : list A) :
  Permutation (x :: l) (insert leb x l).
Proof.
  induction l as [|y l IH]; simpl.
  - apply Permutation_refl.
  - destruct (leb x y).
    + apply Permutation_refl.
    + eapply perm_trans; [apply perm_swap|]. apply perm_skip, IH.
Qed.

Lemma isort_perm {A : Type} (leb : A -> A -> bool) (l : list A) :
  Permutation l (isort leb l).
Proof.
  induction l as [|x l IH]; simpl.
  - constructor.
  - eapply perm_trans; [apply perm_skip, IH | apply insert_perm].
Qed.

Lemma isort_In {A : Type} (leb : A -> A -> bool) (l : list A) (x : A) :
  In x (isort leb l) <-> In x l.
Proof.
  split; apply Permutation_in;
    [apply Permutation_sym|]; apply isort_perm.
Qed.

Section Insertion_order.
Variable A : Type.
Variable leb : A -> A -> bool.
Hypothesis leb_total : forall a b, leb a b = true \/ leb b a = true.
Hypothesis leb_trans : forall a b c, leb a b = true -> leb b c = true -> leb a c = true.

Let le (a b : A) : Prop := leb a b = true.

Lemma insert_sorted (x : A) (l : list A) :
  StronglySorted le l -> StronglySorted le (insert leb x l).
Proof.
  induction 1 as [|y l Hs IH Hall]; simpl.
  - repeat constructor.
  - destruct (leb x y) eqn:E.
    + constructor; [constructor; assumption|].
      constructor; [exact E|].
      eapply Forall_impl; [|exact Hall].
      intros z Hz. exact (leb_trans _ _ _ E Hz).
    + constructor; [exact IH|].
      apply (Permutation_Forall (insert_perm leb x l)).
      constructor; [|exact Hall].
      destruct (leb_total x y) as [C|C]; [congruence | exact C].
Qed.

Lemma isort_sorted (l : list A) : StronglySorted le (isort leb l).
Proof.
  induction l as [|x l IH]; simpl; [constructor | apply insert_sorted, IH].
Qed.

End Insertion_order.

(* ================================================================= *)
(** ** Grouping *)

Section Grouping_facts.
Context {K : Type} `{Key K} {V : Type}.

Lemma key_eqb_refl (k : K) : key_eqb k k = true.
Proof. apply key_eqb_eq. reflexivity. Qed.

Lemma key_eqb_neq (a b : K) : a <> b -> key_eqb a b = false.
Proof.
  intros N. destruct (key_eqb a b) eqn:E; [|reflexivity].
  apply key_eqb_eq in E. contradiction.
Qed.

Lemma find_group_add_same (k : K) (v : V) (groups : list (K * list V)) :
  find_group k (group_add k v groups)
  = Some (match find_group k groups with Some vs => vs ++ [v] | None => [v] end).
Proof.
  induction groups as [|[k' vs] rest IH]; simpl.
  - rewrite key_eqb_refl. reflexivity.
  - destruct (key_eqb k k') eqn:E; simpl; rewrite E; [reflexivity | exact IH].
Qed.

Lemma find_group_add_other (k k0 : K) (v : V) (groups : list (K * list V)) :
  k <> k0 -> find_group k (group_add k0 v groups) = find_group k groups.
Proof.
  intros N. induction groups as [|[k' vs] rest IH]; simpl.
  - rewrite (key_eqb_neq _ _ N). reflexivity.
  - destruct (key_eqb k0 k') eqn:E; simpl.
    + apply key_eqb_eq in E. subst k'. rewrite (key_eqb_neq _ _ N). reflexivity.
    + rewrite IH. reflexivity.
Qed.

Lemma group_add_labels (k0 : K) (v : V) (groups : list (K * list V)) (k : K) :
  In k (map fst (group_add k0 v groups)) <-> k = k0 \/ In k (map fst groups).
Proof.
  induction groups as [|[k' vs] rest IH]; simpl.
  - intuition.
  - destruct (key_eqb k0 k') eqn:E; simpl.
    + apply key_eqb_eq in E. subst k'. intuition.
    + rewrite IH. intuition.
Qed.

Lemma group_add_NoDup (k0 : K) (v : V) (groups : list (K * list V)) :
  NoDup (map fst groups) -> NoDup (map fst (group_add k0 v groups)).
Proof.
  induction groups as [|[k' vs] rest IH]; simpl; intros ND.
  - constructor; [intros []|constructor].
  - destruct (key_eqb k0 k') eqn:E; simpl; [exact ND|].
    inversion ND as [|? ? Hnin ND']; subst.
    constructor; [|apply IH, ND'].
    rewrite group_add_labels. intros [->|Hin]; [|contradiction].
    rewrite key_eqb_refl in E. discriminate.
Qed.

Lemma find_group_In (groups : list (K * list V)) (k : K) (g : list V) :
  NoDup (map fst groups) ->
  (In (k, g) groups <-> find_group k groups = Some g).
Proof.
  induction groups as [|[k' vs] rest IH]; simpl; intros ND.
  - split; [intros [] | discriminate].
  - inversion ND as [|? ? Hnin ND']; subst.
    destruct (key_eqb k k') eqn:E.
    + apply key_eqb_eq in E. subst k'. split.
      * intros [[= ->]|Hin]; [reflexivity|].
        exfalso. apply Hnin. apply (in_map fst) in Hin. exact Hin.
      * intros [= ->]. left. reflexivity.
    + rewrite <- (IH ND'). split.
      * intros [[= -> ->]|Hin]; [|exact Hin].
        rewrite key_eqb_refl in E. discriminate.
      * intros Hin. right. exact Hin.
Qed.

Variable label : V -> option K.

Lemma factorize_snoc (rows : list V) (r : V) :
  factorize label (rows ++ [r])
  = match label r with
    | Some k => group_add k r (factorize label rows)
    | None => factorize label rows
    end.
Proof. unfold factorize. rewrite fold_left_app. reflexivity. Qed.

Lemma rows_of_snoc (k : K) (rows : list V) (r : V) :
  rows_of label k (rows ++ [r])
  = rows_of label k rows ++ (if has_label label k r then [r] else []).
Proof. unfold rows_of. rewrite filter_app. reflexivity. Qed.

Lemma factorize_invariant (rows : list V) :
  NoDup (map fst (factorize label rows))
  /\ forall k, find_group k (factorize label rows) = some_if_rows (rows_of label k rows).
Proof.
  induction rows as [|r rows [ND IH]] using rev_ind.
  - split; [constructor | reflexivity].
  - rewrite factorize_snoc. destruct (label r) as [k0|] eqn:L.
    + split; [apply group_add_NoDup, ND|].
      intros k. rewrite rows_of_snoc. unfold has_label. rewrite L.
      destruct (key_eqb k0 k) eqn:E.
      * apply key_eqb_eq in E. subst k0.
        rewrite find_group_add_same, IH.
        destruct (rows_of label k rows); reflexivity.
      * rewrite find_group_add_other, IH, app_nil_r; [reflexivity|].
        intros ->. rewrite key_eqb_refl in E. discriminate.
    + split; [exact ND|].
      intros k. rewrite rows_of_snoc. unfold has_label. rewrite L, app_nil_r.
      apply IH.
Qed.

(** The groups are the non-empty row selections, one per label. *)
Lemma factorize_In (rows : list V) (k : K) (g : list V) :
  In (k, g) (factorize label rows) <-> g = rows_of label k rows /\ g <> [].
Proof.
  destruct (factorize_invariant rows) as [ND F].
  rewrite (find_group_In _ _ _ ND), F.
  destruct (rows_of label k rows) as [|r l]; simpl; split.
  - discriminate.
  - intros [-> N]. contradiction.
  - intros [= <-]. split; [reflexivity | discriminate].
  - intros [-> _]. reflexivity.
Qed.

Lemma groupby_In (rows : list V) (k : K) (g : list V) :
  In (k, g) (groupby label rows) <-> g = rows_of label k rows /\ g <> [].
Proof. unfold groupby. rewrite isort_In. apply factorize_In. Qed.

Lemma groupby_NoDup (rows : list V) : NoDup (map fst (groupby label rows)).
Proof.
  unfold groupby.
  eapply Permutation_NoDup.
  - apply Permutation_map, isort_perm.
  - apply factorize_invariant.
Qed.

(** A label has a group exactly when some row carries it. *)
Lemma rows_of_nonempty (rows : list V) (k : K) :
  rows_of label k rows <> [] <-> exists r, In r rows /\ label r = Some k.
Proof.
  unfold rows_of. split.
  - intros N. destruct (filter _ rows) as [|r l] eqn:E; [contradiction|].
    assert (Hin : In r (filter (has_label label k) rows)) by (rewrite E; left; reflexivity).
    apply filter_In in Hin. destruct Hin as [Hin Hl].
    exists r. split; [exact Hin|].
    unfold has_label in Hl. destruct (label r) as [k'|]; [|discriminate].
    apply key_eqb_eq in Hl. subst. reflexivity.
  - intros (r & Hin & L) E.
    assert (Hf : In r (filter (has_label label k) rows)).
    { apply filter_In. split; [exact Hin|].
      unfold has_label. rewrite L. apply key_eqb_refl. }
    rewrite E in Hf. exact Hf.
Qed.

End Grouping_facts.

(* ================================================================= *)
(** ** Columns without their missing cells *)

Lemma dropna_In {A : Type} (col : list (option A)) (a : A) :
  In a (dropna col) <-> In (Some a) col.
Proof.
  induction col as [|[b|] col IH]; simpl.
  - tauto.
  - rewrite IH. split; intros [E|Hin]; auto; left; congruence.
  - rewrite IH. split; [auto | intros [E|Hin]; [discriminate | exact Hin]].
Qed.

Lemma dropna_nil {A : Type} (col : list (option A)) :
  dropna col = [] <-> forall c, In c col -> c = None.
Proof.
  induction col as [|[a|] col IH]; simpl.
  - split; [intros _ c [] | reflexivity].
  - split; [discriminate|]. intros Hall.
    discriminate (Hall (Some a) (or_introl eq_refl)).
  - rewrite IH. split.
    + intros Hall c [<-|Hin]; [reflexivity | apply Hall, Hin].
    + intros Hall c Hin. apply Hall. right. exact Hin.
Qed.

(* ================================================================= *)
(** ** The mean of a group *)

Lemma group_mean_pass (values : list float) (s c : float) (n : Z) :
  fold_left
    (fun (acc : float * float * Z) val =>
       let '(sumx, compensation, nobs) := acc in
       if notna val
       then
         let y := PrimFloat.sub val compensation in
         let t := PrimFloat.add sumx y in
         let c := PrimFloat.sub (PrimFloat.sub t sumx) y in
         (t, if is_nan c then 0%float else c, nobs + 1)
       else acc)
    values (s, c, n)
  = (fold_left compensated_step (filter notna values) (s, c),
     n + Z.of_nat (List.length (filter notna values))).
Proof.
  revert s c n. induction values as [|v values IH]; intros s c n; simpl.
  - rewrite Z.add_0_r. reflexivity.
  - destruct (notna v); simpl.
    + rewrite IH. unfold compensated_step at 2. simpl. f_equal. lia.
    + apply IH.
Qed.

(** The one-pass mean is the arithmetic mean of the observed values; with no
    observed value both are NaN. *)
Lemma group_mean_skipna (values : list float) :
  group_mean values = arithmetic_mean (filter notna values).
Proof.
  unfold group_mean, arithmetic_mean, compensated_sum. rewrite group_mean_pass.
  destruct (fold_left compensated_step (filter notna values) (0%float, 0%float))
    as [sumx compensation] eqn:E.
  simpl.
  destruct (filter notna values) as [|v obs]; [simpl in E; injection E as <- <-; reflexivity|].
  replace (Z.of_nat (List.length (v :: obs)) =? 0) with false; [reflexivity|].
  symmetry. apply Z.eqb_neq. simpl List.length. lia.
Qed.

Lemma filter_all {A : Type} (p : A -> bool) (l : list A) :
  forallb p l = true -> filter p l = l.
Proof.
  induction l as [|a l IH]; simpl; [reflexivity|].
  intros Hall. apply andb_true_iff in Hall. destruct Hall as [Ha Hl].
  rewrite Ha, (IH Hl). reflexivity.
Qed.

Section Groupby_mean_facts.
Context {K : Type} `{Key K}.
Variable label : Row -> option K.
Variable column : Row -> float.

Lemma groupby_mean_In (df : DataFrame) (k : K) (x : float) :
  In (k, x) (groupby_mean label column df)
  <-> (exists r, In r df /\ label r = Some k)
      /\ x = arithmetic_mean (filter notna (map column (rows_of label k df))).
Proof.
  unfold groupby_mean. rewrite in_map_iff. split.
  - intros ([k' g] & E & Hin). simpl in E. injection E as -> <-.
    apply groupby_In in Hin. destruct Hin as [-> N].
    split; [apply rows_of_nonempty, N | apply group_mean_skipna].
  - intros [P ->]. exists (k, rows_of label k df). split.
    + simpl. rewrite group_mean_skipna. reflexivity.
    + apply groupby_In. split; [reflexivity | apply rows_of_nonempty, P].
Qed.

Lemma groupby_mean_NoDup (df : DataFrame) :
  NoDup (map fst (groupby_mean label column df)).
Proof.
  unfold groupby_mean. rewrite map_map. simpl.
  apply (groupby_NoDup label df).
Qed.

End Groupby_mean_facts.

(** A row of the selected year. *)
Lemma year_is_true (selected_year : option Z) (r : Row) :
  year_is selected_year r = true
  <-> exists y, Year r = Some y /\ selected_year = Some y.
Proof.
  unfold year_is. destruct (Year r) as [y|], selected_year as [s|]; split;
    try discriminate; try (intros (y' & E1 & E2); discriminate).
  - intros E. apply Z.eqb_eq in E. subst. exists s. split; reflexivity.
  - intros (y' & [= ->] & [= ->]). apply Z.eqb_refl.
Qed.

Lemma map_fst_pair {A B C : Type} (f : B -> C) (l : list (A * B)) :
  map fst (map (fun c => (fst c, f (snd c))) l) = map fst l.
Proof. rewrite map_map. reflexivity. Qed.

Lemma In_map_pair {A B C : Type} (f : B -> C) (l : list (A * B)) (a : A) (c : C) :
  In (a, c) (map (fun p => (fst p, f (snd p))) l) <-> exists b, c = f b /\ In (a, b) l.
Proof.
  rewrite in_map_iff. split.
  - intros ([a' b] & E & Hin). simpl in E. injection E as -> <-.
    exists b. split; [reflexivity | exact Hin].
  - intros (b & -> & Hin). exists (a, b). split; [reflexivity | exact Hin].
Qed.

(* ================================================================= *)
(** ** Usage by energy source (line 38) and savings by income level (line 66) *)

Lemma both_Some {A B : Type} (a : option A) (b : option B) (x : A) (y : B) :
  both a b = Some (x, y) <-> a = Some x /\ b = Some y.
Proof.
  unfold both. destruct a, b; split;
    try discriminate; try (intros [E1 E2]; discriminate).
  - intros [= -> ->]. split; reflexivity.
  - intros [[= ->] [= ->]]. reflexivity.
Qed.

Lemma avg_usage_In (data : DataFrame) (y : Z) (e : string) (x : float) :
  In (y, e, x) (avg_usage data)
  <-> (exists r, In r data /\ Year r = Some y /\ Energy_Source r = Some e)
      /\ x = arithmetic_mean
               (filter notna
                  (map Monthly_Usage_kWh
                     (rows_of (fun r => both (Year r) (Energy_Source r)) (y, e) data))).
Proof.
  unfold avg_usage. rewrite groupby_mean_In.
  split; intros [(r & Hin & Hl) Hx]; (split; [|exact Hx]);
    exists r; (split; [exact Hin|]); apply both_Some; exact Hl.
Qed.

Lemma avg_savings_In (data : DataFrame) (y : Z) (i : string) (x : float) :
  In (y, i, x) (avg_savings data)
  <-> (exists r, In r data /\ Year r = Some y /\ Income_Level r = Some i)
      /\ x = arithmetic_mean
               (filter notna
                  (map Cost_Savings_USD
                     (rows_of (fun r => both (Year r) (Income_Level r)) (y, i) data))).
Proof.
  unfold avg_savings. rewrite groupby_mean_In.
  split; intros [(r & Hin & Hl) Hx]; (split; [|exact Hx]);
    exists r; (split; [exact Hin|]); apply both_Some; exact Hl.
Qed.

(** The rows of one label pair, written out. *)
Lemma rows_of_pair {B : Type} `{Key B} (column : Row -> option B) (y : Z) (b : B)
  (data : DataFrame) :
  rows_of (fun r => both (Year r) (column r)) (y, b) data
  = filter (fun r => match Year r, column r with
                     | Some y', Some b' => (y' =? y) && key_eqb b' b
                     | _, _ => false
                     end) data.
Proof.
  unfold rows_of. apply filter_ext. intros r. unfold has_label, both.
  destruct (Year r), (column r); reflexivity.
Qed.

(** C6. [avg_usage] groups the rows by (Year, Energy_Source): the output has
    one row per pair, a pair has a row exactly when some input row carries it,
    and the value of that row is the arithmetic mean of the non-missing
    Monthly_Usage_kWh cells of the rows of the pair, as binary64 arithmetic
    gives it.  A pair that no input row carries has no output row. *)
Theorem avg_usage_mean_per_present_pair (data : DataFrame) :
  NoDup (map fst (avg_usage data))
  /\ (forall (y : Z) (e : string) (x : float),
        In (y, e, x) (avg_usage data)
        <-> (exists r, In r data /\ Year r = Some y /\ Energy_Source r = Some e)
            /\ x = arithmetic_mean
                     (filter notna
                        (map Monthly_Usage_kWh
                           (filter (fun r => match Year r, Energy_Source r with
                                             | Some y', Some e' => (y' =? y) && String.eqb e' e
                                             | _, _ => false
                                             end) data))))
  /\ (forall (y : Z) (e : string),
        (forall r, In r data -> ~ (Year r = Some y /\ Energy_Source r = Some e)) ->
        forall x, ~ In (y, e, x) (avg_usage data)).
Proof.
  split; [apply groupby_mean_NoDup|]. split.
  - intros y e x. rewrite avg_usage_In, (rows_of_pair Energy_Source). reflexivity.
  - intros y e Habs x Hin. apply avg_usage_In in Hin.
    destruct Hin as [(r & Hr & Hy & He) _].
    apply (Habs r Hr). split; assumption.
Qed.

(** Solar in 2015 at 100 and 200 kWh and once without a reading, solar in
    2016 at 999, hydro in 2015 at 80: the mean of solar in 2015 is 150, the
    missing reading and the other year left aside; wind has no row.  The
    readings 0.1, 0.2 and 0.3 (the binary64 numbers nearest to them) have the
    mean 0.19999999999999998: the rounding error of the first addition is
    carried into the second. *)
Lemma avg_usage_mean_per_present_pair_witness :
  In (2015, "Solar"%string, 150%float)
     (avg_usage [brazil_2015 100; brazil_2015 nan; brazil_2016 999; argentina_2015;
                 brazil_2015 200])
  /\ In (2015, "Hydro"%string, 80%float)
        (avg_usage [brazil_2015 100; brazil_2015 nan; brazil_2016 999; argentina_2015;
                    brazil_2015 200])
  /\ (forall x, ~ In (2015, "Wind"%string, x)
                     (avg_usage [brazil_2015 100; brazil_2015 nan; brazil_2016 999;
                                 argentina_2015; brazil_2015 200]))
  /\ In (2015, "Solar"%string, 0x1.9999999999999p-3%float)
        (avg_usage [brazil_2015 0x1.999999999999ap-4; brazil_2015 0x1.999999999999ap-3;
                    brazil_2015 0x1.3333333333333p-2]).
Proof.
  destruct (avg_usage_mean_per_present_pair
              [brazil_2015 100; brazil_2015 nan; brazil_2016 999; argentina_2015;
               brazil_2015 200]) as (_ & Rows & Absent).
  split; [|split; [|split]]; cycle 3.
  { apply (proj1 (proj2 (avg_usage_mean_per_present_pair
                           [brazil_2015 0x1.999999999999ap-4; brazil_2015 0x1.999999999999ap-3;
                            brazil_2015 0x1.3333333333333p-2]))).
    split; [|vm_compute; reflexivity].
    exists (brazil_2015 0x1.999999999999ap-4). repeat split. left. reflexivity. }
  - apply Rows. split; [|vm_compute; reflexivity].
    exists (brazil_2015 100). repeat split. left. reflexivity.
  - apply Rows. split; [|vm_compute; reflexivity].
    exists argentina_2015. repeat split. right. right. right. left. reflexivity.
  - apply Absent. intros r Hin [_ He].
    simpl in Hin. destruct Hin as [<-|[<-|[<-|[<-|[<-|[]]]]]]; discriminate.
Defined.

(* ================================================================= *)
(** ** The map view, numeric variable (lines 155 to 160) *)

Lemma country_cells_nonempty {C : Type} (column : Row -> C) (data : DataFrame)
  (selected_year : option Z) (c : string) :
  country_cells column data selected_year c <> []
  <-> exists r, In r data /\ year_is selected_year r = true /\ Country r = Some c.
Proof.
  unfold country_cells. split.
  - intros N.
    assert (N' : rows_of Country c (filter (year_is selected_year) data) <> []).
    { intros E. apply N. rewrite E. reflexivity. }
    apply rows_of_nonempty in N'. destruct N' as (r & Hin & Hc).
    apply filter_In in Hin. destruct Hin as [Hin Hy].
    exists r. repeat split; assumption.
  - intros (r & Hin & Hy & Hc) E. apply map_eq_nil in E. revert E.
    apply rows_of_nonempty. exists r. split; [|exact Hc].
    apply filter_In. split; assumption.
Qed.

Lemma map_view_numeric (data : DataFrame) (selected_year : option Z) (v : Var.numeric) :
  map_view data selected_year (inl v)
  = Ok (("Average " ++ column_name (inl v) ++ " by Country")%string,
        map (fun c => (fst c, Num (snd c)))
            (groupby_mean Country (numeric_column v) (filter (year_is selected_year) data))).
Proof. reflexivity. Qed.

Lemma map_view_numeric_In (data : DataFrame) (selected_year : option Z) (v : Var.numeric)
  (c : string) (cell : Cell) :
  In (c, cell)
     (map (fun c => (fst c, Num (snd c)))
          (groupby_mean Country (numeric_column v) (filter (year_is selected_year) data)))
  <-> (exists r, In r data /\ year_is selected_year r = true /\ Country r = Some c)
      /\ cell = Num (arithmetic_mean
                       (filter notna (country_cells (numeric_column v) data selected_year c))).
Proof.
  rewrite In_map_pair. unfold country_cells. split.
  - intros (x & -> & Hin). apply groupby_mean_In in Hin.
    destruct Hin as [(r & Hr & Hc) ->]. split; [|reflexivity].
    apply filter_In in Hr. destruct Hr as [Hr Hy].
    exists r. repeat split; assumption.
  - intros [(r & Hr & Hy & Hc) ->]. eexists. split; [reflexivity|].
    apply groupby_mean_In. split; [|reflexivity].
    exists r. split; [|exact Hc]. apply filter_In. split; assumption.
Qed.

(** The rows and cells of the map view, written out on the columns of the
    table. *)
Lemma filter_filter {A : Type} (p q : A -> bool) (l : list A) :
  filter p (filter q l) = filter (fun x => q x && p x) l.
Proof.
  induction l as [|a l IH]; simpl; [reflexivity|].
  destruct (q a); simpl; [destruct (p a); rewrite IH; reflexivity | exact IH].
Qed.

Lemma country_cells_rows {C : Type} (column : Row -> C) (data : DataFrame)
  (selected_year : option Z) (c : string) :
  country_cells column data selected_year c
  = map column
        (filter (fun r => match Year r, selected_year, Country r with
                          | Some y, Some s, Some c' => (y =? s) && String.eqb c' c
                          | _, _, _ => false
                          end) data).
Proof.
  unfold country_cells, rows_of. rewrite filter_filter. f_equal.
  apply filter_ext. intros r. unfold year_is, has_label.
  destruct (Year r), selected_year, (Country r); simpl;
    rewrite ?andb_false_r; reflexivity.
Qed.

Lemma selected_country (data : DataFrame) (selected_year : option Z) (c : string) :
  (exists r, In r data /\ year_is selected_year r = true /\ Country r = Some c)
  <-> exists r y, In r data /\ selected_year = Some y /\ Year r = Some y /\ Country r = Some c.
Proof.
  split.
  - intros (r & Hin & Hy & Hc). apply year_is_true in Hy. destruct Hy as (y & Hy & Hs).
    exists r, y. repeat split; assumption.
  - intros (r & y & Hin & Hs & Hy & Hc). exists r. repeat split; try assumption.
    apply year_is_true. exists y. split; assumption.
Qed.

Lemma numeric_column_cases (v : Var.numeric) :
  numeric_column v
  = match v with
    | Var.Monthly_Usage_kWh => Monthly_Usage_kWh
    | Var.Cost_Savings_USD => Cost_Savings_USD
    | Var.Household_Size => fun r => float_of_cell (Household_Size r)
    end.
Proof. destruct v; reflexivity. Qed.

(** C4. For a numeric variable the map view never raises; its table has one
    row per country, a country has a row exactly when a row of the selected
    year carries it, and the value is the arithmetic mean, as binary64
    arithmetic gives it, of the selected variable over the rows of that year
    and country (over the non-missing cells, which are all cells when none is
    missing).  With Year 2015 and the Brazil cells 100, 200, 300 of
    Monthly_Usage_kWh, the row of Brazil holds exactly 200.0. *)
Theorem map_view_numeric_is_mean_per_country
  (data : DataFrame) (selected_year : option Z) (v : Var.numeric) :
  exists country_avg,
    map_view data selected_year (inl v)
    = Ok (match v with
          | Var.Monthly_Usage_kWh => "Average Monthly_Usage_kWh by Country"
          | Var.Cost_Savings_USD => "Average Cost_Savings_USD by Country"
          | Var.Household_Size => "Average Household_Size by Country"
          end%string,
          country_avg)
    /\ NoDup (map fst country_avg)
    /\ (forall c cell,
          In (c, cell) country_avg
          <-> (exists r y,
                  In r data /\ selected_year = Some y /\ Year r = Some y /\ Country r = Some c)
              /\ cell
                 = Num (arithmetic_mean
                          (filter notna
                             (map (match v with
                                   | Var.Monthly_Usage_kWh => Monthly_Usage_kWh
                                   | Var.Cost_Savings_USD => Cost_Savings_USD
                                   | Var.Household_Size =>
                                       fun r => float_of_cell (Household_Size r)
                                   end)
                                  (filter (fun r => match Year r, selected_year, Country r with
                                                    | Some y, Some s, Some c' =>
                                                        (y =? s) && String.eqb c' c
                                                    | _, _, _ => false
                                                    end) data)))))
    /\ (v = Var.Monthly_Usage_kWh ->
        selected_year = Some 2015 ->
        map Monthly_Usage_kWh
            (filter (fun r => match Year r, Country r with
                              | Some y, Some c' => (y =? 2015) && String.eqb c' "Brazil"
                              | _, _ => false
                              end) data)
        = [100%float; 200%float; 300%float] ->
        In ("Brazil"%string, Num 200%float) country_avg
        /\ forall cell, In ("Brazil"%string, cell) country_avg -> cell = Num 200%float).
Proof.
  eexists. split; [rewrite map_view_numeric; destruct v; reflexivity|].
  split; [rewrite map_fst_pair; apply groupby_mean_NoDup|].
  assert (Rows : forall c cell,
             In (c, cell)
                (map (fun c => (fst c, Num (snd c)))
                     (groupby_mean Country (numeric_column v)
                                   (filter (year_is selected_year) data)))
             <-> (exists r y,
                     In r data /\ selected_year = Some y /\ Year r = Some y
                     /\ Country r = Some c)
                 /\ cell
                    = Num (arithmetic_mean
                             (filter notna
                                (map (numeric_column v)
                                     (filter (fun r => match Year r, selected_year, Country r with
                                                       | Some y, Some s, Some c' =>
                                                           (y =? s) && String.eqb c' c
                                                       | _, _, _ => false
                                                       end) data))))).
  { intros c cell. rewrite map_view_numeric_In, selected_country, country_cells_rows.
    reflexivity. }
  rewrite numeric_column_cases in Rows.
  split; [exact Rows|].
  intros -> -> Hcells.
  assert (Mean : Num 200%float
                 = Num (arithmetic_mean
                          (filter notna
                             (map Monthly_Usage_kWh
                                  (filter (fun r => match Year r, Some 2015, Country r with
                                                    | Some y, Some s, Some c' =>
                                                        (y =? s) && String.eqb c' "Brazil"
                                                    | _, _, _ => false
                                                    end) data))))).
  { rewrite Hcells. reflexivity. }
  assert (Present : exists r y, In r data /\ Some 2015 = Some y /\ Year r = Some y
                                /\ Country r = Some "Brazil"%string).
  { destruct (filter (fun r => match Year r, Country r with
                               | Some y, Some c' => (y =? 2015) && String.eqb c' "Brazil"
                               | _, _ => false
                               end) data) as [|r rows] eqn:E; [discriminate|].
    assert (Hr : In r (r :: rows)) by (left; reflexivity).
    rewrite <- E in Hr. apply filter_In in Hr. destruct Hr as [Hin Hsel].
    exists r, 2015. split; [exact Hin|]. split; [reflexivity|].
    destruct (Year r) as [y|]; [|discriminate].
    destruct (Country r) as [c'|]; [|discriminate].
    apply andb_true_iff in Hsel. destruct Hsel as [Hy Hc].
    apply Z.eqb_eq in Hy. apply String.eqb_eq in Hc. subst. split; reflexivity. }
  split.
  - apply Rows. split; [exact Present | exact Mean].
  - intros cell Hin. apply Rows in Hin. destruct Hin as [_ ->]. symmetry. exact Mean.
Qed.

(** Brazil in 2015 at 100 and 300 kWh and once without a reading, a household
    of 2016, Argentina in 2015: for the year 2015 Brazil holds 200 and
    Argentina 80 for the usage; household sizes 1 and 5 in Brazil, next to
    one that is not recorded, and 2 in Argentina give 3 and 2.  The household
    of 2016 counts for neither. *)
Lemma map_view_numeric_is_mean_per_country_witness :
  (exists country_avg,
      map_view [brazil_2015 100; brazil_2016 999; brazil_2015 nan; argentina_2015;
                brazil_2015 300] (Some 2015) (inl Var.Monthly_Usage_kWh)
      = Ok ("Average Monthly_Usage_kWh by Country"%string, country_avg)
      /\ In ("Brazil"%string, Num 200%float) country_avg
      /\ In ("Argentina"%string, Num 80%float) country_avg
      /\ List.length country_avg = 2%nat)
  /\ (exists country_avg,
        map_view [observed (Some 2015) 1; brazil_2016 999; unsized; observed (Some 2015) 5;
                  argentina_2015] (Some 2015) (inl Var.Household_Size)
        = Ok ("Average Household_Size by Country"%string, country_avg)
        /\ In ("Brazil"%string, Num 3%float) country_avg
        /\ In ("Argentina"%string, Num 2%float) country_avg)
  /\ (exists country_avg,
        map_view [brazil_2015 100; brazil_2015 200; brazil_2015 300] (Some 2015)
                 (inl Var.Monthly_Usage_kWh)
        = Ok ("Average Monthly_Usage_kWh by Country"%string, country_avg)
        /\ In ("Brazil"%string, Num 200%float) country_avg).
Proof.
  split; [|split].
  - destruct (map_view_numeric_is_mean_per_country
                [brazil_2015 100; brazil_2016 999; brazil_2015 nan; argentina_2015;
                 brazil_2015 300] (Some 2015) Var.Monthly_Usage_kWh)
      as (country_avg & E & _ & Rows & _).
    exists country_avg. split; [exact E|]. split; [|split].
    + apply Rows. split; [|vm_compute; reflexivity].
      exists (brazil_2015 100), 2015. repeat split. left. reflexivity.
    + apply Rows. split; [|vm_compute; reflexivity].
      exists argentina_2015, 2015. repeat split. right. right. right. left. reflexivity.
    + vm_compute in E. injection E as <-. reflexivity.
  - destruct (map_view_numeric_is_mean_per_country
                [observed (Some 2015) 1; brazil_2016 999; unsized; observed (Some 2015) 5;
                 argentina_2015] (Some 2015) Var.Household_Size)
      as (country_avg & E & _ & Rows & _).
    exists country_avg. split; [exact E|]. split.
    + apply Rows. split; [|vm_compute; reflexivity].
      exists (observed (Some 2015) 1), 2015. repeat split. left. reflexivity.
    + apply Rows. split; [|vm_compute; reflexivity].
      exists argentina_2015, 2015. repeat split. do 4 right. left. reflexivity.
  - destruct (map_view_numeric_is_mean_per_country
                [brazil_2015 100; brazil_2015 200; brazil_2015 300] (Some 2015)
                Var.Monthly_Usage_kWh) as (country_avg & E & _ & _ & B).
    exists country_avg. split; [exact E|].
    apply B; reflexivity.
Defined.

(* ================================================================= *)
(** ** The order of text values *)

Lemma ascii_compare_refl (a : ascii) : Ascii.compare a a = Eq.
Proof. unfold Ascii.compare. apply N.compare_refl. Qed.

Lemma string_compare_refl (s : string) : String.compare s s = Eq.
Proof.
  induction s as [|a s IH]; simpl; [reflexivity|].
  rewrite ascii_compare_refl. exact IH.
Qed.

Lemma string_compare_lt_trans (a b c : string) :
  String.compare a b = Lt -> String.compare b c = Lt -> String.compare a c = Lt.
Proof.
  revert b c. induction a as [|x a IH]; intros [|y b] [|z c]; simpl;
    try discriminate; try reflexivity.
  destruct (Ascii.compare x y) eqn:Exy; try discriminate;
    destruct (Ascii.compare y z) eqn:Eyz; try discriminate; intros Hab Hbc.
  - apply Ascii.compare_eq_iff in Exy, Eyz. subst.
    rewrite ascii_compare_refl. exact (IH _ _ Hab Hbc).
  - apply Ascii.compare_eq_iff in Exy. subst. rewrite Eyz. reflexivity.
  - apply Ascii.compare_eq_iff in Eyz. subst. rewrite Exy. reflexivity.
  - unfold Ascii.compare in *. rewrite N.compare_lt_iff in *.
    rewrite (proj2 (N.compare_lt_iff _ _)); [reflexivity|].
    eapply N.lt_trans; eassumption.
Qed.

Lemma string_leb_refl (s : string) : String.leb s s = true.
Proof. unfold String.leb. rewrite string_compare_refl. reflexivity. Qed.

Lemma string_leb_trans (a b c : string) :
  String.leb a b = true -> String.leb b c = true -> String.leb a c = true.
Proof.
  unfold String.leb.
  destruct (String.compare a b) eqn:Eab; try discriminate;
    destruct (String.compare b c) eqn:Ebc; try discriminate; intros _ _.
  - apply String.compare_eq_iff in Eab. subst. rewrite Ebc. reflexivity.
  - apply String.compare_eq_iff in Eab. subst. rewrite Ebc. reflexivity.
  - apply String.compare_eq_iff in Ebc. subst. rewrite Eab. reflexivity.
  - rewrite (string_compare_lt_trans _ _ _ Eab Ebc). reflexivity.
Qed.

(* ================================================================= *)
(** ** The mode of a text column *)

Lemma rows_of_self_length (v : string) (vals : list string) :
  List.length (rows_of (fun s => Some s) v vals) = count_occ string_dec vals v.
Proof.
  induction vals as [|a vals IH]; [reflexivity|].
  change (rows_of (fun s => Some s) v (a :: vals))
    with (if String.eqb a v
          then a :: rows_of (fun s => Some s) v vals
          else rows_of (fun s => Some s) v vals).
  simpl count_occ. destruct (string_dec a v) as [->|N].
  - rewrite String.eqb_refl. simpl. rewrite IH. reflexivity.
  - rewrite (proj2 (String.eqb_neq a v) N). exact IH.
Qed.

Lemma fold_left_max (l : list nat) (a : nat) :
  fold_left Nat.max l a = Nat.max a (list_max l).
Proof.
  revert a. induction l as [|n l IH]; intros a; simpl.
  - rewrite Nat.max_0_r. reflexivity.
  - rewrite IH. rewrite Nat.max_assoc. reflexivity.
Qed.

Lemma list_max_In (l : list nat) : l <> [] -> In (list_max l) l.
Proof.
  induction l as [|n l IH]; [contradiction|]. intros _. simpl.
  destruct l as [|n' l'].
  - left. simpl. rewrite Nat.max_0_r. reflexivity.
  - destruct (Nat.max_spec n (list_max (n' :: l'))) as [[_ E]|[_ E]];
      change (fold_right Nat.max 0%nat (n' :: l')) with (list_max (n' :: l'));
      rewrite E.
    + right. apply IH. discriminate.
    + left. reflexivity.
Qed.

Lemma mode_unfold (x : list (option string)) :
  mode x
  = isort String.leb
      (map fst (filter (fun c => Nat.eqb (snd c) (mode_max_count x)) (mode_counts x))).
Proof. reflexivity. Qed.

Section Mode_facts.
Variable x : list (option string).

Lemma counts_In (k : string) (n : nat) :
  In (k, n) (mode_counts x) <-> In k (dropna x) /\ n = occurrences k x.
Proof.
  unfold mode_counts, occurrences. rewrite In_map_pair. split.
  - intros (g & -> & Hin). apply factorize_In in Hin. destruct Hin as [-> N].
    apply rows_of_nonempty in N. destruct N as (r & Hr & [= ->]).
    split; [exact Hr | apply rows_of_self_length].
  - intros [Hin ->]. exists (rows_of (fun s => Some s) k (dropna x)). split.
    + symmetry. apply rows_of_self_length.
    + apply factorize_In. split; [reflexivity|].
      apply rows_of_nonempty. exists k. split; [exact Hin | reflexivity].
Qed.

Lemma max_count_bound (k : string) : (occurrences k x <= (mode_max_count x))%nat.
Proof.
  destruct (in_dec string_dec k (dropna x)) as [Hin|Hout].
  - assert (Hc : In (occurrences k x) (map snd (mode_counts x))).
    { apply in_map_iff. exists (k, occurrences k x). split; [reflexivity|].
      apply counts_In. split; [exact Hin | reflexivity]. }
    unfold mode_max_count. rewrite fold_left_max. simpl.
    assert (B : Forall (fun n => (n <= list_max (map snd (mode_counts x)))%nat) (map snd (mode_counts x)))
      by (apply list_max_le; apply Nat.le_refl).
    rewrite Forall_forall in B. exact (B _ Hc).
  - unfold occurrences. rewrite (proj1 (count_occ_not_In string_dec _ _) Hout).
    apply Nat.le_0_l.
Qed.

Lemma max_count_reached :
  dropna x <> [] -> exists k, In k (dropna x) /\ occurrences k x = (mode_max_count x).
Proof.
  intros N.
  assert (Nc : map snd (mode_counts x) <> []).
  { destruct (dropna x) as [|v vals] eqn:E; [contradiction|].
    assert (Hc : In (v, occurrences v x) (mode_counts x)).
    { apply counts_In. rewrite E. split; [left|]; reflexivity. }
    intros Enil. apply (in_map snd) in Hc. rewrite Enil in Hc. exact Hc. }
  apply list_max_In in Nc. apply in_map_iff in Nc.
  destruct Nc as ([k n] & En & Hin). simpl in En.
  apply counts_In in Hin. destruct Hin as [Hin ->].
  exists k. split; [exact Hin|].
  unfold mode_max_count. rewrite fold_left_max. simpl. exact En.
Qed.

Lemma mode_In (m : string) : In m (mode x) <-> most_frequent x m.
Proof.
  rewrite mode_unfold, isort_In, in_map_iff.
  unfold most_frequent. split.
  - intros ([k n] & E & Hin). simpl in E. subst k.
    apply filter_In in Hin. destruct Hin as [Hin Hn]. simpl in Hn.
    apply Nat.eqb_eq in Hn. apply counts_In in Hin. destruct Hin as [Hin En].
    split; [exact Hin|]. intros v. rewrite <- En, Hn. apply max_count_bound.
  - intros [Hin Hmax]. exists (m, occurrences m x). split; [reflexivity|].
    apply filter_In. split; [apply counts_In; split; [exact Hin | reflexivity]|].
    simpl. apply Nat.eqb_eq.
    destruct max_count_reached as (k & _ & Ek).
    { intros E. rewrite E in Hin. exact Hin. }
    apply Nat.le_antisymm; [apply max_count_bound|].
    rewrite <- Ek. apply Hmax.
Qed.

Lemma mode_sorted : StronglySorted (fun a b => String.leb a b = true) (mode x).
Proof.
  unfold mode. apply isort_sorted.
  - apply String.leb_total.
  - apply string_leb_trans.
Qed.

(** Element 0 of the mode is the first most frequent value. *)
Lemma at0_mode (m : string) :
  at0 (mode x) = Ok m <-> smallest_most_frequent x m.
Proof.
  unfold smallest_most_frequent. split.
  - intros E. destruct (mode x) as [|m' rest] eqn:Em; [discriminate|].
    injection E as ->.
    assert (S := mode_sorted). rewrite Em in S.
    split.
    + apply mode_In. rewrite Em. left. reflexivity.
    + intros w Hw. apply mode_In in Hw. rewrite Em in Hw.
      destruct Hw as [<-|Hw]; [apply string_leb_refl|].
      inversion S as [|? ? _ Hall]; subst.
      rewrite Forall_forall in Hall. exact (Hall _ Hw).
  - intros [Hm Hleast].
    destruct (mode x) as [|m' rest] eqn:Em.
    + apply mode_In in Hm. rewrite Em in Hm. destruct Hm.
    + simpl. f_equal.
      assert (S := mode_sorted). rewrite Em in S.
      assert (Hm' : most_frequent x m') by (apply mode_In; rewrite Em; left; reflexivity).
      apply String.leb_antisym; [|exact (Hleast _ Hm')].
      apply mode_In in Hm. rewrite Em in Hm.
      destruct Hm as [<-|Hm]; [apply string_leb_refl|].
      inversion S as [|? ? _ Hall]; subst.
      rewrite Forall_forall in Hall. exact (Hall _ Hm).
Qed.

Lemma at0_mode_total :
  dropna x <> [] -> exists m, at0 (mode x) = Ok m.
Proof.
  intros N. destruct (max_count_reached N) as (k & Hin & Ek).
  assert (Hk : In k (mode x)).
  { apply mode_In. split; [exact Hin|]. intros v. rewrite Ek. apply max_count_bound. }
  destruct (mode x) as [|m rest]; [destruct Hk|].
  exists m. reflexivity.
Qed.

Lemma at0_mode_raises :
  dropna x = [] -> at0 (mode x) = Raise (KeyError 0).
Proof.
  intros E. destruct (mode x) as [|m rest] eqn:Em; [reflexivity|].
  assert (Hm : In m (mode x)) by (rewrite Em; left; reflexivity).
  apply mode_In in Hm. destruct Hm as [Hin _]. rewrite E in Hin. destruct Hin.
Qed.

End Mode_facts.

Lemma at0_mode_Raise (x : list (option string)) (e : exn) :
  at0 (mode x) = Raise e -> e = KeyError 0 /\ dropna x = [].
Proof.
  intros E. destruct (dropna x) as [|v vals] eqn:Ed.
  - rewrite (at0_mode_raises x Ed) in E. injection E as <-. split; reflexivity.
  - destruct (at0_mode_total x) as [m Em]; [rewrite Ed; discriminate|].
    rewrite Em in E. discriminate.
Qed.

(* ================================================================= *)
(** ** Traversals that may raise *)

Lemma mapM_Ok {A B : Type} (f : A -> result B) (l : list A) (bs : list B) :
  mapM f l = Ok bs <-> Forall2 (fun a b => f a = Ok b) l bs.
Proof.
  revert bs. induction l as [|a l IH]; intros bs; simpl.
  - split.
    + intros [= <-]. constructor.
    + intros F. inversion F. reflexivity.
  - destruct (f a) as [b|e] eqn:Ea; simpl.
    + destruct (mapM f l) as [bs'|e] eqn:El; simpl.
      * split.
        -- intros [= <-]. constructor; [exact Ea | apply IH; reflexivity].
        -- intros F. inversion F as [|? b' ? bs'' Eb F']; subst.
           apply IH in F'. congruence.
      * split; [discriminate|].
        intros F. inversion F as [|? b' ? bs'' Eb F']; subst.
        apply IH in F'. discriminate.
    + split; [discriminate|].
      intros F. inversion F as [|? b' ? bs'' Eb F']; subst. congruence.
Qed.

Lemma mapM_total {A B : Type} (f : A -> result B) (l : list A) :
  (forall a, In a l -> exists b, f a = Ok b) -> exists bs, mapM f l = Ok bs.
Proof.
  induction l as [|a l IH]; intros Hall; simpl.
  - exists []. reflexivity.
  - destruct (Hall a (or_introl eq_refl)) as [b ->].
    destruct IH as [bs ->]; [intros a' Ha'; apply Hall; right; exact Ha'|].
    exists (b :: bs). reflexivity.
Qed.

Lemma mapM_raises {A B : Type} (f : A -> result B) (l : list A) (a : A) (e : exn) :
  In a l -> f a = Raise e -> exists e', mapM f l = Raise e'.
Proof.
  induction l as [|a' l IH]; intros Hin Ea; [destruct Hin|]. simpl.
  destruct Hin as [->|Hin].
  - rewrite Ea. exists e. reflexivity.
  - destruct (f a') as [b|e1]; simpl; [|exists e1; reflexivity].
    destruct (IH Hin Ea) as [e' ->]. exists e'. reflexivity.
Qed.

Lemma mapM_Raise {A B : Type} (f : A -> result B) (l : list A) (e : exn) :
  mapM f l = Raise e -> exists a, In a l /\ f a = Raise e.
Proof.
  induction l as [|a l IH]; simpl; [discriminate|].
  destruct (f a) as [b|e1] eqn:Ea; simpl.
  - destruct (mapM f l) as [bs|e2]; simpl; [discriminate|].
    intros [= <-]. destruct (IH eq_refl) as (a' & Hin & Ea').
    exists a'. split; [right; exact Hin | exact Ea'].
  - intros [= <-]. exists a. split; [left; reflexivity | exact Ea].
Qed.

Section Groupby_agg_facts.
Context {K C D : Type} `{Key K}.
Variable label : Row -> option K.
Variable column : Row -> C.
Variable f : list C -> result D.

Lemma groupby_agg_rows (groups : list (K * list Row)) (out : list (K * D)) :
  Forall2 (fun g p => (d <- f (map column (snd g)) ;; Ok (fst g, d)) = Ok p) groups out ->
  map fst out = map fst groups
  /\ forall k d, In (k, d) out
                 <-> exists g, In (k, g) groups /\ f (map column g) = Ok d.
Proof.
  induction 1 as [|[k0 g0] p groups out E F [IHk IH]].
  - split; [reflexivity|]. intros k d. split; [intros [] | intros (g & [] & _)].
  - simpl in E. destruct (f (map column g0)) as [d0|e] eqn:E0; [|discriminate].
    simpl in E. injection E as <-. split.
    + simpl. rewrite IHk. reflexivity.
    + intros k d. simpl. rewrite IH. split.
      * intros [[= <- <-]|(g & Hin & Eg)].
        -- exists g0. split; [left; reflexivity | exact E0].
        -- exists g. split; [right; exact Hin | exact Eg].
      * intros (g & [[= <- <-]|Hin] & Eg).
        -- left. congruence.
        -- right. exists g. split; assumption.
Qed.

Lemma groupby_agg_Ok (df : DataFrame) (out : list (K * D)) :
  groupby_agg label column f df = Ok out ->
  NoDup (map fst out)
  /\ forall k d, In (k, d) out
                 <-> (exists r, In r df /\ label r = Some k)
                     /\ f (map column (rows_of label k df)) = Ok d.
Proof.
  unfold groupby_agg. intros E. apply mapM_Ok in E.
  apply groupby_agg_rows in E. destruct E as [Ek E]. split.
  - rewrite Ek. apply groupby_NoDup.
  - intros k d. rewrite E. split.
    + intros (g & Hin & Eg). apply groupby_In in Hin. destruct Hin as [-> N].
      split; [apply rows_of_nonempty, N | exact Eg].
    + intros [P Eg]. exists (rows_of label k df). split; [|exact Eg].
      apply groupby_In. split; [reflexivity | apply rows_of_nonempty, P].
Qed.

Lemma groupby_agg_total (df : DataFrame) :
  (forall k, (exists r, In r df /\ label r = Some k) ->
             exists d, f (map column (rows_of label k df)) = Ok d) ->
  exists out, groupby_agg label column f df = Ok out.
Proof.
  intros Hall. unfold groupby_agg. apply mapM_total.
  intros [k g] Hin. apply groupby_In in Hin. destruct Hin as [-> N]. simpl.
  destruct (Hall k) as [d ->]; [apply rows_of_nonempty, N|].
  exists (k, d). reflexivity.
Qed.

End Groupby_agg_facts.

(* ================================================================= *)
(** ** The map view, categorical variable (lines 161 to 163) *)

Lemma map_view_categorical (data : DataFrame) (selected_year : option Z)
  (v : Var.categorical) :
  map_view data selected_year (inr v)
  = (country_avg <-
       groupby_agg Country (categorical_column v) (fun x => at0 (mode x))
                   (filter (year_is selected_year) data) ;;
     Ok (("Mode of " ++ column_name (inr v) ++ " by Country")%string,
         map (fun c => (fst c, Text (snd c))) country_avg)).
Proof. reflexivity. Qed.

Lemma selected_rows (data : DataFrame) (selected_year : option Z) (c : string) :
  (exists r, In r (filter (year_is selected_year) data) /\ Country r = Some c)
  <-> exists r, In r data /\ year_is selected_year r = true /\ Country r = Some c.
Proof.
  split.
  - intros (r & Hin & Hc). apply filter_In in Hin. destruct Hin as [Hin Hy].
    exists r. repeat split; assumption.
  - intros (r & Hin & Hy & Hc). exists r. split; [|exact Hc].
    apply filter_In. split; assumption.
Qed.

Lemma map_view_categorical_Ok (data : DataFrame) (selected_year : option Z)
  (v : Var.categorical) (title : string) (country_avg : list (string * Cell)) :
  map_view data selected_year (inr v) = Ok (title, country_avg) ->
  NoDup (map fst country_avg)
  /\ forall c cell,
       In (c, cell) country_avg
       <-> (exists r, In r data /\ year_is selected_year r = true /\ Country r = Some c)
           /\ exists m, cell = Text m
                        /\ at0 (mode (country_cells (categorical_column v)
                                                    data selected_year c)) = Ok m.
Proof.
  rewrite map_view_categorical.
  destruct (groupby_agg _ _ _ _) as [out|e] eqn:E; [|discriminate].
  simpl. intros [= <- <-]. apply groupby_agg_Ok in E. destruct E as [ND E].
  split; [rewrite map_fst_pair; exact ND|].
  intros c cell. rewrite In_map_pair. unfold country_cells. split.
  - intros (m & -> & Hin). apply E in Hin. destruct Hin as [P Em].
    split; [apply selected_rows, P|]. exists m. split; [reflexivity | exact Em].
  - intros [P (m & -> & Em)]. exists m. split; [reflexivity|].
    apply E. split; [apply selected_rows, P | exact Em].
Qed.

Lemma map_view_categorical_total (data : DataFrame) (selected_year : option Z)
  (v : Var.categorical) :
  (forall c,
      (exists r, In r data /\ year_is selected_year r = true /\ Country r = Some c) ->
      dropna (country_cells (categorical_column v) data selected_year c) <> []) ->
  exists title country_avg, map_view data selected_year (inr v) = Ok (title, country_avg).
Proof.
  intros Hall. rewrite map_view_categorical.
  destruct (groupby_agg_total Country (categorical_column v) (fun x => at0 (mode x))
              (filter (year_is selected_year) data)) as [out ->].
  - intros c P. apply at0_mode_total. apply Hall. apply selected_rows, P.
  - simpl. eexists. eexists. reflexivity.
Qed.

(** A country of the selected year without any non-missing cell of the
    variable makes the categorical map view raise. *)
Lemma map_view_categorical_raises (data : DataFrame) (selected_year : option Z)
  (v : Var.categorical) (c : string) :
  (exists r, In r data /\ year_is selected_year r = true /\ Country r = Some c) ->
  dropna (country_cells (categorical_column v) data selected_year c) = [] ->
  exists e, map_view data selected_year (inr v) = Raise e.
Proof.
  intros P E. rewrite map_view_categorical. unfold groupby_agg.
  destruct (mapM_raises
              (fun g => d <- at0 (mode (map (categorical_column v) (snd g))) ;; Ok (fst g, d))
              (groupby Country (filter (year_is selected_year) data))
              (c, rows_of Country c (filter (year_is selected_year) data))
              (KeyError 0)) as [e ->].
  - apply groupby_In. split; [reflexivity|].
    apply rows_of_nonempty, selected_rows, P.
  - simpl. unfold country_cells in E. rewrite (at0_mode_raises _ E). reflexivity.
  - exists e. reflexivity.
Qed.

(** The categorical map view, written out on the columns of the table. *)
Lemma categorical_column_cases (v : Var.categorical) :
  categorical_column v
  = match v with
    | Var.Income_Level => Income_Level
    | Var.Urban_Rural => Urban_Rural
    end.
Proof. destruct v; reflexivity. Qed.

Lemma country_cells_observed (column : Row -> option string) (data : DataFrame)
  (selected_year : option Z) (c : string) :
  dropna (country_cells column data selected_year c) <> []
  <-> exists r y m,
        In r data /\ selected_year = Some y /\ Year r = Some y /\ Country r = Some c
        /\ column r = Some m.
Proof.
  rewrite country_cells_rows. split.
  - intros N.
    destruct (dropna _) as [|m ms] eqn:E; [contradiction N; reflexivity|].
    assert (Hm : In m (m :: ms)) by (left; reflexivity).
    rewrite <- E in Hm. apply dropna_In, in_map_iff in Hm.
    destruct Hm as (r & Hcol & Hr). apply filter_In in Hr. destruct Hr as [Hin Hsel].
    destruct (Year r) as [y|] eqn:Ey; [|discriminate].
    destruct selected_year as [s|]; [|discriminate].
    destruct (Country r) as [c'|] eqn:Ec; [|discriminate].
    apply andb_true_iff in Hsel. destruct Hsel as [Hy Hc].
    apply Z.eqb_eq in Hy. apply String.eqb_eq in Hc. subst.
    exists r, s, m. repeat split; assumption.
  - intros (r & y & m & Hin & Hs & Hy & Hc & Hcol) E.
    assert (D : Some m = None); [|discriminate].
    apply (proj1 (dropna_nil _) E). apply in_map_iff. exists r. split; [exact Hcol|].
    apply filter_In. split; [exact Hin|].
    rewrite Hy, Hs, Hc, Z.eqb_refl, String.eqb_refl. reflexivity.
Qed.

Lemma country_cells_unobserved (column : Row -> option string) (data : DataFrame)
  (selected_year : option Z) (c : string) :
  dropna (country_cells column data selected_year c) = []
  <-> forall r y,
        In r data -> selected_year = Some y -> Year r = Some y -> Country r = Some c ->
        column r = None.
Proof.
  split.
  - intros E r y Hin Hs Hy Hc. destruct (column r) as [m|] eqn:Hcol; [|reflexivity].
    exfalso. revert E. apply country_cells_observed.
    exists r, y, m. repeat split; assumption.
  - intros Hall. destruct (dropna _) as [|m ms] eqn:E; [reflexivity|]. exfalso.
    assert (N : dropna (country_cells column data selected_year c) <> [])
      by (rewrite E; discriminate).
    apply country_cells_observed in N.
    destruct N as (r & y & m' & Hin & Hs & Hy & Hc & Hcol).
    rewrite (Hall r y Hin Hs Hy Hc) in Hcol. discriminate.
Qed.

Lemma map_view_categorical_rows (data : DataFrame) (selected_year : option Z)
  (v : Var.categorical) (title : string) (country_avg : list (string * Cell)) :
  map_view data selected_year (inr v) = Ok (title, country_avg) ->
  title = match v with
          | Var.Income_Level => "Mode of Income_Level by Country"
          | Var.Urban_Rural => "Mode of Urban_Rural by Country"
          end%string
  /\ NoDup (map fst country_avg)
  /\ forall c cell,
       In (c, cell) country_avg
       <-> (exists r y,
               In r data /\ selected_year = Some y /\ Year r = Some y /\ Country r = Some c)
           /\ exists m,
                cell = Text m
                /\ smallest_most_frequent
                     (map (match v with
                           | Var.Income_Level => Income_Level
                           | Var.Urban_Rural => Urban_Rural
                           end)
                          (filter (fun r => match Year r, selected_year, Country r with
                                            | Some y, Some s, Some c' =>
                                                (y =? s) && String.eqb c' c
                                            | _, _, _ => false
                                            end) data)) m.
Proof.
  intros E. split.
  - rewrite map_view_categorical in E.
    destruct (groupby_agg _ _ _ _); [|discriminate].
    simpl in E. injection E as <- _. destruct v; reflexivity.
  - apply map_view_categorical_Ok in E. destruct E as [ND E].
    split; [exact ND|]. intros c cell.
    rewrite E, selected_country, country_cells_rows, categorical_column_cases.
    split; intros [P (m & -> & Hm)]; (split; [exact P|]);
      exists m; (split; [reflexivity|]); apply at0_mode; exact Hm.
Qed.

Lemma map_view_categorical_returns (data : DataFrame) (selected_year : option Z)
  (v : Var.categorical) :
  (forall c r y,
      In r data -> selected_year = Some y -> Year r = Some y -> Country r = Some c ->
      exists r' m,
        In r' data /\ Year r' = Some y /\ Country r' = Some c
        /\ (match v with
            | Var.Income_Level => Income_Level
            | Var.Urban_Rural => Urban_Rural
            end) r' = Some m) ->
  exists country_avg,
    map_view data selected_year (inr v)
    = Ok (match v with
          | Var.Income_Level => "Mode of Income_Level by Country"
          | Var.Urban_Rural => "Mode of Urban_Rural by Country"
          end%string,
          country_avg).
Proof.
  intros Hall.
  destruct (map_view_categorical_total data selected_year v) as (title & country_avg & E).
  - intros c P. apply selected_country in P. destruct P as (r & y & Hin & Hs & Hy & Hc).
    destruct (Hall c r y Hin Hs Hy Hc) as (r' & m & Hin' & Hy' & Hc' & Hcol).
    apply country_cells_observed. exists r', y, m.
    rewrite categorical_column_cases. repeat split; assumption.
  - exists country_avg. rewrite E.
    apply map_view_categorical_rows in E. destruct E as [-> _]. reflexivity.
Qed.

Lemma map_view_categorical_Raise (data : DataFrame) (selected_year : option Z)
  (v : Var.categorical) (e : exn) :
  map_view data selected_year (inr v) = Raise e ->
  e = KeyError 0
  /\ exists c y,
       selected_year = Some y
       /\ (exists r, In r data /\ Year r = Some y /\ Country r = Some c)
       /\ forall r, In r data -> Year r = Some y -> Country r = Some c ->
                    (match v with
                     | Var.Income_Level => Income_Level
                     | Var.Urban_Rural => Urban_Rural
                     end) r = None.
Proof.
  intros E. rewrite map_view_categorical in E.
  destruct (groupby_agg _ _ _ _) as [out|e'] eqn:Eg; [discriminate|].
  simpl in E. injection E as ->. unfold groupby_agg in Eg.
  apply mapM_Raise in Eg. destruct Eg as ([c g] & Hin & Ea). simpl in Ea.
  apply groupby_In in Hin. destruct Hin as [-> N].
  destruct (at0 (mode _)) as [m|e1] eqn:Em; [discriminate|].
  simpl in Ea. injection Ea as ->.
  apply at0_mode_Raise in Em. destruct Em as [-> Ed].
  split; [reflexivity|].
  apply rows_of_nonempty, selected_rows, selected_country in N.
  destruct N as (r & y & Hr & Hs & Hy & Hc).
  exists c, y. split; [exact Hs|]. split; [exists r; repeat split; assumption|].
  intros r' Hr' Hy' Hc'. rewrite <- categorical_column_cases.
  apply (proj1 (country_cells_unobserved (categorical_column v) data selected_year c) Ed
               r' y Hr' Hs Hy' Hc').
Qed.

Lemma map_view_categorical_KeyError (data : DataFrame) (selected_year : option Z)
  (v : Var.categorical) (c : string) (y : Z) :
  selected_year = Some y ->
  (exists r, In r data /\ Year r = Some y /\ Country r = Some c) ->
  (forall r, In r data -> Year r = Some y -> Country r = Some c ->
             (match v with
              | Var.Income_Level => Income_Level
              | Var.Urban_Rural => Urban_Rural
              end) r = None) ->
  map_view data selected_year (inr v) = Raise (KeyError 0).
Proof.
  intros Hs (r & Hr & Hy & Hc) Hall.
  destruct (map_view_categorical_raises data selected_year v c) as [e E].
  - apply selected_country. exists r, y. repeat split; assumption.
  - apply country_cells_unobserved. intros r' y' Hr' Hs' Hy' Hc'.
    rewrite categorical_column_cases. apply Hall; try assumption. congruence.
  - rewrite E. f_equal. apply (map_view_categorical_Raise _ _ _ _ E).
Qed.



(** C5, as amended.  For a categorical variable, when every country of the
    selected year has at least one non-missing cell of the selected variable,
    the map view returns a table with one row per such country, holding the
    most frequent value of the variable among the rows of that year and
    country and, among several equally frequent values, the first in the order
    of text.  For India with the Urban_Rural cells Urban, Urban, Rural the row
    holds Urban. *)
Theorem map_view_categorical_is_mode_per_country
  (data : DataFrame) (selected_year : option Z) (v : Var.categorical) :
  (forall c r y,
      In r data -> selected_year = Some y -> Year r = Some y -> Country r = Some c ->
      exists r' m,
        In r' data /\ Year r' = Some y /\ Country r' = Some c
        /\ (match v with
            | Var.Income_Level => Income_Level
            | Var.Urban_Rural => Urban_Rural
            end) r' = Some m) ->
  exists country_avg,
    map_view data selected_year (inr v)
    = Ok (match v with
          | Var.Income_Level => "Mode of Income_Level by Country"
          | Var.Urban_Rural => "Mode of Urban_Rural by Country"
          end%string,
          country_avg)
    /\ NoDup (map fst country_avg)
    /\ (forall c cell,
          In (c, cell) country_avg
          <-> (exists r y,
                  In r data /\ selected_year = Some y /\ Year r = Some y /\ Country r = Some c)
              /\ exists m,
                   cell = Text m
                   /\ smallest_most_frequent
                        (map (match v with
                              | Var.Income_Level => Income_Level
                              | Var.Urban_Rural => Urban_Rural
                              end)
                             (filter (fun r => match Year r, selected_year, Country r with
                                               | Some y, Some s, Some c' =>
                                                   (y =? s) && String.eqb c' c
                                               | _, _, _ => false
                                               end) data)) m)
    /\ (v = Var.Urban_Rural ->
        map Urban_Rural
            (filter (fun r => match Year r, selected_year, Country r with
                              | Some y, Some s, Some c' => (y =? s) && String.eqb c' "India"
                              | _, _, _ => false
                              end) data)
        = [Some "Urban"; Some "Urban"; Some "Rural"]%string ->
        In ("India"%string, Text "Urban"%string) country_avg
        /\ forall cell, In ("India"%string, cell) country_avg -> cell = Text "Urban"%string).
Proof.
  intros Hall.
  destruct (map_view_categorical_returns data selected_year v Hall) as (country_avg & E).
  exists country_avg. split; [exact E|].
  apply map_view_categorical_rows in E. destruct E as (_ & ND & Rows).
  split; [exact ND|]. split; [exact Rows|].
  intros -> Hcells.
  assert (Present : exists r y, In r data /\ selected_year = Some y /\ Year r = Some y
                                /\ Country r = Some "India"%string).
  { destruct (filter (fun r => match Year r, selected_year, Country r with
                               | Some y, Some s, Some c' => (y =? s) && String.eqb c' "India"
                               | _, _, _ => false
                               end) data) as [|r rows] eqn:Ef; [discriminate|].
    assert (Hr : In r (r :: rows)) by (left; reflexivity).
    rewrite <- Ef in Hr. apply filter_In in Hr. destruct Hr as [Hin Hsel].
    destruct (Year r) as [y|] eqn:Ey; [|discriminate].
    destruct selected_year as [s|]; [|discriminate].
    destruct (Country r) as [c'|] eqn:Ec; [|discriminate].
    apply andb_true_iff in Hsel. destruct Hsel as [Hy Hc].
    apply Z.eqb_eq in Hy. apply String.eqb_eq in Hc. subst.
    exists r, s. repeat split; assumption. }
  split.
  - apply Rows. split; [exact Present|].
    exists "Urban"%string. split; [reflexivity|].
    rewrite Hcells. apply at0_mode. reflexivity.
  - intros cell Hin. apply Rows in Hin. destruct Hin as [_ (m & -> & Hm)].
    rewrite Hcells in Hm. apply at0_mode in Hm. vm_compute in Hm. congruence.
Qed.

(** India in 2015 with the cells Urban, none, Rural, Urban, India in 2016 with
    Rural, Argentina in 2015 with Rural: for 2015 the mode of Urban_Rural is
    Urban for India and Rural for Argentina, and the mode of Income_Level is
    Middle for India.  The row of 2016 counts for neither. *)
Lemma map_view_categorical_is_mode_per_country_witness :
  (exists country_avg,
      map_view [india_2015 (Some "Urban"); india_2015 None; india_2016;
                india_2015 (Some "Rural"); argentina_2015; india_2015 (Some "Urban")]%string
               (Some 2015) (inr Var.Urban_Rural)
      = Ok ("Mode of Urban_Rural by Country"%string, country_avg)
      /\ In ("India"%string, Text "Urban"%string) country_avg
      /\ In ("Argentina"%string, Text "Rural"%string) country_avg
      /\ List.length country_avg = 2%nat)
  /\ (exists country_avg,
        map_view [india_2015 (Some "Urban"); india_2016; argentina_2015]%string
                 (Some 2015) (inr Var.Income_Level)
        = Ok ("Mode of Income_Level by Country"%string, country_avg)
        /\ In ("India"%string, Text "Middle"%string) country_avg)
  /\ (exists country_avg,
        map_view [india_2015 (Some "Urban"); india_2015 (Some "Urban");
                  india_2015 (Some "Rural")]%string
                 (Some 2015) (inr Var.Urban_Rural)
        = Ok ("Mode of Urban_Rural by Country"%string, country_avg)
        /\ In ("India"%string, Text "Urban"%string) country_avg).
Proof.
  split; [|split].
  - destruct (map_view_categorical_is_mode_per_country
                [india_2015 (Some "Urban"); india_2015 None; india_2016;
                 india_2015 (Some "Rural"); argentina_2015; india_2015 (Some "Urban")]%string
                (Some 2015) Var.Urban_Rural) as (country_avg & E & _ & Rows & _).
    + intros c r y Hin [= <-] Hy Hc. simpl in Hin.
      destruct Hin as [<-|[<-|[<-|[<-|[<-|[<-|[]]]]]]];
        simpl in Hy, Hc; try discriminate; injection Hc as <-.
      1, 2, 3, 5: exists (india_2015 (Some "Urban"%string)), "Urban"%string;
        repeat split; left; reflexivity.
      exists argentina_2015, "Rural"%string. repeat split. do 4 right. left. reflexivity.
    + exists country_avg. split; [exact E|]. split; [|split].
      * apply Rows. split.
        -- exists (india_2015 (Some "Urban"%string)), 2015. repeat split. left. reflexivity.
        -- exists "Urban"%string. split; [reflexivity|]. apply at0_mode. reflexivity.
      * apply Rows. split.
        -- exists argentina_2015, 2015. repeat split. do 4 right. left. reflexivity.
        -- exists "Rural"%string. split; [reflexivity|]. apply at0_mode. reflexivity.
      * vm_compute in E. injection E as <-. reflexivity.
  - destruct (map_view_categorical_is_mode_per_country
                [india_2015 (Some "Urban"); india_2016; argentina_2015]%string
                (Some 2015) Var.Income_Level) as (country_avg & E & _ & Rows & _).
    + intros c r y Hin [= <-] Hy Hc. simpl in Hin.
      destruct Hin as [<-|[<-|[<-|[]]]];
        simpl in Hy, Hc; try discriminate; injection Hc as <-.
      * exists (india_2015 (Some "Urban"%string)), "Middle"%string.
        repeat split. left. reflexivity.
      * exists argentina_2015, "High"%string. repeat split. do 2 right. left. reflexivity.
    + exists country_avg. split; [exact E|].
      apply Rows. split.
      * exists (india_2015 (Some "Urban"%string)), 2015. repeat split. left. reflexivity.
      * exists "Middle"%string. split; [reflexivity|]. apply at0_mode. reflexivity.
  - destruct (map_view_categorical_is_mode_per_country
                [india_2015 (Some "Urban"); india_2015 (Some "Urban");
                 india_2015 (Some "Rural")]%string
                (Some 2015) Var.Urban_Rural) as (country_avg & E & _ & _ & I).
    + intros c r y Hin [= <-] Hy Hc. simpl in Hin.
      destruct Hin as [<-|[<-|[<-|[]]]]; simpl in Hc; injection Hc as <-;
        exists (india_2015 (Some "Urban"%string)), "Urban"%string;
        repeat split; left; reflexivity.
    + exists country_avg. split; [exact E|].
      apply I; reflexivity.
Defined.

(** A country of the selected year whose cells of the variable are all missing
    makes the whole categorical map view raise: no mode is computed for any
    country. *)
Lemma map_view_categorical_raises_on_missing_cells :
  map_view [india_2015 (Some "Urban"%string); brazil_2015 100] (Some 2015) (inr Var.Urban_Rural)
  = Ok ("Mode of Urban_Rural by Country"%string,
        [("Brazil"%string, Text "Urban"%string); ("India"%string, Text "Urban"%string)])
  /\ map_view [india_2015 None; brazil_2015 100] (Some 2015) (inr Var.Urban_Rural)
     = Raise (KeyError 0).
Proof. split; reflexivity. Qed.

(* ================================================================= *)
(** ** Groups without rows and groups without observations *)

Lemma filter_notna_all_missing (values : list float) :
  forallb isna values = true -> filter notna values = [].
Proof.
  induction values as [|v values IH]; simpl; [reflexivity|].
  intros Hall. apply andb_true_iff in Hall. destruct Hall as [Hv Hl].
  unfold notna. rewrite Hv. simpl. exact (IH Hl).
Qed.

(** The mean of a group in which every cell is missing. *)
Lemma arithmetic_mean_all_missing (values : list float) :
  forallb isna values = true -> arithmetic_mean (filter notna values) = nan.
Proof. intros Hall. rewrite (filter_notna_all_missing _ Hall). reflexivity. Qed.

Lemma all_missing_cells (column : Row -> float) (rows : list Row) :
  (forall r, In r rows -> isna (column r) = true) ->
  arithmetic_mean (filter notna (map column rows)) = nan.
Proof.
  intros Hall. apply arithmetic_mean_all_missing, forallb_forall.
  intros x Hx. apply in_map_iff in Hx. destruct Hx as (r & <- & Hr). apply Hall, Hr.
Qed.

(** C7, as amended.  In the usage and savings aggregations and in the map
    view a label that no row carries (a (Year, category) pair absent from the
    table, a country absent from the rows of the selected year) has no output
    row and is never the cause of an error: the two means and the numeric map
    view always return a table, and the categorical map view raises only on
    account of a country that is present in the rows of the selected year and
    has no non-missing cell there, and returns a table whenever there is no
    such country.  A label whose rows all have a missing value cell is not
    dropped by the means: its output row is there and holds NaN. *)
Theorem absent_groups_have_no_row_and_missing_groups_have_nan (data : DataFrame) :
  (forall y e,
      (forall r, In r data -> ~ (Year r = Some y /\ Energy_Source r = Some e)) ->
      forall x, ~ In (y, e, x) (avg_usage data))
  /\ (forall y i,
        (forall r, In r data -> ~ (Year r = Some y /\ Income_Level r = Some i)) ->
        forall x, ~ In (y, i, x) (avg_savings data))
  /\ (forall selected_year v c,
        (forall r y, In r data -> selected_year = Some y -> Year r = Some y ->
                     Country r <> Some c) ->
        exists title country_avg,
          map_view data selected_year (inl v) = Ok (title, country_avg)
          /\ forall cell, ~ In (c, cell) country_avg)
  /\ (forall selected_year v c,
        (forall r y, In r data -> selected_year = Some y -> Year r = Some y ->
                     Country r <> Some c) ->
        (forall title country_avg,
            map_view data selected_year (inr v) = Ok (title, country_avg) ->
            forall cell, ~ In (c, cell) country_avg)
        /\ (forall e,
              map_view data selected_year (inr v) = Raise e ->
              exists c' y,
                c' <> c
                /\ selected_year = Some y
                /\ (exists r, In r data /\ Year r = Some y /\ Country r = Some c')
                /\ forall r, In r data -> Year r = Some y -> Country r = Some c' ->
                             (match v with
                              | Var.Income_Level => Income_Level
                              | Var.Urban_Rural => Urban_Rural
                              end) r = None))
  /\ (forall selected_year v,
        (forall c r y,
            In r data -> selected_year = Some y -> Year r = Some y -> Country r = Some c ->
            exists r' m,
              In r' data /\ Year r' = Some y /\ Country r' = Some c
              /\ (match v with
                  | Var.Income_Level => Income_Level
                  | Var.Urban_Rural => Urban_Rural
                  end) r' = Some m) ->
        exists title country_avg,
          map_view data selected_year (inr v) = Ok (title, country_avg))
  /\ (forall y e,
        (exists r, In r data /\ Year r = Some y /\ Energy_Source r = Some e) ->
        (forall r, In r data -> Year r = Some y -> Energy_Source r = Some e ->
                   isna (Monthly_Usage_kWh r) = true) ->
        In (y, e, nan) (avg_usage data))
  /\ (forall y i,
        (exists r, In r data /\ Year r = Some y /\ Income_Level r = Some i) ->
        (forall r, In r data -> Year r = Some y -> Income_Level r = Some i ->
                   isna (Cost_Savings_USD r) = true) ->
        In (y, i, nan) (avg_savings data))
  /\ (forall selected_year v c,
        (exists r y,
            In r data /\ selected_year = Some y /\ Year r = Some y /\ Country r = Some c) ->
        (forall r y, In r data -> selected_year = Some y -> Year r = Some y ->
                     Country r = Some c ->
                     isna ((match v with
                            | Var.Monthly_Usage_kWh => Monthly_Usage_kWh
                            | Var.Cost_Savings_USD => Cost_Savings_USD
                            | Var.Household_Size => fun r => float_of_cell (Household_Size r)
                            end) r) = true) ->
        exists title country_avg,
          map_view data selected_year (inl v) = Ok (title, country_avg)
          /\ In (c, Num nan) country_avg).
Proof.
  assert (Pair : forall (B : Type) (KB : Key B) (column : Row -> option B) (value : Row -> float)
                        (y : Z) (b : B),
             (forall r, In r data -> Year r = Some y -> column r = Some b ->
                        isna (value r) = true) ->
             arithmetic_mean
               (filter notna
                  (map value (rows_of (fun r => both (Year r) (column r)) (y, b) data)))
             = nan).
  { intros B KB column value y b Hall. apply all_missing_cells.
    intros r Hr. unfold rows_of in Hr. apply filter_In in Hr. destruct Hr as [Hin Hl].
    unfold has_label, both in Hl.
    destruct (Year r) as [y'|] eqn:Ey; [|discriminate].
    destruct (column r) as [b'|] eqn:Eb; [|discriminate].
    apply key_eqb_eq in Hl. injection Hl as -> ->. apply Hall; assumption. }
  split; [|split; [|split; [|split; [|split; [|split; [|split]]]]]].
  - intros y e Habs x Hin. apply avg_usage_In in Hin.
    destruct Hin as [(r & Hr & Hy & He) _]. apply (Habs r Hr). split; assumption.
  - intros y i Habs x Hin. apply avg_savings_In in Hin.
    destruct Hin as [(r & Hr & Hy & Hi) _]. apply (Habs r Hr). split; assumption.
  - intros selected_year v c Habs. eexists. eexists.
    split; [apply map_view_numeric|].
    intros cell Hin. apply map_view_numeric_In in Hin. destruct Hin as [P _].
    apply selected_country in P. destruct P as (r & y & Hr & Hs & Hy & Hc).
    exact (Habs r y Hr Hs Hy Hc).
  - intros selected_year v c Habs. split.
    + intros title country_avg E cell Hin.
      apply map_view_categorical_rows in E. destruct E as (_ & _ & Rows).
      apply Rows in Hin. destruct Hin as [(r & y & Hr & Hs & Hy & Hc) _].
      exact (Habs r y Hr Hs Hy Hc).
    + intros e E. apply map_view_categorical_Raise in E.
      destruct E as [_ (c' & y & Hs & (r & Hr & Hy & Hc) & Hall)].
      exists c', y. split.
      * intros ->. exact (Habs r y Hr Hs Hy Hc).
      * split; [exact Hs|]. split; [exists r; repeat split; assumption | exact Hall].
  - intros selected_year v Hall.
    destruct (map_view_categorical_returns data selected_year v Hall) as (country_avg & E).
    eexists. exists country_avg. exact E.
  - intros y e P Hall. apply avg_usage_In. split; [exact P|].
    symmetry. apply (Pair string _ Energy_Source Monthly_Usage_kWh), Hall.
  - intros y i P Hall. apply avg_savings_In. split; [exact P|].
    symmetry. apply (Pair string _ Income_Level Cost_Savings_USD), Hall.
  - intros selected_year v c P Hall. eexists. eexists.
    split; [apply map_view_numeric|].
    apply map_view_numeric_In. split; [apply selected_country, P|].
    rewrite country_cells_rows, all_missing_cells; [reflexivity|].
    intros r Hr. apply filter_In in Hr. destruct Hr as [Hin Hsel].
    destruct (Year r) as [y|] eqn:Ey; [|discriminate].
    destruct selected_year as [s|]; [|discriminate].
    destruct (Country r) as [c'|] eqn:Ec; [|discriminate].
    apply andb_true_iff in Hsel. destruct Hsel as [Hy Hc].
    apply Z.eqb_eq in Hy. apply String.eqb_eq in Hc. subst.
    rewrite numeric_column_cases. apply (Hall r s); auto.
Qed.

(** Brazil in 2015 without a usage reading, India in 2016, Argentina in 2015.
    The usage table keeps the pair (2015, Solar) with NaN and has no row for
    (2015, Wind); for the year 2015 the map of the usage keeps Brazil with NaN
    and has no row for India, and the map of Urban_Rural returns a table
    without a row for India. *)
Lemma absent_groups_have_no_row_and_missing_groups_have_nan_witness :
  In (2015, "Solar"%string, nan) (avg_usage [brazil_2015 nan; india_2016; argentina_2015])
  /\ (forall x, ~ In (2015, "Wind"%string, x)
                     (avg_usage [brazil_2015 nan; india_2016; argentina_2015]))
  /\ (exists title country_avg,
        map_view [brazil_2015 nan; india_2016; argentina_2015] (Some 2015)
                 (inl Var.Monthly_Usage_kWh) = Ok (title, country_avg)
        /\ In ("Brazil"%string, Num nan) country_avg)
  /\ (exists title country_avg,
        map_view [brazil_2015 nan; india_2016; argentina_2015] (Some 2015)
                 (inl Var.Monthly_Usage_kWh) = Ok (title, country_avg)
        /\ forall cell, ~ In ("India"%string, cell) country_avg)
  /\ (exists title country_avg,
        map_view [brazil_2015 nan; india_2016; argentina_2015] (Some 2015)
                 (inr Var.Urban_Rural) = Ok (title, country_avg)
        /\ forall cell, ~ In ("India"%string, cell) country_avg).
Proof.
  destruct (absent_groups_have_no_row_and_missing_groups_have_nan
              [brazil_2015 nan; india_2016; argentina_2015])
    as (Zero & _ & ZeroNum & ZeroCat & Returns & Missing & _ & MissingNum).
  assert (NoIndia : forall r y,
             In r [brazil_2015 nan; india_2016; argentina_2015] ->
             Some 2015 = Some y -> Year r = Some y -> Country r <> Some "India"%string).
  { intros r y Hin [= <-] Hy. simpl in Hin.
    destruct Hin as [<-|[<-|[<-|[]]]]; simpl in Hy; try discriminate; simpl; discriminate. }
  split; [|split; [|split; [|split]]].
  - apply Missing.
    + exists (brazil_2015 nan). repeat split. left. reflexivity.
    + intros r Hin Hy He. simpl in Hin.
      destruct Hin as [<-|[<-|[<-|[]]]]; simpl in Hy, He; try discriminate. reflexivity.
  - apply Zero. intros r Hin [Hy He]. simpl in Hin.
    destruct Hin as [<-|[<-|[<-|[]]]]; simpl in Hy, He; discriminate.
  - apply MissingNum.
    + exists (brazil_2015 nan), 2015. repeat split. left. reflexivity.
    + intros r y Hin [= <-] Hy Hc. simpl in Hin.
      destruct Hin as [<-|[<-|[<-|[]]]]; simpl in Hy, Hc; try discriminate. reflexivity.
  - apply ZeroNum, NoIndia.
  - destruct (Returns (Some 2015) Var.Urban_Rural) as (title & country_avg & E).
    + intros c r y Hin [= <-] Hy Hc. simpl in Hin.
      destruct Hin as [<-|[<-|[<-|[]]]]; simpl in Hy, Hc; try discriminate;
        injection Hc as <-.
      * exists (brazil_2015 nan), "Urban"%string. repeat split. left. reflexivity.
      * exists argentina_2015, "Rural"%string. repeat split. do 2 right. left. reflexivity.
    + exists title, country_avg. split; [exact E|].
      apply (proj1 (ZeroCat (Some 2015) Var.Urban_Rural "India"%string NoIndia) _ _ E).
Defined.

(** Against C7 as stated: a group whose rows are all missing does get an
    output row from a mean aggregation, and makes the categorical map view
    raise. *)
Lemma all_missing_group_yields_row_or_raises :
  forallb (fun r => isna (Monthly_Usage_kWh r)) [brazil_2015 nan] = true
  /\ avg_usage [brazil_2015 nan] = [(2015, "Solar"%string, nan)]
  /\ map_view [india_2015 None] (Some 2015) (inr Var.Urban_Rural) = Raise (KeyError 0).
Proof. split; [|split]; reflexivity. Qed.

(* ================================================================= *)
(** ** Sorting routines that keep the promise of [SortKind] *)

Lemma key_leb_na_last_le (ascending : bool) (a b : option Z) :
  key_leb_na_last ascending a b = true <-> key_le ascending a b.
Proof.
  destruct a as [x|], b as [y|], ascending; simpl;
    rewrite ?Z.leb_le; intuition discriminate.
Qed.

Lemma key_leb_na_last_total (ascending : bool) (a b : option Z) :
  key_leb_na_last ascending a b = true \/ key_leb_na_last ascending b a = true.
Proof.
  destruct a as [x|], b as [y|], ascending; simpl; rewrite ?Z.leb_le; auto; lia.
Qed.

Lemma key_leb_na_last_trans (ascending : bool) (a b c : option Z) :
  key_leb_na_last ascending a b = true ->
  key_leb_na_last ascending b c = true ->
  key_leb_na_last ascending a c = true.
Proof.
  destruct a as [x|], b as [y|], c as [z|], ascending; simpl;
    rewrite ?Z.leb_le; try discriminate; auto; lia.
Qed.

Lemma key_le_trans (ascending : bool) (a b c : option Z) :
  key_le ascending a b -> key_le ascending b c -> key_le ascending a c.
Proof.
  rewrite <- !key_leb_na_last_le. apply key_leb_na_last_trans.
Qed.

Lemma StronglySorted_weaken {A : Type} (R R' : A -> A -> Prop) (l : list A) :
  (forall a b, R a b -> R' a b) -> StronglySorted R l -> StronglySorted R' l.
Proof.
  intros Sub. induction 1 as [|a l S IH F]; constructor.
  - exact IH.
  - eapply Forall_impl; [|exact F]. intros b. apply Sub.
Qed.

Lemma isort_by_key_sorted {A : Type} (by_ : A -> option Z) (ascending : bool) (l : list A) :
  Sorted (fun x y => key_le ascending (by_ x) (by_ y))
         (isort (fun x y => key_leb_na_last ascending (by_ x) (by_ y)) l).
Proof.
  apply StronglySorted_Sorted.
  apply (StronglySorted_weaken
           (fun x y => key_leb_na_last ascending (by_ x) (by_ y) = true)).
  - intros a b. apply key_leb_na_last_le.
  - apply isort_sorted.
    + intros a b. apply key_leb_na_last_total.
    + intros a b c. apply key_leb_na_last_trans.
Qed.

Lemma StronglySorted_map {A B : Type} (R : B -> B -> Prop) (f : A -> B) (l : list A) :
  StronglySorted (fun a b => R (f a) (f b)) l -> StronglySorted R (map f l).
Proof.
  induction 1 as [|a l S IH F]; simpl; constructor; [exact IH|].
  apply Forall_map. exact F.
Qed.

Lemma StronglySorted_unmap {A B : Type} (R : B -> B -> Prop) (f : A -> B) (l : list A) :
  StronglySorted R (map f l) -> StronglySorted (fun a b => R (f a) (f b)) l.
Proof.
  induction l as [|a l IH]; intros S; [constructor|].
  simpl in S. inversion S as [|? ? S' F]; subst.
  constructor; [apply IH, S'|]. rewrite Forall_map in F. exact F.
Qed.

Lemma StronglySorted_app {A : Type} (R : A -> A -> Prop) (l1 l2 : list A) :
  StronglySorted R l1 -> StronglySorted R l2 ->
  (forall a b, In a l1 -> In b l2 -> R a b) ->
  StronglySorted R (l1 ++ l2).
Proof.
  intros S1 S2 Cross. induction S1 as [|a l1 S1 IH F]; simpl; [exact S2|].
  constructor.
  - apply IH. intros x y Hx Hy. apply Cross; [right; exact Hx | exact Hy].
  - apply Forall_app. split; [exact F|].
    apply Forall_forall. intros y Hy. apply Cross; [left; reflexivity | exact Hy].
Qed.

Lemma StronglySorted_rev {A : Type} (R : A -> A -> Prop) (l : list A) :
  StronglySorted R l -> StronglySorted (fun a b => R b a) (rev l).
Proof.
  induction 1 as [|a l S IH F]; simpl; [constructor|].
  apply StronglySorted_app; [exact IH | repeat constructor|].
  intros x y Hx [<-|[]]. apply in_rev in Hx.
  exact (proj1 (Forall_forall _ _) F x Hx).
Qed.

(** A routine that keeps rows with equal keys in their original order
    (as [kind='stable'] does). *)
Definition stable_kind : SortKind := {|
  sort_values := fun A by_ ascending l =>
    isort (fun x y => key_leb_na_last ascending (by_ x) (by_ y)) l;
  sort_values_perm := fun A by_ ascending l => isort_perm _ l;
  sort_values_sorted := fun A by_ ascending l => isort_by_key_sorted by_ ascending l
|}.

(* ----------------------------------------------------------------- *)
(** *** Positions and the cells at them *)

Lemma take_range {A : Type} (pre l : list A) :
  take (pre ++ l) (seq (List.length pre) (List.length l)) = l.
Proof.
  revert pre. induction l as [|x l IH]; intros pre; [reflexivity|].
  simpl. rewrite nth_error_app2 by apply Nat.le_refl.
  rewrite Nat.sub_diag. simpl. f_equal.
  specialize (IH (pre ++ [x])). rewrite <- app_assoc, length_app in IH. simpl in IH.
  rewrite Nat.add_1_r in IH. exact IH.
Qed.

(** Taking the rows at a rearrangement of all positions rearranges the
    rows. *)
Lemma take_rearranges {A : Type} (l : list A) (indexer : list nat) :
  Permutation indexer (seq 0 (List.length l)) -> Permutation l (take l indexer).
Proof.
  intros P. rewrite <- (take_range [] l) at 1. simpl.
  unfold take. apply Permutation_flat_map, Permutation_sym, P.
Qed.

Lemma take_cells {A B : Type} (f : A -> B) (d : B) (l : list A) (indexer : list nat) :
  Forall (fun i => (i < List.length l)%nat) indexer ->
  map f (take l indexer) = map (fun i => nth i (map f l) d) indexer.
Proof.
  induction 1 as [|i indexer Hi _ IH]; [reflexivity|].
  simpl. destruct (nth_error l i) as [x|] eqn:E.
  - simpl. rewrite IH. f_equal.
    rewrite (nth_indep _ d (f x)) by (rewrite length_map; exact Hi).
    rewrite map_nth. f_equal. symmetry. apply nth_error_nth, E.
  - apply nth_error_None in E. lia.
Qed.

Lemma cells_at_all_positions {A : Type} (d : A) (l : list A) :
  map (fun i => nth i l d) (seq 0 (List.length l)) = l.
Proof.
  apply (nth_ext _ _ d d).
  - rewrite length_map, length_seq. reflexivity.
  - intros n Hn. rewrite length_map, length_seq in Hn.
    rewrite (nth_indep _ d (nth 0 l d)) by (rewrite length_map, length_seq; exact Hn).
    rewrite (map_nth (fun i => nth i l d) (seq 0 (List.length l)) 0%nat n).
    rewrite seq_nth by exact Hn. reflexivity.
Qed.

Lemma map_filter_through {A B : Type} (f : A -> B) (p : B -> bool) (l : list A) :
  map f (filter (fun x => p (f x)) l) = filter p (map f l).
Proof.
  induction l as [|a l IH]; simpl; [reflexivity|].
  destruct (p (f a)); simpl; rewrite IH; reflexivity.
Qed.

Lemma filter_halves {A : Type} (p : A -> bool) (l : list A) :
  Permutation (filter (fun x => negb (p x)) l ++ filter p l) l.
Proof.
  induction l as [|a l IH]; simpl; [constructor|].
  destruct (p a); simpl.
  - apply Permutation_sym, Permutation_cons_app, Permutation_sym, IH.
  - apply perm_skip, IH.
Qed.

Definition is_missing (c : option Z) : bool :=
  match c with Some _ => false | None => true end.

Lemma present_cells (items : list (option Z)) :
  filter (fun c => negb (is_missing c)) items = map Some (dropna items).
Proof.
  induction items as [|[z|] items IH]; simpl; [reflexivity | f_equal; exact IH | exact IH].
Qed.

Lemma missing_cells (items : list (option Z)) :
  Forall (fun c => c = None) (filter is_missing items).
Proof.
  apply Forall_forall. intros [z|] Hc; [|reflexivity].
  apply filter_In in Hc. destruct Hc as [_ Hc]. discriminate.
Qed.

Lemma missing_sorted (ascending : bool) (cells : list (option Z)) :
  Forall (fun c => c = None) cells -> StronglySorted (key_le ascending) cells.
Proof.
  induction 1 as [|c cells -> F IH]; constructor; [exact IH|].
  eapply Forall_impl; [|exact F]. intros b ->. exact I.
Qed.

Lemma positions_below (indexer : list nat) (n : nat) :
  Permutation indexer (seq 0 n) -> Forall (fun i => (i < n)%nat) indexer.
Proof.
  intros P. apply Forall_forall. intros i Hi.
  apply (Permutation_in _ P), in_seq in Hi. lia.
Qed.

(* ----------------------------------------------------------------- *)
(** *** [nargsort] and [sort_values] with a routine that keeps numpy's
    promise *)

Section Lawful_routine.
Context (numpy : ArgSort).

Lemma argsort_strongly_sorted (keys : list Z) :
  StronglySorted Z.le (map (fun j => nth j keys 0) (argsort keys)).
Proof.
  apply Sorted_StronglySorted; [|apply argsort_sorted].
  intros a b c. apply Z.le_trans.
Qed.

Lemma nargsort_answer (items : list (option Z)) (ascending : bool) :
  exists indexer,
    nargsort (routine_of numpy) items ascending = Some indexer
    /\ Permutation indexer (seq 0 (List.length items))
    /\ StronglySorted (key_le ascending) (map (fun i => nth i items None) indexer).
Proof.
  unfold nargsort, routine_of.
  set (key_of := fun i => nth i items None).
  set (idx := seq 0 (List.length items)).
  set (mask := fun i : nat => match nth i items None with Some _ => false | None => true end).
  assert (Eall : map key_of idx = items) by apply cells_at_all_positions.
  assert (Epresent : map key_of (filter (fun i => negb (mask i)) idx) = map Some (dropna items)).
  { rewrite <- present_cells.
    change (filter (fun i => negb (mask i)) idx)
      with (filter (fun i => (fun c => negb (is_missing c)) (key_of i)) idx).
    rewrite map_filter_through, Eall. reflexivity. }
  assert (Emissing : Forall (fun c => c = None) (map key_of (filter mask idx))).
  { change (filter mask idx) with (filter (fun i => is_missing (key_of i)) idx).
    rewrite map_filter_through, Eall. apply missing_cells. }
  set (non_nans := if ascending then dropna items else rev (dropna items)).
  set (non_nan_idx := if ascending then filter (fun i => negb (mask i)) idx
                      else rev (filter (fun i => negb (mask i)) idx)).
  assert (Ekeys : map key_of non_nan_idx = map Some non_nans).
  { unfold non_nan_idx, non_nans. destruct ascending; [exact Epresent|].
    rewrite !map_rev. f_equal. exact Epresent. }
  assert (Elen : List.length non_nan_idx = List.length non_nans).
  { apply (f_equal (@List.length _)) in Ekeys. rewrite !length_map in Ekeys. exact Ekeys. }
  assert (Pidx : Permutation non_nan_idx (filter (fun i => negb (mask i)) idx)).
  { unfold non_nan_idx. destruct ascending;
      [apply Permutation_refl | apply Permutation_sym, Permutation_rev]. }
  pose proof (argsort_perm non_nans) as Porder.
  pose proof (argsort_strongly_sorted non_nans) as Sorder.
  set (order := argsort non_nans) in *.
  set (indexer := map (fun j => nth j non_nan_idx 0%nat) order).
  assert (Pindexer : Permutation indexer non_nan_idx).
  { apply (perm_trans
             (l' := map (fun j => nth j non_nan_idx 0%nat) (seq 0 (List.length non_nan_idx)))).
    - rewrite Elen. apply Permutation_map, Porder.
    - rewrite cells_at_all_positions. apply Permutation_refl. }
  assert (Kindexer : map key_of indexer = map Some (map (fun j => nth j non_nans 0) order)).
  { unfold indexer. rewrite !map_map. apply map_ext_in. intros j Hj.
    apply (Permutation_in _ Porder), in_seq in Hj.
    rewrite <- (map_nth key_of non_nan_idx 0%nat j), Ekeys.
    rewrite (nth_indep _ (key_of 0%nat) (Some 0)) by (rewrite length_map; lia).
    apply (map_nth Some). }
  exists ((if ascending then indexer else rev indexer)
          ++ filter mask idx).
  split; [reflexivity|]. split.
  - apply (perm_trans (l' := filter (fun i => negb (mask i)) idx ++ filter mask idx));
      [|apply filter_halves].
    apply Permutation_app_tail.
    apply (perm_trans (l' := indexer)).
    + destruct ascending; [apply Permutation_refl | apply Permutation_sym, Permutation_rev].
    + apply (perm_trans Pindexer Pidx).
  - rewrite map_app. apply StronglySorted_app.
    + destruct ascending.
      * rewrite Kindexer. apply StronglySorted_map.
        apply (StronglySorted_weaken Z.le); [|exact Sorder]. intros a b Hab. exact Hab.
      * rewrite map_rev, Kindexer, <- map_rev. apply StronglySorted_map.
        apply (StronglySorted_weaken (fun a b => b <= a));
          [|apply StronglySorted_rev, Sorder].
        intros a b Hab. exact Hab.
    + apply missing_sorted, Emissing.
    + intros a b _ Hb.
      rewrite (proj1 (Forall_forall _ _) Emissing b Hb).
      destruct a; exact I.
Qed.

Lemma sort_values_by_answer {A : Type} (by_ : A -> option Z) (ascending : bool) (l : list A) :
  exists sorted,
    sort_values_by (routine_of numpy) by_ ascending l = Some sorted
    /\ Permutation l sorted
    /\ StronglySorted (fun x y => key_le ascending (by_ x) (by_ y)) sorted.
Proof.
  destruct (nargsort_answer (map by_ l) ascending) as (indexer & E & P & S).
  rewrite length_map in P.
  exists (take l indexer). unfold sort_values_by. rewrite E.
  split; [reflexivity|]. split; [apply take_rearranges, P|].
  apply StronglySorted_unmap.
  rewrite (take_cells by_ None) by apply positions_below, P.
  exact S.
Qed.

Lemma sort_values_with_perm (A : Type) (by_ : A -> option Z) (ascending : bool) (l : list A) :
  Permutation l (sort_values_with numpy by_ ascending l).
Proof.
  unfold sort_values_with.
  destruct (sort_values_by_answer by_ ascending l) as (sorted & -> & P & _). exact P.
Qed.

Lemma sort_values_with_sorted (A : Type) (by_ : A -> option Z) (ascending : bool)
  (l : list A) :
  Sorted (fun x y => key_le ascending (by_ x) (by_ y)) (sort_values_with numpy by_ ascending l).
Proof.
  unfold sort_values_with.
  destruct (sort_values_by_answer by_ ascending l) as (sorted & -> & _ & S).
  apply StronglySorted_Sorted, S.
Qed.

End Lawful_routine.

(** [sort_values] as pandas builds it on a routine that keeps numpy's
    promise. *)
Definition pandas_kind (numpy : ArgSort) : SortKind := {|
  sort_values := @sort_values_with numpy;
  sort_values_perm := sort_values_with_perm numpy;
  sort_values_sorted := sort_values_with_sorted numpy
|}.

(* ----------------------------------------------------------------- *)
(** *** Two routines that keep the promise *)

Lemma stable_argsort_perm (keys : list Z) :
  Permutation (stable_argsort keys) (seq 0 (List.length keys)).
Proof. apply Permutation_sym, isort_perm. Qed.

Lemma stable_argsort_sorted (keys : list Z) :
  Sorted Z.le (map (fun j => nth j keys 0) (stable_argsort keys)).
Proof.
  apply StronglySorted_Sorted, StronglySorted_map.
  apply (StronglySorted_weaken (fun i j => (nth i keys 0 <=? nth j keys 0) = true)).
  - intros i j. apply Z.leb_le.
  - apply isort_sorted.
    + intros i j. rewrite !Z.leb_le. lia.
    + intros i j k. rewrite !Z.leb_le. lia.
Qed.

Definition stable_numpy : ArgSort := {|
  argsort := stable_argsort;
  argsort_perm := stable_argsort_perm;
  argsort_sorted := stable_argsort_sorted
|}.

Lemma reversing_argsort_perm (keys : list Z) :
  Permutation (reversing_argsort keys) (seq 0 (List.length keys)).
Proof.
  unfold reversing_argsort.
  eapply perm_trans; [apply Permutation_sym, Permutation_rev|].
  apply Permutation_sym, isort_perm.
Qed.

Lemma reversing_argsort_sorted (keys : list Z) :
  Sorted Z.le (map (fun j => nth j keys 0) (reversing_argsort keys)).
Proof.
  apply StronglySorted_Sorted, StronglySorted_map.
  apply (StronglySorted_weaken (fun i j => (nth i keys 0 <=? nth j keys 0) = true)).
  - intros i j. apply Z.leb_le.
  - unfold reversing_argsort.
    apply (StronglySorted_rev (fun i j => (nth j keys 0 <=? nth i keys 0) = true)).
    apply isort_sorted.
    + intros i j. rewrite !Z.leb_le. lia.
    + intros i j k. rewrite !Z.leb_le. lia.
Qed.

Definition reversing_numpy : ArgSort := {|
  argsort := reversing_argsort;
  argsort_perm := reversing_argsort_perm;
  argsort_sorted := reversing_argsort_sorted
|}.

Definition reversing_kind : SortKind := pandas_kind reversing_numpy.

(* ================================================================= *)
(** ** Sort by Year (line 19) *)

(** C3, as amended.  Whatever routine numpy runs behind [argsort], as long as
    it keeps numpy's promise, the sort by Year returns a table: a
    rearrangement of the input rows, so as many rows as it was given, in which
    Year never decreases from one row to a later one and rows without a Year
    come last.  (Nothing is promised about the relative order of rows with
    equal Year.) *)
Theorem sort_by_year_sorted_permutation (numpy : ArgSort) (data : DataFrame) :
  exists sorted,
    sort_values_by (routine_of numpy) Year true data = Some sorted
    /\ @sort_by_year (pandas_kind numpy) data = sorted
    /\ Permutation data sorted
    /\ List.length sorted = List.length data
    /\ StronglySorted (fun r r' => key_le true (Year r) (Year r')) sorted.
Proof.
  destruct (sort_values_by_answer numpy Year true data) as (sorted & E & P & S).
  exists sorted. split; [exact E|]. split.
  - unfold sort_by_year. simpl. unfold sort_values_with. rewrite E. reflexivity.
  - split; [exact P|]. split; [|exact S].
    symmetry. apply Permutation_length, P.
Qed.

(** Five households of two years, one without a Year.  Under the routine
    that reverses equal keys the years come out ascending, the missing one
    last, the two households of 2016 and the two of 2015 exchanged; under the
    stable routine the years come out the same and the households of one year
    keep their order. *)
Lemma sort_by_year_sorted_permutation_witness :
  (exists sorted,
      sort_values_by (routine_of reversing_numpy) Year true
        [observed (Some 2016) 1; observed None 2; observed (Some 2015) 3;
         observed (Some 2016) 4; observed (Some 2015) 5]
      = Some sorted
      /\ sorted = [observed (Some 2015) 5; observed (Some 2015) 3; observed (Some 2016) 4;
                   observed (Some 2016) 1; observed None 2]
      /\ List.length sorted = 5%nat
      /\ StronglySorted (fun r r' => key_le true (Year r) (Year r')) sorted)
  /\ (exists sorted,
        sort_values_by (routine_of stable_numpy) Year true
          [observed (Some 2016) 1; observed None 2; observed (Some 2015) 3;
           observed (Some 2016) 4; observed (Some 2015) 5]
        = Some sorted
        /\ sorted = [observed (Some 2015) 3; observed (Some 2015) 5; observed (Some 2016) 1;
                     observed (Some 2016) 4; observed None 2]
        /\ StronglySorted (fun r r' => key_le true (Year r) (Year r')) sorted).
Proof.
  split.
  - destruct (sort_by_year_sorted_permutation reversing_numpy
                [observed (Some 2016) 1; observed None 2; observed (Some 2015) 3;
                 observed (Some 2016) 4; observed (Some 2015) 5])
      as (sorted & E & _ & _ & L & S).
    exists sorted. split; [exact E|]. split; [|split; [exact L | exact S]].
    vm_compute in E. injection E as <-. reflexivity.
  - destruct (sort_by_year_sorted_permutation stable_numpy
                [observed (Some 2016) 1; observed None 2; observed (Some 2015) 3;
                 observed (Some 2016) 4; observed (Some 2015) 5])
      as (sorted & E & _ & _ & _ & S).
    exists sorted. split; [exact E|]. split; [|exact S].
    vm_compute in E. injection E as <-. reflexivity.
Defined.

(** Against C3 as stated: two households of 2016 followed by two of 2015.
    The network of the vector routine exchanges the outer and the inner pair
    and nothing else, so the four rows come out end for end: within 2015 and
    within 2016 the later row now comes first.  A stable sort returns the
    households in the order 3, 4, 1, 2. *)
Lemma sort_by_year_not_stable :
  VectorSort.argsort [2016; 2016; 2015; 2015] = Some [3; 2; 1; 0]%nat
  /\ sort_values_by VectorSort.argsort Year true four_households
     = Some [observed (Some 2015) 4; observed (Some 2015) 3;
             observed (Some 2016) 2; observed (Some 2016) 1]
  /\ @sort_by_year stable_kind four_households
     = [observed (Some 2015) 3; observed (Some 2015) 4;
        observed (Some 2016) 1; observed (Some 2016) 2].
Proof. split; [|split]; vm_compute; reflexivity. Qed.

(* ================================================================= *)
(** ** Ordered lists with pairwise distinct keys *)

Lemma sorted_distinct_unique {A : Type} (key : A -> Z) (l1 l2 : list A) :
  NoDup (map key l1) ->
  Permutation l1 l2 ->
  StronglySorted (fun a b => key a <= key b) l1 ->
  StronglySorted (fun a b => key a <= key b) l2 ->
  l1 = l2.
Proof.
  revert l2. induction l1 as [|a l1 IH]; intros l2 ND P S1 S2.
  - apply Permutation_nil in P. subst. reflexivity.
  - destruct l2 as [|b l2].
    { apply Permutation_sym, Permutation_nil in P. discriminate. }
    inversion S1 as [|? ? S1' F1]; inversion S2 as [|? ? S2' F2]; subst.
    inversion ND as [|? ? Hnin ND']; subst.
    assert (E : a = b).
    { rewrite Forall_forall in F1, F2.
      assert (Ha : In a (b :: l2))
        by (eapply Permutation_in; [exact P | left; reflexivity]).
      assert (Hb : In b (a :: l1))
        by (eapply Permutation_in; [apply Permutation_sym, P | left; reflexivity]).
      destruct Ha as [->|Ha]; [reflexivity|].
      destruct Hb as [->|Hb]; [reflexivity|].
      exfalso. apply Hnin.
      replace (key a) with (key b)
        by (apply Z.le_antisymm; [apply F2, Ha | apply F1, Hb]).
      apply in_map, Hb. }
    subst b. f_equal.
    apply IH; [exact ND' | eapply Permutation_cons_inv; exact P | exact S1' | exact S2'].
Qed.

(* ================================================================= *)
(** ** The cumulative adoption table (lines 94 to 99) *)

Lemma rows_of_self_count (v : Z) (vals : list Z) :
  List.length (rows_of (fun s => Some s) v vals) = count_occ Z.eq_dec vals v.
Proof.
  induction vals as [|a vals IH]; [reflexivity|].
  change (rows_of (fun s => Some s) v (a :: vals))
    with (if Z.eqb a v
          then a :: rows_of (fun s => Some s) v vals
          else rows_of (fun s => Some s) v vals).
  simpl count_occ. destruct (Z.eq_dec a v) as [->|N].
  - rewrite Z.eqb_refl. simpl. rewrite IH. reflexivity.
  - rewrite (proj2 (Z.eqb_neq a v) N). exact IH.
Qed.

Lemma counted_In (col : list (option Z)) (k n : Z) :
  In (k, n) (counted col)
  <-> In k (dropna col) /\ n = Z.of_nat (count_occ Z.eq_dec (dropna col) k).
Proof.
  unfold counted.
  rewrite (In_map_pair (fun g : list Z => Z.of_nat (List.length g))). split.
  - intros (g & -> & Hin). apply factorize_In in Hin. destruct Hin as [-> N].
    apply rows_of_nonempty in N. destruct N as (r & Hr & [= ->]).
    split; [exact Hr | rewrite rows_of_self_count; reflexivity].
  - intros [Hin ->]. exists (rows_of (fun s => Some s) k (dropna col)). split.
    + rewrite rows_of_self_count. reflexivity.
    + apply factorize_In. split; [reflexivity|].
      apply rows_of_nonempty. exists k. split; [exact Hin | reflexivity].
Qed.

Lemma counted_labels_NoDup (col : list (option Z)) : NoDup (map fst (counted col)).
Proof.
  unfold counted.
  rewrite (map_fst_pair (fun g : list Z => Z.of_nat (List.length g))).
  apply factorize_invariant.
Qed.

Lemma spec_adoption_counts_labels (col : list (option Z)) :
  map fst (spec_adoption_counts col) = nodup Z.eq_dec (dropna col).
Proof.
  unfold spec_adoption_counts. rewrite map_map. simpl. apply map_id.
Qed.

Lemma counted_perm_spec (col : list (option Z)) :
  Permutation (counted col) (spec_adoption_counts col).
Proof.
  apply NoDup_Permutation.
  - eapply NoDup_map_inv. apply counted_labels_NoDup.
  - apply (NoDup_map_inv fst). rewrite spec_adoption_counts_labels. apply NoDup_nodup.
  - intros [k n]. rewrite counted_In. unfold spec_adoption_counts.
    rewrite in_map_iff. split.
    + intros [Hin ->]. exists k. split; [reflexivity | apply nodup_In, Hin].
    + intros (k' & [= -> ->] & Hin). apply nodup_In in Hin. split; [exact Hin | reflexivity].
Qed.

Lemma fst_leb_sorted (l : list (Z * Z)) :
  StronglySorted (fun a b => fst a <= fst b) (isort (fun a b => fst a <=? fst b) l).
Proof.
  apply (StronglySorted_weaken (fun a b => (fst a <=? fst b) = true)).
  - intros a b. apply Z.leb_le.
  - apply isort_sorted.
    + intros a b. rewrite !Z.leb_le. lia.
    + intros a b c. rewrite !Z.leb_le. lia.
Qed.

Section Adoption_facts.
Context `{SortKind}.

Lemma value_counts_perm (col : list (option Z)) :
  Permutation (counted col) (value_counts col).
Proof. unfold value_counts. apply sort_values_perm. Qed.

(** Whatever the sorting routine does with equal counts, ordering the pairs by
    their pairwise distinct years leaves one possible table. *)
Lemma adoption_years_refines (data : DataFrame) :
  adoption_years data = spec_cumulative_adoption (map Adoption_Year data).
Proof.
  unfold adoption_years, spec_cumulative_adoption, with_cumulative_count.
  set (col := map Adoption_Year data).
  set (sorted := sort_values (fun c : Z * Z => Some (fst c)) true (value_counts col)).
  assert (P : Permutation sorted (isort (fun a b => fst a <=? fst b) (spec_adoption_counts col))).
  { eapply perm_trans; [apply Permutation_sym, sort_values_perm|].
    eapply perm_trans; [apply Permutation_sym, value_counts_perm|].
    eapply perm_trans; [apply counted_perm_spec | apply isort_perm]. }
  assert (E : sorted = isort (fun a b => fst a <=? fst b) (spec_adoption_counts col)).
  { apply (sorted_distinct_unique fst).
    - eapply Permutation_NoDup; [|apply (counted_labels_NoDup col)].
      apply Permutation_map.
      eapply perm_trans; [apply value_counts_perm | apply sort_values_perm].
    - exact P.
    - apply Sorted_StronglySorted.
      + intros a b c. apply Z.le_trans.
      + apply (sort_values_sorted _ (fun c : Z * Z => Some (fst c)) true).
    - apply fst_leb_sorted. }
  rewrite E. reflexivity.
Qed.

End Adoption_facts.

(** C2.  For every input table and whichever way the sorting routine treats
    equal keys, the table [adoption_years] is the count of rows per distinct
    Adoption_Year value, ordered by ascending Year, with the running sum of
    the counts; for the Adoption_Year values 2010, 2010, 2012 it is
    (2010, 2, 2), (2012, 1, 3). *)
Theorem adoption_years_counts_sorted_cumulated `{SortKind} (data : DataFrame) :
  adoption_years data = spec_cumulative_adoption (map Adoption_Year data)
  /\ (map Adoption_Year data = [Some 2010; Some 2010; Some 2012] ->
      adoption_years data = [Adoption.mk 2010 2 2; Adoption.mk 2012 1 3]).
Proof.
  split; [apply adoption_years_refines|].
  intros E. rewrite adoption_years_refines, E. reflexivity.
Qed.

(** The example of C2 on a concrete table, with a concrete sorting routine. *)
Lemma adoption_years_counts_sorted_cumulated_witness :
  @adoption_years stable_kind [adopter (Some 2010); adopter (Some 2010); adopter (Some 2012)]
  = [Adoption.mk 2010 2 2; Adoption.mk 2012 1 3].
Proof.
  apply (@adoption_years_counts_sorted_cumulated stable_kind
           [adopter (Some 2010); adopter (Some 2010); adopter (Some 2012)]).
  reflexivity.
Defined.

(* ================================================================= *)
(** ** The expansion into animation frames (lines 102 to 112) *)

Lemma unique_In {K : Type} `{Key K} (col : list K) (k : K) :
  In k (unique col) <-> In k col.
Proof.
  unfold unique. rewrite in_map_iff. split.
  - intros ([k' g] & E & Hin). simpl in E. subst k'.
    apply factorize_In in Hin. destruct Hin as [-> N].
    apply rows_of_nonempty in N. destruct N as (r & Hr & [= ->]). exact Hr.
  - intros Hin. exists (k, rows_of (fun v => Some v) k col). split; [reflexivity|].
    apply factorize_In. split; [reflexivity|].
    apply rows_of_nonempty. exists k. split; [exact Hin | reflexivity].
Qed.

Lemma unique_NoDup {K : Type} `{Key K} (col : list K) : NoDup (unique col).
Proof. unfold unique. apply factorize_invariant. Qed.

Lemma sorted_NoDup_strict (l : list Z) :
  StronglySorted Z.le l -> NoDup l -> StronglySorted Z.lt l.
Proof.
  induction 1 as [|a l S IH F]; intros ND; constructor;
    inversion ND as [|? ? Hnin ND']; subst.
  - apply IH, ND'.
  - rewrite Forall_forall in *. intros b Hb.
    assert (a <> b) by (intros ->; contradiction).
    specialize (F b Hb). lia.
Qed.

Lemma strict_sorted_NoDup (l : list Z) : StronglySorted Z.lt l -> NoDup l.
Proof.
  induction 1 as [|a l S IH F]; constructor; [|exact IH].
  intros Hin. rewrite Forall_forall in F. specialize (F a Hin). lia.
Qed.

Lemma isort_Z_sorted (l : list Z) : StronglySorted Z.le (isort Z.leb l).
Proof.
  apply (StronglySorted_weaken (fun a b => (a <=? b) = true)).
  - intros a b. apply Z.leb_le.
  - apply isort_sorted.
    + intros a b. rewrite !Z.leb_le. lia.
    + intros a b c. rewrite !Z.leb_le. lia.
Qed.

Lemma all_years_In (adoption_years : list Adoption.row) (Y : Z) :
  In Y (all_years adoption_years)
  <-> exists r, In r adoption_years /\ Adoption.Year r = Y.
Proof.
  unfold all_years. rewrite isort_In, unique_In, in_map_iff.
  split; intros (r & A & B); exists r; split; assumption.
Qed.

Lemma all_years_sorted (adoption_years : list Adoption.row) :
  StronglySorted Z.lt (all_years adoption_years).
Proof.
  unfold all_years. apply sorted_NoDup_strict; [apply isort_Z_sorted|].
  eapply Permutation_NoDup; [apply isort_perm | apply unique_NoDup].
Qed.

Lemma all_years_nonempty (adoption_years : list Adoption.row) :
  adoption_years <> [] -> all_years adoption_years <> [].
Proof.
  destruct adoption_years as [|r l]; [contradiction|]. intros _ E.
  assert (Hin : In (Adoption.Year r) (all_years (r :: l))).
  { apply all_years_In. exists r. split; [left|]; reflexivity. }
  rewrite E in Hin. exact Hin.
Qed.

Lemma fold_left_snoc_map {A B : Type} (f : A -> B) (l : list A) (acc : list B) :
  fold_left (fun expanded y => expanded ++ [f y]) l acc = acc ++ map f l.
Proof.
  revert acc. induction l as [|a l IH]; intros acc; simpl.
  - rewrite app_nil_r. reflexivity.
  - rewrite IH, <- app_assoc. reflexivity.
Qed.

Lemma astype_int_frames (frames : list Frame.row) :
  map (fun r => Frame.mk (astype_int (Frame.Year r)) (Frame.Count r)
                         (Frame.Cumulative_Count r) (astype_int (Frame.Animation_Year r)))
      frames
  = frames.
Proof.
  rewrite <- (map_id frames) at 2. apply map_ext. intros [y c cc a]. reflexivity.
Qed.

(** The loop and the concatenation together. *)
Lemma expanded_adoption_data_eq (adoption_years : list Adoption.row) :
  expanded_adoption_data adoption_years
  = match all_years adoption_years with
    | [] => Raise (ValueError "No objects to concatenate")
    | _ => Ok (flat_map (temp_data adoption_years) (all_years adoption_years))
    end.
Proof.
  unfold expanded_adoption_data, expanded_data.
  rewrite fold_left_snoc_map. simpl.
  destruct (all_years adoption_years) as [|Y years]; [reflexivity|].
  simpl map. unfold pd_concat, bind.
  rewrite astype_int_frames, flat_map_concat_map. reflexivity.
Qed.

Lemma temp_data_tag (adoption_years : list Adoption.row) (Y : Z) (f : Frame.row) :
  In f (temp_data adoption_years Y) -> Frame.Animation_Year f = Y.
Proof.
  unfold temp_data. rewrite in_map_iff. intros (r & <- & _). reflexivity.
Qed.

Lemma filter_none {A : Type} (p : A -> bool) (l : list A) :
  (forall a, In a l -> p a = false) -> filter p l = [].
Proof.
  induction l as [|a l IH]; intros Hall; simpl; [reflexivity|].
  rewrite (Hall a (or_introl eq_refl)). apply IH.
  intros b Hb. apply Hall. right. exact Hb.
Qed.

Lemma filter_every {A : Type} (p : A -> bool) (l : list A) :
  (forall a, In a l -> p a = true) -> filter p l = l.
Proof.
  intros Hall. apply filter_all. apply forallb_forall. exact Hall.
Qed.

Lemma frames_of_absent_year (adoption_years : list Adoption.row) (years : list Z) (Y : Z) :
  ~ In Y years ->
  filter (fun f => Frame.Animation_Year f =? Y) (flat_map (temp_data adoption_years) years) = [].
Proof.
  intros Hout. apply filter_none. intros f Hin.
  apply in_flat_map in Hin. destruct Hin as (Y' & HY' & Hf).
  apply temp_data_tag in Hf. apply Z.eqb_neq. intros E. subst. contradiction.
Qed.

(** The frame of one animation year inside the concatenation. *)
Lemma frames_of_year (adoption_years : list Adoption.row) (years : list Z) (Y : Z) :
  NoDup years -> In Y years ->
  filter (fun f => Frame.Animation_Year f =? Y) (flat_map (temp_data adoption_years) years)
  = temp_data adoption_years Y.
Proof.
  induction years as [|Y0 years IH]; intros ND Hin; [destruct Hin|].
  inversion ND as [|? ? Hnin ND']; subst. simpl. rewrite filter_app.
  destruct (Z.eq_dec Y0 Y) as [->|N].
  - rewrite frames_of_absent_year by exact Hnin. rewrite app_nil_r.
    apply filter_every. intros f Hf. apply temp_data_tag in Hf. apply Z.eqb_eq, Hf.
  - destruct Hin as [E|Hin]; [contradiction|].
    rewrite (IH ND' Hin).
    rewrite filter_none; [reflexivity|].
    intros f Hf. apply temp_data_tag in Hf. apply Z.eqb_neq. congruence.
Qed.

(** C1, as amended.  For every cumulative adoption table with at least one
    row, the expansion returns the concatenation, over the distinct Year
    values Y of the table in ascending order, of the snapshot of Y: the rows
    of the table with Year <= Y, in table order, each tagged with
    Animation_Year = Y (Year and Animation_Year as integers).  The rows of the
    output tagged Y are exactly that snapshot.  When all rows of the table have
    the same Year, the output is the one frame that is the whole table. *)
Theorem expansion_concatenates_snapshots (adoption_years : list Adoption.row) :
  adoption_years <> [] ->
  exists years frames,
    expanded_adoption_data adoption_years = Ok frames
    /\ StronglySorted Z.lt years
    /\ (forall Y, In Y years <-> exists r, In r adoption_years /\ Adoption.Year r = Y)
    /\ frames
       = flat_map
           (fun Y =>
              map (fun r => Frame.mk (Adoption.Year r) (Adoption.Count r)
                                     (Adoption.Cumulative_Count r) Y)
                  (filter (fun r => Adoption.Year r <=? Y) adoption_years))
           years
    /\ (forall Y, In Y years ->
          filter (fun f => Frame.Animation_Year f =? Y) frames
          = map (fun r => Frame.mk (Adoption.Year r) (Adoption.Count r)
                                   (Adoption.Cumulative_Count r) Y)
                (filter (fun r => Adoption.Year r <=? Y) adoption_years))
    /\ (forall Y0,
          (forall r, In r adoption_years -> Adoption.Year r = Y0) ->
          years = [Y0]
          /\ frames = map (fun r => Frame.mk (Adoption.Year r) (Adoption.Count r)
                                             (Adoption.Cumulative_Count r) Y0)
                          adoption_years).
Proof.
  intros N.
  exists (all_years adoption_years), (flat_map (temp_data adoption_years) (all_years adoption_years)).
  assert (S := all_years_sorted adoption_years).
  split.
  { rewrite expanded_adoption_data_eq.
    destruct (all_years adoption_years) eqn:E; [|reflexivity].
    exfalso. exact (all_years_nonempty _ N E). }
  split; [exact S|]. split; [apply all_years_In|]. split; [reflexivity|]. split.
  - intros Y HY. apply (frames_of_year adoption_years); [|exact HY].
    apply strict_sorted_NoDup, S.
  - intros Y0 Hsame.
    assert (E : all_years adoption_years = [Y0]).
    { assert (Hall : forall Y, In Y (all_years adoption_years) -> Y = Y0).
      { intros Y HY. apply all_years_In in HY. destruct HY as (r & Hr & <-).
        apply Hsame, Hr. }
      assert (NE := all_years_nonempty _ N).
      destruct (all_years adoption_years) as [|Y1 [|Y2 years]]; [contradiction| |].
      - rewrite (Hall Y1 (or_introl eq_refl)). reflexivity.
      - exfalso. inversion S as [|? ? _ F]; subst.
        rewrite Forall_forall in F. specialize (F Y2 (or_introl eq_refl)).
        rewrite (Hall Y1 (or_introl eq_refl)) in F.
        rewrite (Hall Y2 (or_intror (or_introl eq_refl))) in F. lia. }
    split; [exact E|]. rewrite E. simpl. rewrite app_nil_r. unfold temp_data.
    rewrite filter_every; [reflexivity|].
    intros r Hr. rewrite (Hsame r Hr). apply Z.leb_refl.
Qed.

(** The table of the example: frames 2010 and 2012. *)
Lemma expansion_concatenates_snapshots_witness :
  exists years frames,
    expanded_adoption_data [Adoption.mk 2010 2 2; Adoption.mk 2012 1 3] = Ok frames
    /\ (forall Y, In Y years <-> Y = 2010 \/ Y = 2012)
    /\ filter (fun f => Frame.Animation_Year f =? 2012) frames
       = [Frame.mk 2010 2 2 2012; Frame.mk 2012 1 3 2012].
Proof.
  destruct (expansion_concatenates_snapshots [Adoption.mk 2010 2 2; Adoption.mk 2012 1 3])
    as (years & frames & E & _ & HY & _ & Hsnap & _); [discriminate|].
  exists years, frames. split; [exact E|]. split.
  - intros Y. rewrite HY. simpl. split.
    + intros (r & [<-|[<-|[]]] & <-); simpl; auto.
    + intros [->| ->]; eexists; split; [left | | right; left | ]; reflexivity.
  - rewrite Hsnap; [reflexivity|].
    apply HY. eexists. split; [right; left|]; reflexivity.
Defined.

(** Against C1 as stated: for the table without rows the concatenation is
    refused, so there is no output at all. *)
Lemma expansion_of_empty_table_raises :
  expanded_adoption_data [] = Raise (ValueError "No objects to concatenate")
  /\ forall frames, expanded_adoption_data [] <> Ok frames.
Proof. split; [reflexivity | discriminate]. Qed.

(* ================================================================= *)
(** ** The size of the expanded table *)

Lemma cumsum_from_length (acc : Z) (col : list Z) :
  List.length (cumsum_from acc col) = List.length col.
Proof.
  revert acc. induction col as [|x col IH]; intros acc; simpl; [reflexivity|].
  rewrite IH. reflexivity.
Qed.

Lemma combine_fst {A B : Type} (l : list A) (l' : list B) :
  List.length l = List.length l' -> map fst (combine l l') = l.
Proof.
  revert l'. induction l as [|a l IH]; intros [|b l'] E; simpl in *;
    try reflexivity; try discriminate.
  rewrite IH; [reflexivity | lia].
Qed.

Lemma with_cumulative_count_years (pairs : list (Z * Z)) :
  map Adoption.Year (with_cumulative_count pairs) = map fst pairs.
Proof.
  unfold with_cumulative_count. rewrite map_map. simpl.
  rewrite <- (map_map fst fst). rewrite combine_fst; [reflexivity|].
  unfold cumsum. rewrite cumsum_from_length, length_map. reflexivity.
Qed.

Lemma sorted_Z_unique (l1 l2 : list Z) :
  NoDup l1 -> Permutation l1 l2 ->
  StronglySorted Z.le l1 -> StronglySorted Z.le l2 -> l1 = l2.
Proof.
  intros ND P S1 S2. apply (sorted_distinct_unique (fun z => z)); try assumption.
  rewrite map_id. exact ND.
Qed.

(** On a table whose years increase strictly from row to row, [all_years] is
    the Year column. *)
Lemma all_years_of_sorted (adoption_years : list Adoption.row) :
  StronglySorted Z.lt (map Adoption.Year adoption_years) ->
  all_years adoption_years = map Adoption.Year adoption_years.
Proof.
  intros S. unfold all_years. symmetry.
  assert (ND := strict_sorted_NoDup _ S).
  apply sorted_Z_unique.
  - exact ND.
  - eapply perm_trans; [|apply isort_perm].
    apply NoDup_Permutation; [exact ND | apply unique_NoDup|].
    intros Y. symmetry. apply unique_In.
  - apply (StronglySorted_weaken Z.lt); [intros a b; lia | exact S].
  - apply isort_Z_sorted.
Qed.

(** ... and the snapshot of the year of row [i] is the first [i + 1] rows. *)
Lemma sorted_prefix_count (adoption_years : list Adoption.row) (i : nat) :
  StronglySorted Z.lt (map Adoption.Year adoption_years) ->
  (i < List.length adoption_years)%nat ->
  List.length (temp_data adoption_years (nth i (map Adoption.Year adoption_years) 0)) = S i.
Proof.
  unfold temp_data. rewrite length_map.
  revert i. induction adoption_years as [|a l IH]; intros i S Hi; simpl in *; [lia|].
  inversion S as [|? ? S' F]; subst. rewrite Forall_forall in F.
  destruct i as [|i].
  - rewrite Z.leb_refl. simpl. f_equal.
    rewrite filter_none; [reflexivity|].
    intros r Hr. apply Z.leb_gt. apply F. apply in_map, Hr.
  - assert (Hy : In (nth i (map Adoption.Year l) 0) (map Adoption.Year l)).
    { apply nth_In. rewrite length_map. lia. }
    rewrite (proj2 (Z.leb_le _ _)) by (specialize (F _ Hy); lia).
    simpl. f_equal. apply IH; [exact S' | lia].
Qed.

Lemma flat_map_triangular {A B : Type} (f : A -> list B) (d : A) (l : list A) :
  (forall i, (i < List.length l)%nat -> List.length (f (nth i l d)) = S i) ->
  (2 * List.length (flat_map f l) = List.length l * (List.length l + 1))%nat.
Proof.
  induction l as [|a l IH] using rev_ind; intros Hall; [reflexivity|].
  rewrite flat_map_app, !length_app. simpl. rewrite app_nil_r.
  assert (Ea : List.length (f a) = S (List.length l)).
  { specialize (Hall (List.length l)). rewrite nth_middle in Hall.
    apply Hall. rewrite length_app. simpl. lia. }
  assert (El : (2 * List.length (flat_map f l) = List.length l * (List.length l + 1))%nat).
  { apply IH. intros i Hi. specialize (Hall i).
    rewrite app_nth1 in Hall by exact Hi. apply Hall.
    rewrite length_app. simpl. lia. }
  rewrite Ea. nia.
Qed.

Section Expansion_size.
Context `{SortKind}.
Variable data : DataFrame.

Let col : list (option Z) := map Adoption_Year data.
Let pairs : list (Z * Z) := isort (fun a b => fst a <=? fst b) (spec_adoption_counts col).

Lemma sorted_pairs_years :
  map fst pairs = isort Z.leb (nodup Z.eq_dec (dropna col)).
Proof.
  assert (P : Permutation (map fst pairs) (nodup Z.eq_dec (dropna col))).
  { rewrite <- (spec_adoption_counts_labels col).
    apply Permutation_map, Permutation_sym, isort_perm. }
  apply sorted_Z_unique.
  - eapply Permutation_NoDup; [apply Permutation_sym, P | apply NoDup_nodup].
  - eapply perm_trans; [exact P | apply isort_perm].
  - apply StronglySorted_map, fst_leb_sorted.
  - apply isort_Z_sorted.
Qed.

Lemma adoption_years_column :
  map Adoption.Year (adoption_years data) = isort Z.leb (nodup Z.eq_dec (dropna col)).
Proof.
  rewrite adoption_years_refines. unfold spec_cumulative_adoption.
  rewrite with_cumulative_count_years. apply sorted_pairs_years.
Qed.

Lemma adoption_years_strict :
  StronglySorted Z.lt (map Adoption.Year (adoption_years data)).
Proof.
  rewrite adoption_years_column.
  apply sorted_NoDup_strict; [apply isort_Z_sorted|].
  eapply Permutation_NoDup; [apply isort_perm | apply NoDup_nodup].
Qed.

Lemma adoption_years_length :
  List.length (adoption_years data) = List.length (nodup Z.eq_dec (dropna col)).
Proof.
  rewrite <- (length_map Adoption.Year), adoption_years_column.
  symmetry. apply Permutation_length, isort_perm.
Qed.

End Expansion_size.

(** C10, as amended.  When the non-missing Adoption_Year cells of the input
    have k >= 1 distinct values, the expanded adoption table exists and has
    exactly k * (k + 1) / 2 rows: the frame of the distinct year at position i
    in ascending order (counting from 0) has exactly i + 1 rows. *)
Theorem expansion_has_triangular_size `{SortKind} (data : DataFrame) :
  let distinct := nodup Z.eq_dec (dropna (map Adoption_Year data)) in
  let k := List.length distinct in
  (1 <= k)%nat ->
  exists frames,
    adoption_expansion data = Ok frames
    /\ List.length frames = (k * (k + 1) / 2)%nat
    /\ forall i, (i < k)%nat ->
         List.length
           (filter (fun f => Frame.Animation_Year f =? nth i (isort Z.leb distinct) 0) frames)
         = S i.
Proof.
  intros distinct k Hk.
  assert (Hs := adoption_years_strict data).
  assert (Ecol := adoption_years_column data).
  assert (Elen : List.length (adoption_years data) = k) by apply adoption_years_length.
  assert (Eall := all_years_of_sorted _ Hs).
  exists (flat_map (temp_data (adoption_years data)) (map Adoption.Year (adoption_years data))).
  split.
  { unfold adoption_expansion. rewrite expanded_adoption_data_eq, Eall.
    destruct (adoption_years data) as [|r l]; [simpl in Elen; lia | reflexivity]. }
  assert (Hsnap : forall i, (i < List.length (map Adoption.Year (adoption_years data)))%nat ->
            List.length (temp_data (adoption_years data)
                           (nth i (map Adoption.Year (adoption_years data)) 0)) = S i).
  { intros i Hi. apply sorted_prefix_count; [exact Hs|].
    rewrite length_map in Hi. exact Hi. }
  split.
  - apply Nat.div_unique_exact; [discriminate|].
    rewrite (flat_map_triangular _ 0 _ Hsnap), length_map, Elen. reflexivity.
  - intros i Hi. fold distinct in Ecol. rewrite <- Ecol.
    rewrite frames_of_year.
    + apply Hsnap. rewrite length_map, Elen. exact Hi.
    + apply strict_sorted_NoDup, Hs.
    + apply nth_In. rewrite length_map, Elen. exact Hi.
Qed.

(** Two distinct adoption years: three rows, one in the first frame and two
    in the second. *)
Lemma expansion_has_triangular_size_witness :
  exists frames,
    @adoption_expansion stable_kind
      [adopter (Some 2012); adopter (Some 2010); adopter None; adopter (Some 2010)]
    = Ok frames
    /\ List.length frames = 3%nat.
Proof.
  destruct (@expansion_has_triangular_size stable_kind
              [adopter (Some 2012); adopter (Some 2010); adopter None; adopter (Some 2010)])
    as (frames & E & L & _).
  - vm_compute. lia.
  - exists frames. split; [exact E | exact L].
Defined.

(** Against C10 as stated: with k = 0 distinct adoption years there is no
    expanded table, of 0 rows or otherwise. *)
Lemma expansion_without_adoption_years_raises :
  List.length (nodup Z.eq_dec (dropna (map Adoption_Year [adopter None]))) = 0%nat
  /\ forall kind : SortKind,
       @adoption_expansion kind [adopter None]
       = Raise (ValueError "No objects to concatenate").
Proof.
  split; [reflexivity|].
  intros kind. unfold adoption_expansion.
  rewrite adoption_years_refines. reflexivity.
Qed.

(* ================================================================= *)
(** ** Running the aggregations again *)

(** C8.  Two runs of the four aggregations on the same table and selections
    give identical tables (or the same exception), also when the two runs are
    served by sorting routines that treat equal keys differently: each
    transform is a function of its input alone. *)
Theorem aggregations_deterministic (run1 run2 : SortKind) (data : DataFrame)
  (selected_year : option Z) (selected_variable : VariableName) :
  @aggregations run1 data selected_year selected_variable
  = @aggregations run2 data selected_year selected_variable.
Proof.
  unfold aggregations, adoption_expansion.
  rewrite (@adoption_years_refines run1), (@adoption_years_refines run2).
  reflexivity.
Qed.

(** Two runs, one served by a stable routine and one by a routine that
    reverses equal keys. *)
Lemma aggregations_deterministic_witness :
  @aggregations stable_kind
     [adopter (Some 2012); brazil_2015 100; india_2015 None] (Some 2015) (inl Var.Cost_Savings_USD)
  = @aggregations reversing_kind
      [adopter (Some 2012); brazil_2015 100; india_2015 None] (Some 2015) (inl Var.Cost_Savings_USD).
Proof. exact (aggregations_deterministic stable_kind reversing_kind _ _ _). Defined.

(* ================================================================= *)
(** ** Label orders *)

#[export] Instance KeyOrder_Z : KeyOrder Z.
Proof.
  split; simpl; intros *; rewrite ?Z.leb_le; lia.
Qed.

#[export] Instance KeyOrder_string : KeyOrder string.
Proof.
  split; simpl.
  - apply String.leb_total.
  - apply string_leb_trans.
  - apply String.leb_antisym.
Qed.

#[export] Instance KeyOrder_pair {A B : Type} `{KeyOrder A} `{KeyOrder B} : KeyOrder (A * B).
Proof.
  split; simpl; unfold pair_leb.
  - intros [a b] [a' b']. simpl.
    destruct (key_eqb a a') eqn:E.
    + apply key_eqb_eq in E. subst a'. rewrite key_eqb_refl. apply key_leb_total.
    + rewrite key_eqb_neq; [apply key_leb_total|].
      intros ->. rewrite key_eqb_refl in E. discriminate.
  - intros [a1 b1] [a2 b2] [a3 b3]. simpl.
    destruct (key_eqb a1 a2) eqn:E12; destruct (key_eqb a2 a3) eqn:E23;
      try (apply key_eqb_eq in E12; subst a2);
      try (apply key_eqb_eq in E23; subst a3).
    + rewrite key_eqb_refl. apply key_leb_trans.
    + rewrite E23. intros _ L. exact L.
    + rewrite E12. intros L _. exact L.
    + intros L12 L23. destruct (key_eqb a1 a3) eqn:E13.
      * apply key_eqb_eq in E13. subst a3.
        rewrite (key_leb_antisym _ _ L12 L23), key_eqb_refl in E12. discriminate.
      * exact (key_leb_trans _ _ _ L12 L23).
  - intros [a b] [a' b']. simpl.
    destruct (key_eqb a a') eqn:E.
    + apply key_eqb_eq in E. subst a'. rewrite key_eqb_refl.
      intros L L'. rewrite (key_leb_antisym _ _ L L'). reflexivity.
    + rewrite key_eqb_neq by (intros ->; rewrite key_eqb_refl in E; discriminate).
      intros L L'. rewrite (key_leb_antisym _ _ L L'), key_eqb_refl in E. discriminate.
Qed.

Section Ordered_labels.
Context {K : Type} `{KeyOrder K}.

Lemma key_leb_refl (a : K) : key_leb a a = true.
Proof. destruct (key_leb_total a a); assumption. Qed.

Lemma key_lt_of_sorted_NoDup (l : list K) :
  StronglySorted (fun a b => key_leb a b = true) l -> NoDup l -> StronglySorted key_lt l.
Proof.
  induction 1 as [|a l S IH F]; intros ND; constructor;
    inversion ND as [|? ? Hnin ND']; subst.
  - apply IH, ND'.
  - rewrite Forall_forall in *. intros b Hb. split; [apply F, Hb|].
    intros ->. contradiction.
Qed.

(** Two ordered duplicate-free lists with the same elements are equal. *)
Lemma sorted_set_unique (l1 l2 : list K) :
  StronglySorted (fun a b => key_leb a b = true) l1 ->
  StronglySorted (fun a b => key_leb a b = true) l2 ->
  NoDup l1 -> NoDup l2 ->
  (forall k, In k l1 <-> In k l2) ->
  l1 = l2.
Proof.
  revert l2. induction l1 as [|a l1 IH]; intros l2 S1 S2 N1 N2 E.
  - destruct l2 as [|b l2]; [reflexivity|].
    exfalso. apply (proj2 (E b)). left. reflexivity.
  - destruct l2 as [|b l2].
    { exfalso. apply (proj1 (E a)). left. reflexivity. }
    inversion S1 as [|? ? S1' F1]; inversion S2 as [|? ? S2' F2]; subst.
    inversion N1 as [|? ? Hn1 N1']; inversion N2 as [|? ? Hn2 N2']; subst.
    rewrite Forall_forall in F1, F2.
    assert (Eab : a = b).
    { destruct (proj1 (E a) (or_introl eq_refl)) as [->|Ha]; [reflexivity|].
      destruct (proj2 (E b) (or_introl eq_refl)) as [->|Hb]; [reflexivity|].
      apply key_leb_antisym; [apply F1, Hb | apply F2, Ha]. }
    subst b. f_equal. apply IH; try assumption.
    intros k. split; intros Hk.
    + destruct (proj1 (E k) (or_intror Hk)) as [->|Hk']; [contradiction | exact Hk'].
    + destruct (proj2 (E k) (or_intror Hk)) as [->|Hk']; [contradiction | exact Hk'].
Qed.

Context {V : Type}.
Variable label : V -> option K.

Lemma groupby_labels_sorted (rows : list V) :
  StronglySorted (fun a b => key_leb a b = true) (map fst (groupby label rows)).
Proof.
  unfold groupby. apply StronglySorted_map.
  apply (isort_sorted _ (fun g g' : K * list V => key_leb (fst g) (fst g'))).
  - intros a b. apply key_leb_total.
  - intros a b c. apply key_leb_trans.
Qed.

Lemma groupby_labels_strict (rows : list V) :
  StronglySorted key_lt (map fst (groupby label rows)).
Proof.
  apply key_lt_of_sorted_NoDup; [apply groupby_labels_sorted | apply groupby_NoDup].
Qed.

(** The groups of a table, label by label. *)
Lemma groupby_canonical (rows : list V) :
  groupby label rows
  = map (fun k => (k, rows_of label k rows)) (map fst (groupby label rows)).
Proof.
  rewrite map_map. rewrite <- (map_id (groupby label rows)) at 1.
  apply map_ext_in. intros [k g] Hin. apply groupby_In in Hin.
  destruct Hin as [-> _]. reflexivity.
Qed.

End Ordered_labels.

Lemma pair_key_lt_label_lt (a b : Z * string) : key_lt a b -> label_lt a b.
Proof.
  destruct a as [y e], b as [y' e']. unfold key_lt, label_lt. simpl.
  unfold pair_leb. simpl. intros [L N].
  destruct (Z.eqb_spec y y') as [->|Ny].
  - right. split; [reflexivity|]. unfold String.leb in L. unfold String.ltb.
    destruct (String.compare e e') eqn:C; [|reflexivity|discriminate].
    apply String.compare_eq_iff in C. subst. contradiction.
  - left. apply Z.leb_le in L. lia.
Qed.

Lemma string_key_lt_ltb (a b : string) : key_lt a b -> String.ltb a b = true.
Proof.
  unfold key_lt. simpl. intros [L N]. unfold String.leb in L. unfold String.ltb.
  destruct (String.compare a b) eqn:C; [|reflexivity|discriminate].
  apply String.compare_eq_iff in C. contradiction.
Qed.

(* ================================================================= *)
(** ** Savings by income level (line 66) and the order of the rows *)

(** X1. [avg_savings] has one row per (Year, Income_Level) pair that some
    input row carries, holding the arithmetic mean of the non-missing
    Cost_Savings_USD cells of the rows of the pair; rows with a missing Year or
    Income_Level count for no pair. *)
Theorem avg_savings_mean_per_present_pair (data : DataFrame) :
  NoDup (map fst (avg_savings data))
  /\ forall (y : Z) (i : string) (x : float),
       In (y, i, x) (avg_savings data)
       <-> (exists r, In r data /\ Year r = Some y /\ Income_Level r = Some i)
           /\ x = arithmetic_mean
                    (filter notna
                       (map Cost_Savings_USD
                          (filter (fun r => match Year r, Income_Level r with
                                            | Some y', Some i' => (y' =? y) && String.eqb i' i
                                            | _, _ => false
                                            end) data))).
Proof.
  split; [apply groupby_mean_NoDup|].
  intros y i x. rewrite avg_savings_In.
  replace (rows_of (fun r => both (Year r) (Income_Level r)) (y, i) data)
    with (filter (fun r => match Year r, Income_Level r with
                           | Some y', Some i' => (y' =? y) && String.eqb i' i
                           | _, _ => false
                           end) data); [reflexivity|].
  unfold rows_of. apply filter_ext. intros r. unfold has_label, both.
  destruct (Year r), (Income_Level r); reflexivity.
Qed.

(** Low income in 2015 with savings 12 and 12, in 2016 a high income with 30,
    a middle income of 2015 without a saving figure next to one with 40: the
    mean of the low incomes of 2015 is 12, that of the middle incomes 40, the
    missing figure and the other year left aside. *)
Lemma avg_savings_mean_per_present_pair_witness :
  In (2015, "Low"%string, 12%float)
     (avg_savings [brazil_2015 100; brazil_2016 999; missing_savings; india_2015 None;
                   brazil_2015 200])
  /\ In (2015, "Middle"%string, 40%float)
        (avg_savings [brazil_2015 100; brazil_2016 999; missing_savings; india_2015 None;
                      brazil_2015 200])
  /\ NoDup (map fst (avg_savings [brazil_2015 100; brazil_2016 999; missing_savings;
                                  india_2015 None; brazil_2015 200])).
Proof.
  destruct (avg_savings_mean_per_present_pair
              [brazil_2015 100; brazil_2016 999; missing_savings; india_2015 None;
               brazil_2015 200]) as (ND & Rows).
  split; [|split; [|exact ND]].
  - apply Rows. split; [|vm_compute; reflexivity].
    exists (brazil_2015 100). repeat split. left. reflexivity.
  - apply Rows. split; [|vm_compute; reflexivity].
    exists missing_savings. repeat split. do 2 right. left. reflexivity.
Defined.

(** X2. The rows of [avg_usage] and of [avg_savings] come in strictly
    ascending dictionary order of their (Year, category) labels: by Year, and
    within a Year by the text of the category. *)
Theorem avg_tables_in_label_order (data : DataFrame) :
  StronglySorted (fun a b => label_lt (fst a) (fst b)) (avg_usage data)
  /\ StronglySorted (fun a b => label_lt (fst a) (fst b)) (avg_savings data).
Proof.
  assert (G : forall (label : Row -> option (Z * string)) column,
             StronglySorted (fun a b : Z * string * float => label_lt (fst a) (fst b))
                            (groupby_mean label column data)).
  { intros label column. apply StronglySorted_unmap.
    unfold groupby_mean. rewrite map_map. simpl.
    apply (StronglySorted_weaken key_lt); [apply pair_key_lt_label_lt|].
    apply (groupby_labels_strict label data). }
  split; apply G.
Qed.

(** X3. Whenever the map view returns a table, numeric or categorical, its
    rows come in strictly ascending order of the country names. *)
Theorem map_view_rows_in_country_order (data : DataFrame) (selected_year : option Z)
  (selected_variable : VariableName) (title : string) (country_avg : list (string * Cell)) :
  map_view data selected_year selected_variable = Ok (title, country_avg) ->
  StronglySorted (fun a b => String.ltb (fst a) (fst b) = true) country_avg.
Proof.
  intros E. apply (StronglySorted_unmap (fun a b => String.ltb a b = true) fst).
  apply (StronglySorted_weaken key_lt); [apply string_key_lt_ltb|].
  destruct selected_variable as [v|v].
  - rewrite map_view_numeric in E. injection E as _ <-.
    rewrite map_fst_pair. unfold groupby_mean. rewrite map_map. simpl.
    apply (groupby_labels_strict Country).
  - rewrite map_view_categorical in E.
    destruct (groupby_agg _ _ _ _) as [out|e] eqn:Eg; [|discriminate].
    simpl in E. injection E as _ <-. rewrite map_fst_pair.
    unfold groupby_agg in Eg. apply mapM_Ok in Eg.
    apply (groupby_agg_rows (categorical_column v) (fun x => at0 (mode x))) in Eg.
    destruct Eg as [-> _]. apply (groupby_labels_strict Country).
Qed.

(** Brazil before Argentina in the table, Argentina before Brazil on the map. *)
Lemma map_view_rows_in_country_order_witness :
  StronglySorted (fun a b => String.ltb (fst a) (fst b) = true)
    [("Argentina"%string, Text "Rural"%string); ("Brazil"%string, Text "Urban"%string)].
Proof.
  apply (map_view_rows_in_country_order [brazil_2015 100; argentina_2015] (Some 2015)
           (inr Var.Urban_Rural) "Mode of Urban_Rural by Country"%string).
  reflexivity.
Defined.

(* ================================================================= *)
(** ** When the transformations raise *)

(** X4. The categorical map view raises exactly when some country of the
    selected year has no non-missing cell of the selected variable, and what
    it raises is then [KeyError: 0]; in every other case it returns a
    table. *)
Theorem map_view_categorical_raises_iff (data : DataFrame) (selected_year : option Z)
  (v : Var.categorical) :
  (map_view data selected_year (inr v) = Raise (KeyError 0)
   <-> exists c y,
         selected_year = Some y
         /\ (exists r, In r data /\ Year r = Some y /\ Country r = Some c)
         /\ forall r, In r data -> Year r = Some y -> Country r = Some c ->
                      (match v with
                       | Var.Income_Level => Income_Level
                       | Var.Urban_Rural => Urban_Rural
                       end) r = None)
  /\ (forall e, map_view data selected_year (inr v) = Raise e -> e = KeyError 0)
  /\ ((forall c r y,
          In r data -> selected_year = Some y -> Year r = Some y -> Country r = Some c ->
          exists r' m,
            In r' data /\ Year r' = Some y /\ Country r' = Some c
            /\ (match v with
                | Var.Income_Level => Income_Level
                | Var.Urban_Rural => Urban_Rural
                end) r' = Some m) ->
      exists country_avg,
        map_view data selected_year (inr v)
        = Ok (match v with
              | Var.Income_Level => "Mode of Income_Level by Country"
              | Var.Urban_Rural => "Mode of Urban_Rural by Country"
              end%string,
              country_avg)).
Proof.
  split; [split|split].
  - intros E. apply (map_view_categorical_Raise _ _ _ _ E).
  - intros (c & y & Hs & P & Hall).
    exact (map_view_categorical_KeyError data selected_year v c y Hs P Hall).
  - intros e E. apply (map_view_categorical_Raise _ _ _ _ E).
  - apply map_view_categorical_returns.
Qed.

(** India in 2015 without an Urban_Rural cell, next to Brazil in 2015 and to
    India in 2016 with one: the view of 2015 raises for Urban_Rural, and
    returns a table for Income_Level, which India has. *)
Lemma map_view_categorical_raises_iff_witness :
  map_view [brazil_2015 100; india_2015 None; india_2016] (Some 2015) (inr Var.Urban_Rural)
  = Raise (KeyError 0)
  /\ exists country_avg,
       map_view [brazil_2015 100; india_2015 None; india_2016] (Some 2015)
                (inr Var.Income_Level)
       = Ok ("Mode of Income_Level by Country"%string, country_avg).
Proof.
  split.
  - apply (proj1 (map_view_categorical_raises_iff
                    [brazil_2015 100; india_2015 None; india_2016] (Some 2015)
                    Var.Urban_Rural)).
    exists "India"%string, 2015. split; [reflexivity|]. split.
    + exists (india_2015 None). repeat split. right. left. reflexivity.
    + intros r Hin Hy Hc. simpl in Hin.
      destruct Hin as [<-|[<-|[<-|[]]]]; simpl in Hy, Hc; try discriminate. reflexivity.
  - apply (proj2 (proj2 (map_view_categorical_raises_iff
                           [brazil_2015 100; india_2015 None; india_2016] (Some 2015)
                           Var.Income_Level))).
    intros c r y Hin [= <-] Hy Hc. simpl in Hin.
    destruct Hin as [<-|[<-|[<-|[]]]]; simpl in Hy, Hc; try discriminate;
      injection Hc as <-.
    + exists (brazil_2015 100), "Low"%string. repeat split. left. reflexivity.
    + exists (india_2015 None), "Middle"%string. repeat split. right. left. reflexivity.
Defined.

Lemma nodup_nil {A : Type} (dec : forall a b : A, {a = b} + {a <> b}) (l : list A) :
  nodup dec l = [] -> l = [].
Proof.
  destruct l as [|a l]; [reflexivity|]. intros E. exfalso.
  assert (Hin : In a (nodup dec (a :: l))) by (apply nodup_In; left; reflexivity).
  rewrite E in Hin. exact Hin.
Qed.

Lemma adoption_years_nil `{SortKind} (data : DataFrame) :
  adoption_years data = [] <-> forall r, In r data -> Adoption_Year r = None.
Proof.
  assert (L := adoption_years_length data).
  assert (N : dropna (map Adoption_Year data) = []
              <-> forall r, In r data -> Adoption_Year r = None).
  { rewrite dropna_nil. split.
    - intros Hall r Hr. apply Hall, in_map, Hr.
    - intros Hall c Hc. apply in_map_iff in Hc. destruct Hc as (r & <- & Hr).
      apply Hall, Hr. }
  rewrite <- N. split.
  - intros E. rewrite E in L. simpl in L. symmetry in L.
    apply length_zero_iff_nil in L. apply (nodup_nil Z.eq_dec), L.
  - intros E. rewrite E in L. simpl in L. apply length_zero_iff_nil, L.
Qed.

Lemma adoption_expansion_Ok `{SortKind} (data : DataFrame) :
  (exists r, In r data /\ Adoption_Year r <> None) ->
  adoption_expansion data
  = Ok (flat_map (temp_data (adoption_years data)) (all_years (adoption_years data))).
Proof.
  intros (r & Hr & Hy). unfold adoption_expansion. rewrite expanded_adoption_data_eq.
  assert (NE : all_years (adoption_years data) <> []).
  { apply all_years_nonempty. intros E. apply Hy.
    apply (proj1 (adoption_years_nil data) E), Hr. }
  destruct (all_years (adoption_years data)); [contradiction | reflexivity].
Qed.

(** X5. The adoption expansion raises exactly when no row of the table has an
    Adoption_Year: [pd.concat] then gets no frame and raises [ValueError].
    With at least one Adoption_Year it returns a table. *)
Theorem adoption_expansion_raises_iff `{SortKind} (data : DataFrame) :
  (adoption_expansion data = Raise (ValueError "No objects to concatenate")
   <-> forall r, In r data -> Adoption_Year r = None)
  /\ ((exists r, In r data /\ Adoption_Year r <> None) ->
      exists frames, adoption_expansion data = Ok frames).
Proof.
  split; [split|].
  - intros E. apply adoption_years_nil.
    destruct (adoption_years data) as [|r l] eqn:Ea; [reflexivity|].
    unfold adoption_expansion in E. rewrite expanded_adoption_data_eq, Ea in E.
    assert (NE : all_years (r :: l) <> []) by (apply all_years_nonempty; discriminate).
    destruct (all_years (r :: l)); [contradiction | discriminate].
  - intros Hall. apply adoption_years_nil in Hall.
    unfold adoption_expansion. rewrite Hall. reflexivity.
  - intros P. eexists. apply adoption_expansion_Ok, P.
Qed.

(** A table whose only row has no Adoption_Year, under the reversing
    routine. *)
Lemma adoption_expansion_raises_iff_witness :
  @adoption_expansion reversing_kind [adopter None]
  = Raise (ValueError "No objects to concatenate").
Proof.
  apply (proj1 (@adoption_expansion_raises_iff reversing_kind [adopter None])).
  intros r [<-|[]]. reflexivity.
Defined.

(* ================================================================= *)
(** ** What the adoption table counts (lines 94 to 112 and 121) *)

Lemma combine_cumsum_In (acc : Z) (ps : list (Z * Z)) (p : Z * Z) (c : Z) :
  In (p, c) (combine ps (cumsum_from acc (map snd ps)))
  <-> exists pre post, ps = pre ++ p :: post /\ c = acc + sumZ (map snd pre) + snd p.
Proof.
  revert acc. induction ps as [|q ps IH]; intros acc; simpl.
  - split; [intros [] | intros (pre & post & E & _)].
    destruct pre; discriminate.
  - rewrite IH. split.
    + intros [[= -> <-]|(pre & post & -> & ->)].
      * exists [], ps. split; [reflexivity | simpl; lia].
      * exists (q :: pre), post. split; [reflexivity | simpl; lia].
    + intros ([|q' pre] & post & E & ->); simpl in E; injection E as -> ->.
      * left. f_equal. simpl. lia.
      * right. exists pre, post. split; [reflexivity | simpl; lia].
Qed.

Lemma filter_or_length {A : Type} (p q : A -> bool) (l : list A) :
  (forall a, In a l -> p a = true -> q a = false) ->
  List.length (filter (fun a => p a || q a) l)
  = (List.length (filter p l) + List.length (filter q l))%nat.
Proof.
  induction l as [|a l IH]; intros D; [reflexivity|]. simpl.
  assert (Dl : forall b, In b l -> p b = true -> q b = false)
    by (intros b Hb; apply D; right; exact Hb).
  specialize (IH Dl). specialize (D a (or_introl eq_refl)).
  destruct (p a) eqn:Ep; simpl.
  - rewrite (D eq_refl). simpl. rewrite IH. reflexivity.
  - destruct (q a); simpl; rewrite IH; lia.
Qed.

Lemma filter_eqb_count (l : list Z) (y : Z) :
  List.length (filter (fun v => v =? y) l) = count_occ Z.eq_dec l y.
Proof.
  induction l as [|a l IH]; simpl; [reflexivity|].
  destruct (Z.eq_dec a y) as [->|N].
  - rewrite Z.eqb_refl. simpl. rewrite IH. reflexivity.
  - rewrite (proj2 (Z.eqb_neq a y) N). exact IH.
Qed.

(** Adding up the occurrences of pairwise distinct values counts the cells
    that hold one of them. *)
Lemma sum_counts (l ys : list Z) :
  NoDup ys ->
  sumZ (map (fun y => Z.of_nat (count_occ Z.eq_dec l y)) ys)
  = Z.of_nat (List.length (filter (fun v => existsb (Z.eqb v) ys) l)).
Proof.
  induction 1 as [|y ys Hnin ND IH]; simpl.
  - rewrite filter_none; [reflexivity | reflexivity].
  - rewrite IH, filter_or_length, filter_eqb_count; [lia|].
    intros v _ Ev. apply Z.eqb_eq in Ev. subst v.
    destruct (existsb (Z.eqb y) ys) eqn:Ex; [|reflexivity].
    apply existsb_exists in Ex. destruct Ex as (z & Hz & Ez).
    apply Z.eqb_eq in Ez. subst z. contradiction.
Qed.

Lemma strict_sorted_middle (A B : list Z) (Y : Z) :
  StronglySorted Z.lt (A ++ Y :: B) ->
  (forall a, In a A -> a < Y) /\ (forall b, In b B -> Y < b).
Proof.
  induction A as [|a A IH]; simpl; intros S; inversion S as [|? ? S' F]; subst.
  - split; [intros a [] |]. rewrite Forall_forall in F. exact F.
  - destruct (IH S') as [HA HB]. split; [|exact HB].
    intros x [<-|Hx]; [|apply HA, Hx].
    rewrite Forall_forall in F. apply F, in_elt.
Qed.

Lemma spec_sorted_pairs_In (col : list (option Z)) (y n : Z) :
  In (y, n) (isort (fun a b => fst a <=? fst b) (spec_adoption_counts col))
  <-> In y (dropna col) /\ n = Z.of_nat (count_occ Z.eq_dec (dropna col) y).
Proof.
  rewrite isort_In. unfold spec_adoption_counts. rewrite in_map_iff. split.
  - intros (v & [= -> <-] & Hin). apply nodup_In in Hin. split; [exact Hin | reflexivity].
  - intros [Hin ->]. exists y. split; [reflexivity | apply nodup_In, Hin].
Qed.

Lemma spec_sorted_pairs_strict (col : list (option Z)) :
  StronglySorted Z.lt
    (map fst (isort (fun a b => fst a <=? fst b) (spec_adoption_counts col))).
Proof.
  apply sorted_NoDup_strict.
  - apply StronglySorted_map, fst_leb_sorted.
  - eapply Permutation_NoDup.
    + apply Permutation_map, isort_perm.
    + rewrite spec_adoption_counts_labels. apply NoDup_nodup.
Qed.

(** The running sum up to the pair of year [fst p] counts the cells that hold
    a year up to [fst p]. *)
Lemma spec_prefix_sum (col : list (option Z)) (pre post : list (Z * Z)) (p : Z * Z) :
  isort (fun a b => fst a <=? fst b) (spec_adoption_counts col) = pre ++ p :: post ->
  sumZ (map snd pre) + snd p
  = Z.of_nat (List.length (filter (fun v => v <=? fst p) (dropna col))).
Proof.
  intros E.
  assert (S := spec_sorted_pairs_strict col). rewrite E, map_app in S. simpl in S.
  destruct (strict_sorted_middle _ _ _ S) as [HA HB].
  assert (In_ps : forall q, In q (pre ++ p :: post) ->
            In (fst q) (dropna col)
            /\ snd q = Z.of_nat (count_occ Z.eq_dec (dropna col) (fst q))).
  { intros [y n] Hq. rewrite <- E in Hq. apply spec_sorted_pairs_In in Hq. exact Hq. }
  assert (Esnd : map snd (pre ++ [p])
                 = map (fun y => Z.of_nat (count_occ Z.eq_dec (dropna col) y))
                       (map fst (pre ++ [p]))).
  { rewrite map_map. apply map_ext_in. intros q Hq. apply In_ps.
    apply in_app_or in Hq. apply in_or_app.
    destruct Hq as [Hq|[<-|[]]]; [left; exact Hq | right; left; reflexivity]. }
  replace (sumZ (map snd pre) + snd p) with (sumZ (map snd (pre ++ [p]))).
  2:{ rewrite map_app. unfold sumZ. rewrite fold_right_app. simpl.
      generalize (map snd pre). intros l. induction l as [|x l IH]; simpl; lia. }
  rewrite Esnd, sum_counts.
  2:{ apply strict_sorted_NoDup. rewrite map_app. simpl.
      apply (StronglySorted_weaken Z.lt Z.lt); [auto|].
      clear -S. induction (map fst pre) as [|a A IH]; simpl in *.
      - repeat constructor.
      - inversion S as [|? ? S' F]; subst. constructor; [apply IH, S'|].
        rewrite Forall_forall in *. intros x Hx. apply F.
        apply in_app_or in Hx. apply in_or_app.
        destruct Hx as [Hx|[<-|[]]]; [left; exact Hx | right; left; reflexivity]. }
  f_equal. f_equal. apply filter_ext_in. intros v Hv.
  assert (Hv' : In v (map fst (pre ++ p :: post))).
  { rewrite <- E. apply in_map_iff. exists (v, Z.of_nat (count_occ Z.eq_dec (dropna col) v)).
    split; [reflexivity|]. apply spec_sorted_pairs_In. split; [exact Hv | reflexivity]. }
  rewrite map_app in Hv'. simpl in Hv'. rewrite map_app. simpl.
  apply in_app_or in Hv'.
  destruct (v <=? fst p) eqn:L.
  - apply existsb_exists. exists v. split; [|apply Z.eqb_refl].
    apply in_or_app. apply Z.leb_le in L.
    destruct Hv' as [Hv'|[<-|Hv']]; [left; exact Hv' | right; left; reflexivity|].
    specialize (HB _ Hv'). lia.
  - apply Z.leb_gt in L.
    destruct (existsb (Z.eqb v) (map fst pre ++ [fst p])) eqn:Ex; [|reflexivity].
    apply existsb_exists in Ex. destruct Ex as (z & Hz & Ez).
    apply Z.eqb_eq in Ez. subst z. apply in_app_or in Hz.
    destruct Hz as [Hz|[<-|[]]]; [specialize (HA _ Hz)|]; lia.
Qed.

Lemma spec_cumulative_adoption_In (col : list (option Z)) (r : Adoption.row) :
  In r (spec_cumulative_adoption col)
  <-> In (Adoption.Year r) (dropna col)
      /\ Adoption.Count r = Z.of_nat (count_occ Z.eq_dec (dropna col) (Adoption.Year r))
      /\ Adoption.Cumulative_Count r
         = Z.of_nat (List.length (filter (fun v => v <=? Adoption.Year r) (dropna col))).
Proof.
  unfold spec_cumulative_adoption, with_cumulative_count, cumsum.
  rewrite in_map_iff. split.
  - intros ([p c] & <- & Hin). simpl.
    apply combine_cumsum_In in Hin. destruct Hin as (pre & post & E & ->).
    assert (Hp : In p (isort (fun a b => fst a <=? fst b) (spec_adoption_counts col)))
      by (rewrite E; apply in_elt).
    destruct p as [y n]. apply spec_sorted_pairs_In in Hp. destruct Hp as [Hy Hn].
    split; [exact Hy|]. split; [exact Hn|].
    pose proof (spec_prefix_sum col pre post (y, n) E) as P. simpl in P. simpl. lia.
  - intros (Hy & Hn & Hc). destruct r as [y n c]. simpl in *.
    assert (Hp : In (y, n) (isort (fun a b => fst a <=? fst b) (spec_adoption_counts col)))
      by (apply spec_sorted_pairs_In; split; assumption).
    apply in_split in Hp. destruct Hp as (pre & post & E).
    exists ((y, n), c). split; [reflexivity|].
    apply combine_cumsum_In. exists pre, post. split; [exact E|].
    pose proof (spec_prefix_sum col pre post (y, n) E) as P. simpl in P. simpl. lia.
Qed.

Lemma adoption_years_counts_households_aux `{SortKind} (data : DataFrame) (r : Adoption.row) :
  In r (adoption_years data)
  <-> (exists row, In row data /\ Adoption_Year row = Some (Adoption.Year r))
      /\ Adoption.Count r = adopted_in data (Adoption.Year r)
      /\ Adoption.Cumulative_Count r = adopted_by data (Adoption.Year r).
Proof.
  rewrite adoption_years_refines, spec_cumulative_adoption_In.
  unfold adopted_in, adopted_by. rewrite dropna_In, in_map_iff.
  split; intros [(row & A & B) C]; (split; [|exact C]); exists row; split; auto.
Qed.

(** X6. The table [adoption_years] has one row per adoption year that occurs
    in the data, in strictly ascending order of Year; Count is the number of
    data rows with that Adoption_Year and Cumulative_Count the number of data
    rows with an Adoption_Year up to it. *)
Theorem adoption_years_counts_households `{SortKind} (data : DataFrame) :
  StronglySorted Z.lt (map Adoption.Year (adoption_years data))
  /\ forall r : Adoption.row,
       In r (adoption_years data)
       <-> (exists row, In row data /\ Adoption_Year row = Some (Adoption.Year r))
           /\ Adoption.Count r = adopted_in data (Adoption.Year r)
           /\ Adoption.Cumulative_Count r = adopted_by data (Adoption.Year r).
Proof.
  split; [apply adoption_years_strict | apply adoption_years_counts_households_aux].
Qed.

Lemma adoption_years_years `{SortKind} (data : DataFrame) (y : Z) :
  (exists r, In r (adoption_years data) /\ Adoption.Year r = y)
  <-> exists row, In row data /\ Adoption_Year row = Some y.
Proof.
  split.
  - intros (r & Hr & <-). apply adoption_years_counts_households_aux in Hr. apply Hr.
  - intros P.
    exists (Adoption.mk y (adopted_in data y) (adopted_by data y)). split; [|reflexivity].
    apply adoption_years_counts_households_aux. simpl. auto.
Qed.

Lemma NoDup_map_injective {A B : Type} (f : A -> B) (l : list A) :
  (forall a b, f a = f b -> a = b) -> NoDup l -> NoDup (map f l).
Proof.
  intros Inj. induction 1 as [|a l Hnin ND IH]; simpl; constructor; [|exact IH].
  intros Hin. apply in_map_iff in Hin. destruct Hin as (b & E & Hb).
  apply Inj in E. subst b. contradiction.
Qed.

Lemma expanded_rows_In `{SortKind} (data : DataFrame) (f : Frame.row) :
  In f (flat_map (temp_data (adoption_years data)) (all_years (adoption_years data)))
  <-> (exists row, In row data /\ Adoption_Year row = Some (Frame.Year f))
      /\ (exists row, In row data /\ Adoption_Year row = Some (Frame.Animation_Year f))
      /\ Frame.Year f <= Frame.Animation_Year f
      /\ Frame.Count f = adopted_in data (Frame.Year f)
      /\ Frame.Cumulative_Count f = adopted_by data (Frame.Year f).
Proof.
  rewrite in_flat_map. split.
  - intros (Y & HY & Hf). unfold temp_data in Hf. apply in_map_iff in Hf.
    destruct Hf as (r & <- & Hr). apply filter_In in Hr. destruct Hr as [Hr Hle].
    simpl. apply Z.leb_le in Hle.
    apply all_years_In, adoption_years_years in HY.
    apply adoption_years_counts_households_aux in Hr. destruct Hr as (Py & Hc & Hcc).
    repeat split; assumption.
  - intros (Py & PY & Hle & Hc & Hcc). exists (Frame.Animation_Year f). split.
    + apply all_years_In, adoption_years_years, PY.
    + unfold temp_data. apply in_map_iff.
      exists (Adoption.mk (Frame.Year f) (Frame.Count f) (Frame.Cumulative_Count f)).
      split; [destruct f; reflexivity|].
      apply filter_In. split; [|apply Z.leb_le, Hle].
      apply adoption_years_counts_households_aux. simpl. auto.
Qed.

(** X7. When some row has an Adoption_Year, the expanded adoption table holds
    exactly one row for every pair of adoption years Year <= Animation_Year
    that occur in the data: a bar is drawn in the frame of its own year and in
    every later frame, never in an earlier one, always with the number of rows
    adopting in its year as Count and the number adopting up to its year as
    Cumulative_Count. *)
Theorem expanded_rows_count_households `{SortKind} (data : DataFrame) :
  (exists row, In row data /\ Adoption_Year row <> None) ->
  exists frames,
    adoption_expansion data = Ok frames
    /\ NoDup frames
    /\ forall f : Frame.row,
         In f frames
         <-> (exists row, In row data /\ Adoption_Year row = Some (Frame.Year f))
             /\ (exists row, In row data /\ Adoption_Year row = Some (Frame.Animation_Year f))
             /\ Frame.Year f <= Frame.Animation_Year f
             /\ Frame.Count f = adopted_in data (Frame.Year f)
             /\ Frame.Cumulative_Count f = adopted_by data (Frame.Year f).
Proof.
  intros P. eexists. split; [apply adoption_expansion_Ok, P|].
  split; [|apply expanded_rows_In].
  assert (NDy : NoDup (all_years (adoption_years data)))
    by apply strict_sorted_NoDup, all_years_sorted.
  assert (NDa : NoDup (adoption_years data)).
  { apply (NoDup_map_inv Adoption.Year), strict_sorted_NoDup, adoption_years_strict. }
  induction NDy as [|Y ys Hnin ND IH]; simpl; [constructor|].
  apply NoDup_app; [| exact IH |].
  - unfold temp_data. apply NoDup_map_injective.
    + intros [y c cc] [y' c' cc'] [=]. congruence.
    + apply NoDup_filter, NDa.
  - intros f Hf Hf'. apply temp_data_tag in Hf.
    apply in_flat_map in Hf'. destruct Hf' as (Y' & HY' & Hf').
    apply temp_data_tag in Hf'. apply Hnin. rewrite <- Hf, Hf'. exact HY'.
Qed.

(** Adoption years 2012, 2010, 2010 and one missing: three rows, the one of
    2010 present in both frames. *)
Lemma expanded_rows_count_households_witness :
  exists frames,
    @adoption_expansion reversing_kind
      [adopter (Some 2012); adopter (Some 2010); adopter None; adopter (Some 2010)]
    = Ok frames
    /\ In (Frame.mk 2010 2 2 2012) frames.
Proof.
  destruct (@expanded_rows_count_households reversing_kind
              [adopter (Some 2012); adopter (Some 2010); adopter None; adopter (Some 2010)])
    as (frames & E & _ & F).
  - exists (adopter (Some 2012)). split; [left; reflexivity | discriminate].
  - exists frames. split; [exact E|]. apply F. simpl. repeat split.
    + exists (adopter (Some 2010)). split; [right; left; reflexivity | reflexivity].
    + exists (adopter (Some 2012)). split; [left; reflexivity | reflexivity].
    + lia.
Defined.

Lemma fold_max_spec (l : list Z) (x : Z) :
  (fold_left Z.max l x = x \/ In (fold_left Z.max l x) l)
  /\ x <= fold_left Z.max l x
  /\ forall y, In y l -> y <= fold_left Z.max l x.
Proof.
  revert x. induction l as [|a l IH]; intros x; simpl.
  - split; [left; reflexivity|]. split; [lia | intros y []].
  - destruct (IH (Z.max x a)) as (A & B & C). split; [|split].
    + destruct A as [A|A]; [|right; right; exact A].
      rewrite A. destruct (Z.max_spec x a) as [[_ ->]|[_ ->]]; auto.
    + lia.
    + intros y [<-|Hy]; [lia | apply C, Hy].
Qed.

Lemma series_max_spec (col : list Z) (m : Z) :
  series_max col = Some m <-> In m col /\ forall y, In y col -> y <= m.
Proof.
  destruct col as [|x col]; simpl.
  - split; [discriminate | intros [[] _]].
  - destruct (fold_max_spec col x) as (A & B & C). split.
    + intros [= <-]. split.
      * destruct A as [->|A]; [left; reflexivity | right; exact A].
      * intros y [<-|Hy]; [exact B | apply C, Hy].
    + intros [Hm Hall]. f_equal. apply Z.le_antisymm.
      * apply Hall. destruct A as [->|A]; [left; reflexivity | right; exact A].
      * destruct Hm as [<-|Hm]; [exact B | apply C, Hm].
Qed.

(** X8. When some row has an Adoption_Year, the largest Cumulative_Count of
    the expanded table is the number of rows that have an Adoption_Year, so
    the y axis of the adoption chart (line 121) runs from 0 to 1.1 times that
    number. *)
Theorem adoption_range_y_is_total `{SortKind} (data : DataFrame) :
  (exists row, In row data /\ Adoption_Year row <> None) ->
  exists frames,
    adoption_expansion data = Ok frames
    /\ series_max (map Frame.Cumulative_Count frames)
       = Some (Z.of_nat (List.length (dropna (map Adoption_Year data))))
    /\ adoption_range_y frames
       = (0%float,
          PrimFloat.mul (float_of_Z (Z.of_nat (List.length (dropna (map Adoption_Year data)))))
                        0x1.199999999999ap+0%float).
Proof.
  intros P. eexists. split; [apply adoption_expansion_Ok, P|].
  assert (F := expanded_rows_In data).
  set (frames := flat_map (temp_data (adoption_years data))
                          (all_years (adoption_years data))) in *.
  set (vals := dropna (map Adoption_Year data)).
  assert (M : series_max (map Frame.Cumulative_Count frames)
              = Some (Z.of_nat (List.length vals))).
  { apply series_max_spec. split.
    - destruct vals as [|v0 vs] eqn:Ev.
      { exfalso. destruct P as (row & Hrow & Hy). apply Hy.
        apply (proj1 (dropna_nil (map Adoption_Year data)) Ev), in_map, Hrow. }
      destruct (series_max (v0 :: vs)) as [Ymax|] eqn:Emax; [|discriminate].
      apply series_max_spec in Emax. destruct Emax as [Hin Hall].
      rewrite <- Ev in *.
      assert (PY : exists row, In row data /\ Adoption_Year row = Some Ymax).
      { unfold vals in Hin. apply dropna_In, in_map_iff in Hin.
        destruct Hin as (row & A & B). exists row. split; assumption. }
      apply in_map_iff.
      exists (Frame.mk Ymax (adopted_in data Ymax) (adopted_by data Ymax) Ymax).
      split.
      + simpl. unfold adopted_by. fold vals. rewrite filter_every; [reflexivity|].
        intros v Hv. apply Z.leb_le, Hall, Hv.
      + apply F. simpl. repeat split; try assumption. lia.
    - intros c Hc. apply in_map_iff in Hc. destruct Hc as (f & <- & Hf).
      apply F in Hf. destruct Hf as (_ & _ & _ & _ & ->).
      unfold adopted_by. fold vals. apply inj_le, filter_length_le. }
  split; [exact M|]. unfold adoption_range_y. rewrite M. reflexivity.
Qed.

(** Three of four rows have an Adoption_Year: the axis runs to 3 * 1.1. *)
Lemma adoption_range_y_is_total_witness :
  exists frames,
    @adoption_expansion reversing_kind
      [adopter (Some 2012); adopter (Some 2010); adopter None; adopter (Some 2010)]
    = Ok frames
    /\ series_max (map Frame.Cumulative_Count frames) = Some 3.
Proof.
  destruct (@adoption_range_y_is_total reversing_kind
              [adopter (Some 2012); adopter (Some 2010); adopter None; adopter (Some 2010)])
    as (frames & E & M & _).
  - exists (adopter (Some 2012)). split; [left; reflexivity | discriminate].
  - exists frames. split; [exact E | exact M].
Defined.

(* ================================================================= *)
(** ** The options of the year select box (lines 19 and 147) *)

Lemma group_add_fst {K V : Type} `{Key K} (k : K) (v : V) (groups : list (K * list V)) :
  map fst (group_add k v groups)
  = map fst groups ++ (if existsb (key_eqb k) (map fst groups) then [] else [k]).
Proof.
  induction groups as [|[k' vs] rest IH]; simpl; [reflexivity|].
  destruct (key_eqb k k') eqn:E; simpl.
  - rewrite app_nil_r. reflexivity.
  - rewrite IH. reflexivity.
Qed.

(** [unique] keeps the first occurrence of every value. *)
Lemma unique_snoc {K : Type} `{Key K} (col : list K) (x : K) :
  unique (col ++ [x])
  = unique col ++ (if existsb (key_eqb x) (unique col) then [] else [x]).
Proof. unfold unique. rewrite factorize_snoc. apply group_add_fst. Qed.

Lemma StronglySorted_snoc_inv {A : Type} (R : A -> A -> Prop) (l : list A) (x : A) :
  StronglySorted R (l ++ [x]) -> StronglySorted R l /\ Forall (fun a => R a x) l.
Proof.
  induction l as [|a l IH]; simpl; intros S.
  - split; constructor.
  - inversion S as [|? ? S' F]; subst. destruct (IH S') as [Sl Fl]. split.
    + constructor; [exact Sl|]. rewrite Forall_forall in *.
      intros b Hb. apply F, in_or_app. left. exact Hb.
    + constructor; [|exact Fl]. rewrite Forall_forall in F.
      apply F, in_or_app. right. left. reflexivity.
Qed.

Lemma StronglySorted_snoc {A : Type} (R : A -> A -> Prop) (l : list A) (x : A) :
  StronglySorted R l -> Forall (fun a => R a x) l -> StronglySorted R (l ++ [x]).
Proof.
  induction 1 as [|a l S IH F]; simpl; intros Fx.
  - repeat constructor.
  - inversion Fx as [|? ? Rax Fx']; subst. constructor; [apply IH, Fx'|].
    apply Forall_app. split; [exact F | repeat constructor; exact Rax].
Qed.

Lemma unique_sorted {K : Type} `{Key K} (R : K -> K -> Prop) (col : list K) :
  StronglySorted R col -> StronglySorted R (unique col).
Proof.
  induction col as [|x col IH] using rev_ind; intros S; [constructor|].
  apply StronglySorted_snoc_inv in S. destruct S as [S F].
  rewrite unique_snoc. destruct (existsb _ _).
  - rewrite app_nil_r. apply IH, S.
  - apply StronglySorted_snoc; [apply IH, S|].
    rewrite Forall_forall in *. intros a Ha. apply F, unique_In, Ha.
Qed.

(** X9. The options of the year select box, taken from the table sorted by
    Year, are the Year cells of the table, each once, in ascending order, with
    the missing cell (if the table has one) as the last option. *)
Theorem year_options_ascending_distinct `{SortKind} (data : DataFrame) :
  StronglySorted year_lt (years (sort_by_year data))
  /\ forall y : option Z,
       In y (years (sort_by_year data)) <-> exists r, In r data /\ Year r = y.
Proof.
  unfold years, sort_by_year. split.
  - assert (S : StronglySorted (key_le true)
                  (unique (map Year (sort_values Year true data)))).
    { apply unique_sorted, StronglySorted_map.
      apply Sorted_StronglySorted; [|apply sort_values_sorted].
      intros a b c. apply key_le_trans. }
    assert (ND := unique_NoDup (map Year (sort_values Year true data))).
    induction S as [|a l S IH F]; constructor;
      inversion ND as [|? ? Hnin ND']; subst.
    + apply IH, ND'.
    + rewrite Forall_forall in *. intros b Hb. split; [apply F, Hb|].
      intros ->. contradiction.
  - intros y. rewrite unique_In, in_map_iff. split.
    + intros (r & E & Hr). exists r. split; [|exact E].
      eapply Permutation_in; [apply Permutation_sym, sort_values_perm | exact Hr].
    + intros (r & Hr & E). exists r. split; [exact E|].
      eapply Permutation_in; [apply sort_values_perm | exact Hr].
Qed.

(* ================================================================= *)
(** ** The order of the rows and the derived tables *)

Lemma Permutation_filter_same {A : Type} (p : A -> bool) (l l' : list A) :
  Permutation l l' -> Permutation (filter p l) (filter p l').
Proof.
  induction 1 as [|a l l' P IH|a b l|l l' l'' P IH P' IH']; simpl.
  - constructor.
  - destruct (p a); [constructor|]; exact IH.
  - destruct (p a), (p b); try apply Permutation_refl. apply perm_swap.
  - eapply perm_trans; eassumption.
Qed.

Lemma Permutation_dropna {A : Type} (col col' : list (option A)) :
  Permutation col col' -> Permutation (dropna col) (dropna col').
Proof.
  induction 1 as [|a l l' P IH|a b l|l l' l'' P IH P' IH']; simpl.
  - constructor.
  - destruct a; [constructor|]; exact IH.
  - destruct a, b; try apply Permutation_refl. apply perm_swap.
  - eapply perm_trans; eassumption.
Qed.

Lemma spec_cumulative_adoption_perm (col col' : list (option Z)) :
  Permutation col col' -> spec_cumulative_adoption col' = spec_cumulative_adoption col.
Proof.
  intros P. apply Permutation_dropna in P.
  unfold spec_cumulative_adoption. f_equal.
  apply (sorted_distinct_unique fst).
  - apply strict_sorted_NoDup, spec_sorted_pairs_strict.
  - apply NoDup_Permutation.
    + eapply NoDup_map_inv, strict_sorted_NoDup, spec_sorted_pairs_strict.
    + eapply NoDup_map_inv, strict_sorted_NoDup, spec_sorted_pairs_strict.
    + intros [y n]. rewrite !spec_sorted_pairs_In.
      rewrite (Permutation_count_occ Z.eq_dec) in P. rewrite (P y).
      split; intros [Hin E]; (split; [|exact E]).
      * eapply Permutation_in; [|exact Hin].
        apply Permutation_sym, (Permutation_count_occ Z.eq_dec), P.
      * eapply Permutation_in; [|exact Hin].
        apply (Permutation_count_occ Z.eq_dec), P.
  - apply fst_leb_sorted.
  - apply fst_leb_sorted.
Qed.

(** X10. The adoption tables do not depend on the order of the rows: from any
    rearrangement of the table, in particular from the table sorted by Year
    that [main] passes on, [adoption_years] and the expanded table (or its
    exception) come out the same as from the table as loaded. *)
Theorem adoption_tables_ignore_row_order `{SortKind} (data : DataFrame) :
  (forall data', Permutation data data' ->
                 adoption_years data' = adoption_years data
                 /\ adoption_expansion data' = adoption_expansion data)
  /\ adoption_years (sort_by_year data) = adoption_years data
  /\ adoption_expansion (sort_by_year data) = adoption_expansion data.
Proof.
  assert (G : forall data', Permutation data data' ->
                            adoption_years data' = adoption_years data).
  { intros data' P. rewrite !adoption_years_refines.
    apply spec_cumulative_adoption_perm, Permutation_map, P. }
  split; [|split].
  - intros data' P. unfold adoption_expansion. rewrite (G _ P). split; reflexivity.
  - apply G, sort_values_perm.
  - unfold adoption_expansion, sort_by_year.
    rewrite (G _ (sort_values_perm _ Year true data)). reflexivity.
Qed.

(** The eighteen households, turned end for end by the reversing routine. *)
Lemma adoption_tables_ignore_row_order_witness :
  @adoption_years reversing_kind (@sort_by_year reversing_kind eighteen_households)
  = @adoption_years reversing_kind eighteen_households.
Proof.
  apply (proj1 (proj2 (@adoption_tables_ignore_row_order reversing_kind eighteen_households))).
Defined.

Section Groups_of_rearranged_rows.
Context {K : Type} `{KeyOrder K} {V : Type}.
Variable label : V -> option K.

Lemma groupby_labels_In (rows : list V) (k : K) :
  In k (map fst (groupby label rows)) <-> exists r, In r rows /\ label r = Some k.
Proof.
  rewrite <- rows_of_nonempty, in_map_iff. split.
  - intros ([k' g] & E & Hin). simpl in E. subst k'.
    apply groupby_In in Hin. destruct Hin as [-> N]. exact N.
  - intros N. exists (k, rows_of label k rows). split; [reflexivity|].
    apply groupby_In. split; [reflexivity | exact N].
Qed.

Lemma groupby_labels_perm (rows rows' : list V) :
  Permutation rows rows' ->
  map fst (groupby label rows') = map fst (groupby label rows).
Proof.
  intros P. apply sorted_set_unique;
    try apply groupby_labels_sorted; try apply groupby_NoDup.
  intros k. rewrite !groupby_labels_In.
  split; intros (r & Hr & E); exists r; (split; [|exact E]).
  - eapply Permutation_in; [apply Permutation_sym, P | exact Hr].
  - eapply Permutation_in; [exact P | exact Hr].
Qed.

Lemma rows_of_perm (rows rows' : list V) (k : K) :
  Permutation rows rows' -> Permutation (rows_of label k rows) (rows_of label k rows').
Proof. apply Permutation_filter_same. Qed.

End Groups_of_rearranged_rows.

(** X11. The two bar-chart tables and the numeric map view have the same
    labels in the same order whatever the order of the rows of the table, so
    sorting by Year adds, removes and moves no bar and no country. *)
Theorem labels_ignore_row_order (data data' : DataFrame) (selected_year : option Z)
  (v : Var.numeric) :
  Permutation data data' ->
  map fst (avg_usage data') = map fst (avg_usage data)
  /\ map fst (avg_savings data') = map fst (avg_savings data)
  /\ map fst (groupby_mean Country (numeric_column v) (filter (year_is selected_year) data'))
     = map fst (groupby_mean Country (numeric_column v) (filter (year_is selected_year) data)).
Proof.
  intros P. unfold avg_usage, avg_savings, groupby_mean.
  rewrite !map_map. simpl. repeat split.
  - apply (groupby_labels_perm (fun r => both (Year r) (Energy_Source r))), P.
  - apply (groupby_labels_perm (fun r => both (Year r) (Income_Level r))), P.
  - apply (groupby_labels_perm Country), Permutation_filter_same, P.
Qed.

(** The eighteen households before and after the reversing routine. *)
Lemma labels_ignore_row_order_witness :
  map fst (avg_usage (@sort_by_year reversing_kind eighteen_households))
  = map fst (avg_usage eighteen_households).
Proof.
  apply (labels_ignore_row_order eighteen_households
           (@sort_by_year reversing_kind eighteen_households) None Var.Household_Size).
  apply (@sort_values_perm reversing_kind).
Defined.

Lemma filter_keeps_distinct {A B : Type} (keep : A -> bool) (column : A -> B)
  (rows : list A) (D : NoDup (map column rows)) :
  NoDup (map column (filter keep rows)).
Proof.
  induction rows as [|a rows IH]; simpl in *; [constructor|].
  inversion D as [|? ? Hnin D']; subst.
  destruct (keep a); simpl; [|apply IH, D'].
  constructor; [|apply IH, D'].
  intros Hin. apply Hnin. apply in_map_iff in Hin. destruct Hin as (b & E & Hb).
  apply filter_In in Hb. rewrite <- E. apply in_map, Hb.
Qed.

Lemma mode_NoDup (x : list (option string)) : NoDup (mode x).
Proof.
  rewrite mode_unfold.
  eapply Permutation_NoDup; [apply isort_perm|].
  apply filter_keeps_distinct. unfold mode_counts.
  rewrite (map_fst_pair (fun g : list string => List.length g)).
  apply factorize_invariant.
Qed.

(** The mode looks at how often the values occur, not at where. *)
Lemma mode_perm (x x' : list (option string)) :
  Permutation x x' -> mode x' = mode x.
Proof.
  intros P. apply Permutation_dropna in P.
  apply sorted_set_unique; try apply mode_sorted; try apply mode_NoDup.
  intros m. rewrite !mode_In. unfold most_frequent, occurrences.
  assert (C := proj1 (Permutation_count_occ string_dec _ _) P).
  split; intros [Hin Hmax]; split.
  - eapply Permutation_in; [apply Permutation_sym, P | exact Hin].
  - intros w. rewrite !C. apply Hmax.
  - eapply Permutation_in; [exact P | exact Hin].
  - intros w. rewrite <- !C. apply Hmax.
Qed.

Lemma mapM_ext_in {A B : Type} (f g : A -> result B) (l : list A) :
  (forall a, In a l -> f a = g a) -> mapM f l = mapM g l.
Proof.
  induction l as [|a l IH]; intros E; [reflexivity|]. simpl.
  rewrite (E a (or_introl eq_refl)), IH; [reflexivity|].
  intros b Hb. apply E. right. exact Hb.
Qed.

Lemma mapM_map {A B C : Type} (h : A -> B) (f : B -> result C) (l : list A) :
  mapM f (map h l) = mapM (fun a => f (h a)) l.
Proof.
  induction l as [|a l IH]; [reflexivity|]. simpl. rewrite IH. reflexivity.
Qed.

(** X12. The categorical map view does not depend on the order of the rows:
    from any rearrangement of the table, in particular from the table sorted
    by Year that [main] passes on, it returns the same title and table, or
    raises the same exception, as from the table as loaded. *)
Theorem categorical_map_ignores_row_order `{SortKind} (data : DataFrame)
  (selected_year : option Z) (v : Var.categorical) :
  (forall data', Permutation data data' ->
                 map_view data' selected_year (inr v) = map_view data selected_year (inr v))
  /\ map_view (sort_by_year data) selected_year (inr v)
     = map_view data selected_year (inr v).
Proof.
  assert (G : forall data', Permutation data data' ->
                map_view data' selected_year (inr v) = map_view data selected_year (inr v)).
  { intros data' P. rewrite !map_view_categorical. f_equal.
    unfold groupby_agg.
    apply (Permutation_filter_same (year_is selected_year)) in P.
    rewrite (groupby_canonical Country (filter (year_is selected_year) data')).
    rewrite (groupby_canonical Country (filter (year_is selected_year) data)).
    rewrite (groupby_labels_perm Country _ _ P).
    set (countries := map fst (groupby Country (filter (year_is selected_year) data))).
    rewrite !mapM_map.
    apply mapM_ext_in. intros c _. simpl.
    rewrite (mode_perm (map (categorical_column v)
                            (rows_of Country c (filter (year_is selected_year) data)))
                       (map (categorical_column v)
                            (rows_of Country c (filter (year_is selected_year) data'))));
      [reflexivity|].
    apply Permutation_map, rows_of_perm, P. }
  split; [exact G | apply G, sort_values_perm].
Qed.

(** The eighteen households, all urban, before and after the reversing
    routine. *)
Lemma categorical_map_ignores_row_order_witness :
  map_view (@sort_by_year reversing_kind eighteen_households) (Some 2015)
           (inr Var.Urban_Rural)
  = map_view eighteen_households (Some 2015) (inr Var.Urban_Rural).
Proof.
  apply (proj2 (@categorical_map_ignores_row_order reversing_kind eighteen_households
                  (Some 2015) Var.Urban_Rural)).
Defined.

(* ================================================================= *)
(** ** What every sorting routine agrees on (line 19) *)

Lemma key_le_antisym (a b : option Z) : key_le true a b -> key_le true b a -> a = b.
Proof.
  destruct a as [x|], b as [y|]; simpl; try tauto.
  intros L L'. f_equal. lia.
Qed.

(** Two ordered arrangements of the same keys are the same list. *)
Lemma sorted_keys_unique (l1 l2 : list (option Z)) :
  Permutation l1 l2 ->
  StronglySorted (key_le true) l1 -> StronglySorted (key_le true) l2 -> l1 = l2.
Proof.
  revert l2. induction l1 as [|a l1 IH]; intros l2 P S1 S2.
  - apply Permutation_nil in P. subst. reflexivity.
  - destruct l2 as [|b l2].
    { apply Permutation_sym, Permutation_nil in P. discriminate. }
    inversion S1 as [|? ? S1' F1]; inversion S2 as [|? ? S2' F2]; subst.
    rewrite Forall_forall in F1, F2.
    assert (E : a = b).
    { assert (Ha : In a (b :: l2))
        by (eapply Permutation_in; [exact P | left; reflexivity]).
      assert (Hb : In b (a :: l1))
        by (eapply Permutation_in; [apply Permutation_sym, P | left; reflexivity]).
      destruct Ha as [->|Ha]; [reflexivity|].
      destruct Hb as [->|Hb]; [reflexivity|].
      apply key_le_antisym; [apply F1, Hb | apply F2, Ha]. }
    subst b. f_equal.
    apply IH; [eapply Permutation_cons_inv; exact P | exact S1' | exact S2'].
Qed.

(** X13. Whatever routine sorts the table, the Year column of the result is
    the same, and for every year the rows of that year are the rows the table
    had for it, possibly in another order: routines can differ in the order of
    rows with equal Year and in nothing else. *)
Theorem sort_by_year_determined_up_to_ties (kind1 kind2 : SortKind) (data : DataFrame) :
  map Year (@sort_by_year kind1 data) = map Year (@sort_by_year kind2 data)
  /\ forall selected_year,
       Permutation (filter (year_is selected_year) data)
                   (filter (year_is selected_year) (@sort_by_year kind1 data)).
Proof.
  split.
  - apply sorted_keys_unique.
    + apply Permutation_map. unfold sort_by_year.
      eapply perm_trans; [apply Permutation_sym, (@sort_values_perm kind1)|].
      apply (@sort_values_perm kind2).
    + apply StronglySorted_map, Sorted_StronglySorted;
        [intros a b c; apply key_le_trans | apply (@sort_values_sorted kind1)].
    + apply StronglySorted_map, Sorted_StronglySorted;
        [intros a b c; apply key_le_trans | apply (@sort_values_sorted kind2)].
  - intros selected_year. apply Permutation_filter_same, (@sort_values_perm kind1).
Qed.

(* ================================================================= *)
(** ** The label of the colour bar (line 171) *)

Lemma case_mapping (c : ascii) :
  is_upper (to_lower c) = false
  /\ is_lower (to_upper c) = false
  /\ is_cased (to_lower c) = is_cased c
  /\ is_cased (to_upper c) = is_cased c
  /\ (to_lower c = "_"%char -> c = "_"%char)
  /\ (to_upper c = "_"%char -> c = "_"%char).
Proof.
  destruct c as [[] [] [] [] [] [] [] []]; vm_compute; repeat split; congruence.
Qed.

Lemma title_from_length (previous_is_cased : bool) (s : string) :
  String.length (title_from previous_is_cased s) = String.length s.
Proof.
  revert previous_is_cased. induction s as [|c s IH]; intros p; simpl;
    [reflexivity | rewrite IH; reflexivity].
Qed.

Lemma replace_char_length (old new : ascii) (s : string) :
  String.length (replace_char old new s) = String.length s.
Proof. induction s as [|c s IH]; simpl; [reflexivity | rewrite IH; reflexivity]. Qed.

Lemma title_from_titlecased (previous_is_cased : bool) (s : string) :
  titlecased_from previous_is_cased (title_from previous_is_cased s).
Proof.
  revert previous_is_cased. induction s as [|c s IH]; intros p; simpl; [exact I|].
  destruct (case_mapping c) as (A & B & C & D & _).
  destruct p; (split; [assumption|]).
  - rewrite C. apply IH.
  - rewrite D. apply IH.
Qed.

Lemma title_from_keeps_out (previous_is_cased : bool) (s : string) :
  ~ In "_"%char (list_ascii_of_string s) ->
  ~ In "_"%char (list_ascii_of_string (title_from previous_is_cased s)).
Proof.
  revert previous_is_cased. induction s as [|c s IH]; intros p; simpl; [tauto|].
  destruct (case_mapping c) as (_ & _ & _ & _ & L & U).
  intros N [E|Hin].
  - apply N. left. destruct p; [apply L | apply U]; exact E.
  - apply (IH (is_cased c)); [|exact Hin]. intros H. apply N. right. exact H.
Qed.

Lemma replace_char_removes (old new : ascii) (s : string) :
  old <> new -> ~ In old (list_ascii_of_string (replace_char old new s)).
Proof.
  intros N. induction s as [|c s IH]; simpl; [tauto|].
  intros [E|Hin]; [|exact (IH Hin)].
  destruct (Ascii.eqb c old) eqn:Ec; [congruence|].
  apply Ascii.eqb_neq in Ec. congruence.
Qed.

(** X14. The label of the colour bar is as long as the name of the selected
    variable, has no underscore, and is in title case: no letter after a
    letter is a capital, no other letter a small one.  Capitals inside a word
    are therefore lost: the label of Monthly_Usage_kWh reads
    "Monthly Usage Kwh". *)
Theorem colour_label_title_case (selected_variable : VariableName) :
  String.length (colour_label selected_variable)
  = String.length (column_name selected_variable)
  /\ ~ In "_"%char (list_ascii_of_string (colour_label selected_variable))
  /\ titlecased_from false (colour_label selected_variable)
  /\ colour_label (inl Var.Monthly_Usage_kWh) = "Monthly Usage Kwh"%string.
Proof.
  unfold colour_label, title. split; [|split; [|split]].
  - rewrite title_from_length, replace_char_length. reflexivity.
  - apply title_from_keeps_out, replace_char_removes. discriminate.
  - apply title_from_titlecased.
  - reflexivity.
Qed.

(* ================================================================= *)
(** ** The y axis of the usage and savings charts (lines 43 and 71) *)

Ltac split_compare :=
  repeat match goal with
  | H : context [Z.compare ?a ?b] |- _ => destruct (Z.compare_spec a b)
  | |- context [Z.compare ?a ?b] => destruct (Z.compare_spec a b)
  | H : context [Pos.compare_cont Eq ?a ?b] |- _ =>
      change (Pos.compare_cont Eq a b) with (Pos.compare a b) in H;
      destruct (Pos.compare_spec a b)
  | |- context [Pos.compare_cont Eq ?a ?b] =>
      change (Pos.compare_cont Eq a b) with (Pos.compare a b);
      destruct (Pos.compare_spec a b)
  end.

Ltac order_cases :=
  unfold SpecFloat.SFleb, SpecFloat.SFltb, SpecFloat.SFcompare in *;
  repeat match goal with
  | f : SpecFloat.spec_float |- _ => destruct f
  | s : bool |- _ => destruct s
  end;
  simpl in *; try discriminate; try reflexivity; try tauto;
  split_compare; simpl in *; subst; try discriminate; try reflexivity; try lia.

Lemma SFeqb_refl (a : SpecFloat.spec_float) :
  a <> SpecFloat.S754_nan -> SpecFloat.SFeqb a a = true.
Proof.
  intros N. unfold SpecFloat.SFeqb, SpecFloat.SFcompare.
  destruct a as [s|s| |s m e]; try destruct s; simpl; try reflexivity; try tauto;
    split_compare; simpl; try reflexivity; try lia.
Qed.

Lemma SFleb_refl (a : SpecFloat.spec_float) :
  a <> SpecFloat.S754_nan -> SpecFloat.SFleb a a = true.
Proof. intros N. order_cases. Qed.

Lemma SFleb_total (a b : SpecFloat.spec_float) :
  a <> SpecFloat.S754_nan -> b <> SpecFloat.S754_nan ->
  SpecFloat.SFleb a b = false -> SpecFloat.SFleb b a = true.
Proof. intros Na Nb. order_cases. Qed.

Lemma SFleb_trans (a b c : SpecFloat.spec_float) :
  SpecFloat.SFleb a b = true -> SpecFloat.SFleb b c = true -> SpecFloat.SFleb a c = true.
Proof. order_cases. Qed.

Lemma notna_spec (v : float) :
  notna v = true <-> FloatOps.Prim2SF v <> SpecFloat.S754_nan.
Proof.
  unfold notna, isna, is_nan.
  rewrite FloatAxioms.eqb_spec, negb_involutive. split.
  - intros E N. rewrite N in E. discriminate.
  - apply SFeqb_refl.
Qed.

(** The order of binary64 numbers on cells that are not NaN. *)
Lemma float_leb_refl (a : float) : notna a = true -> PrimFloat.leb a a = true.
Proof. rewrite notna_spec, FloatAxioms.leb_spec. apply SFleb_refl. Qed.

Lemma float_leb_total (a b : float) :
  notna a = true -> notna b = true -> PrimFloat.leb a b = false -> PrimFloat.leb b a = true.
Proof. rewrite !notna_spec, !FloatAxioms.leb_spec. apply SFleb_total. Qed.

Lemma float_leb_trans (a b c : float) :
  PrimFloat.leb a b = true -> PrimFloat.leb b c = true -> PrimFloat.leb a c = true.
Proof. rewrite !FloatAxioms.leb_spec. apply SFleb_trans. Qed.

Lemma fold_float_max (rest : list float) (x : float) :
  notna x = true -> forallb notna rest = true ->
  let m := fold_left (fun acc v => if PrimFloat.leb acc v then v else acc) rest x in
  In m (x :: rest)
  /\ forall v, In v (x :: rest) -> PrimFloat.leb v m = true.
Proof.
  revert x. induction rest as [|a rest IH]; intros x Nx Nr; simpl in *.
  - split; [left; reflexivity|]. intros v [<-|[]]. apply float_leb_refl, Nx.
  - apply andb_true_iff in Nr. destruct Nr as [Na Nr].
    destruct (PrimFloat.leb x a) eqn:L.
    + destruct (IH a Na Nr) as [Hin Hall]. split.
      * right. exact Hin.
      * intros v [<-|Hv]; [|apply Hall, Hv].
        apply (float_leb_trans _ a); [exact L | apply Hall; left; reflexivity].
    + destruct (IH x Nx Nr) as [Hin Hall]. split.
      * destruct Hin as [E|Hin]; [left; exact E | right; right; exact Hin].
      * intros v [<-|[<-|Hv]].
        -- apply Hall. left. reflexivity.
        -- apply (float_leb_trans _ x);
             [apply float_leb_total; assumption | apply Hall; left; reflexivity].
        -- apply Hall. right. exact Hv.
Qed.

Lemma forallb_filter_same {A : Type} (p : A -> bool) (l : list A) :
  forallb p (filter p l) = true.
Proof.
  apply forallb_forall. intros a Ha. apply filter_In in Ha. apply Ha.
Qed.

Lemma float_series_max_spec (col : list float) :
  ((forall v, In v col -> isna v = true) -> float_series_max col = nan)
  /\ ((exists v, In v col /\ notna v = true) ->
      In (float_series_max col) col
      /\ notna (float_series_max col) = true
      /\ forall v, In v col -> notna v = true ->
                   PrimFloat.leb v (float_series_max col) = true).
Proof.
  unfold float_series_max. split.
  - intros Hall. rewrite filter_none; [reflexivity|].
    intros v Hv. unfold notna. rewrite (Hall v Hv). reflexivity.
  - intros (v0 & Hv0 & Nv0).
    assert (F := forallb_filter_same notna col).
    destruct (filter notna col) as [|x rest] eqn:E.
    { exfalso. assert (Hin : In v0 (filter notna col)) by (apply filter_In; split; assumption).
      rewrite E in Hin. exact Hin. }
    simpl in F. apply andb_true_iff in F. destruct F as [Nx Nr].
    destruct (fold_float_max rest x Nx Nr) as [Hin Hall].
    rewrite <- E in Hin. apply filter_In in Hin. destruct Hin as [Hin Hn].
    split; [exact Hin|]. split; [exact Hn|].
    intros v Hv Nv. apply Hall. rewrite <- E. apply filter_In. split; assumption.
Qed.

(** X15. The y axis of the usage chart and of the savings chart runs from 0
    to 1.1 times the largest mean of the table, means that are NaN left aside:
    that mean is a value of the table and no value of the table exceeds it.
    When the table is empty or holds only NaN the upper end is NaN. *)
Theorem range_y_from_largest_mean (data : DataFrame) :
  forall table : list (Z * string * float),
    table = avg_usage data \/ table = avg_savings data ->
    ((forall row, In row table -> isna (snd row) = true) ->
     range_y table = (0%float, nan))
    /\ ((exists row, In row table /\ notna (snd row) = true) ->
        exists m,
          In m (map snd table)
          /\ notna m = true
          /\ (forall row, In row table -> notna (snd row) = true ->
                          PrimFloat.leb (snd row) m = true)
          /\ range_y table = (0%float, PrimFloat.mul m 0x1.199999999999ap+0%float)).
Proof.
  intros table _. destruct (float_series_max_spec (map snd table)) as [A B]. split.
  - intros Hall. unfold range_y. rewrite A; [reflexivity|].
    intros v Hv. apply in_map_iff in Hv. destruct Hv as (row & <- & Hrow).
    apply Hall, Hrow.
  - intros (row & Hrow & Nrow).
    destruct B as (Hin & Hn & Hmax).
    { exists (snd row). split; [apply in_map, Hrow | exact Nrow]. }
    exists (float_series_max (map snd table)).
    split; [exact Hin|]. split; [exact Hn|]. split; [|reflexivity].
    intros r Hr Nr. apply Hmax; [apply in_map, Hr | exact Nr].
Qed.

(** Brazil at 100 and 200 kWh, Argentina at 80: the largest mean is 150. *)
Lemma range_y_from_largest_mean_witness :
  range_y (avg_usage [brazil_2015 100; argentina_2015; brazil_2015 200])
  = (0%float, PrimFloat.mul 150%float 0x1.199999999999ap+0%float).
Proof.
  destruct (range_y_from_largest_mean
              [brazil_2015 100; argentina_2015; brazil_2015 200]
              (avg_usage [brazil_2015 100; argentina_2015; brazil_2015 200])
              (or_introl eq_refl)) as [_ B].
  destruct B as (m & Hin & _ & _ & E).
  - exists (2015, "Solar"%string, 150%float). split; [vm_compute; tauto | reflexivity].
  - vm_compute. reflexivity.
Defined.
